(** * EGX OHLCV downloader: the acquisition-and-normalization pipeline

    A shallow embedding of [streamlit_ohlcv_excel.py] and the properties of
    its five helpers: [get_egx_tickers], [to_yf_symbol],
    [_slice_ticker_from_download], [normalize_ohlcv] and
    [download_and_write_excel].

    Modelling conventions.
    - Text is a [string] of ASCII characters; [upper], [lower] and [strip]
      follow Python's [str] methods on code points 0..127.
    - A raised exception is a value of [error]; fallible code lives in the
      [result] monad.
    - [ast.literal_eval] and [json.loads] are library functions, not code of
      the repository: [get_egx_tickers] takes them as parameters.  Two
      reference readers for the array-of-strings fragment instantiate them
      in the examples.
    - A pandas frame is a record of column labels and rows; a missing value
      (NaN, None, NaT, pd.NA) is the cell [NA]. *)

(** * The model *)

From Stdlib Require Import String Ascii List Bool Arith ZArith QArith Lia.
From Stdlib Require Import Sorting.Sorted Sorting.Permutation.
From Stdlib Require Import Structures.OrderedTypeEx.
From Stdlib Require Import DecimalString.
Import ListNotations.

Set Warnings "-register-all".

Local Close Scope Q_scope.
Local Open Scope list_scope.
Local Open Scope string_scope.
Local Open Scope nat_scope.

(** ** Exceptions *)

Inductive error : Type :=
| RuntimeError (msg : string)
| JSONDecodeError
| TypeError
| ValueError (msg : string).

Inductive result (A : Type) : Type :=
| Ok (a : A)
| Raise (e : error).

Arguments Ok {A} a.
Arguments Raise {A} e.

Definition bind {A B : Type} (r : result A) (k : A -> result B) : result B :=
  match r with
  | Ok a => k a
  | Raise e => Raise e
  end.

Notation "x <- r ;; k" := (bind r (fun x => k))
  (at level 61, r at next level, right associativity).

(** ** Python's string methods on ASCII text *)

Module Text.

(** [str.isspace] on one ASCII character: TAB, LF, VT, FF, CR, the four
    separators FS, GS, RS, US and the space. *)
Definition isspace (c : ascii) : bool :=
  let n := nat_of_ascii c in
  ((9 <=? n) && (n <=? 13)) || ((28 <=? n) && (n <=? 32)).

Definition upper_char (c : ascii) : ascii :=
  let n := nat_of_ascii c in
  if (97 <=? n) && (n <=? 122) then ascii_of_nat (n - 32) else c.

Definition lower_char (c : ascii) : ascii :=
  let n := nat_of_ascii c in
  if (65 <=? n) && (n <=? 90) then ascii_of_nat (n + 32) else c.

Fixpoint map_chars (f : ascii -> ascii) (s : string) : string :=
  match s with
  | EmptyString => EmptyString
  | String c r => String (f c) (map_chars f r)
  end.

(** [s.upper()] and [s.lower()]. *)
Definition upper (s : string) : string := map_chars upper_char s.
Definition lower (s : string) : string := map_chars lower_char s.

(** [s.lstrip()]: drop the leading whitespace. *)
Fixpoint lstrip (s : string) : string :=
  match s with
  | EmptyString => EmptyString
  | String c r => if isspace c then lstrip r else s
  end.

(** [s.rstrip()]: drop the trailing whitespace. *)
Fixpoint rstrip (s : string) : string :=
  match s with
  | EmptyString => EmptyString
  | String c r =>
      match rstrip r with
      | EmptyString => if isspace c then EmptyString else String c EmptyString
      | r' => String c r'
      end
  end.

(** [s.strip()]. *)
Definition strip (s : string) : string := rstrip (lstrip s).

(** Truth value of a string: non-empty. *)
Definition nonempty (s : string) : bool :=
  match s with
  | EmptyString => false
  | String _ _ => true
  end.

(** [t.endswith(s)]: the last [len(s)] characters of [t] are [s]. *)
Definition endswith (t s : string) : bool :=
  (String.length s <=? String.length t) &&
  (substring (String.length t - String.length s) (String.length s) t =? s)%string.

(** [s.replace(a, b)] for single characters [a] and [b]. *)
Definition replace_char (a b : ascii) (s : string) : string :=
  map_chars (fun c => if Ascii.eqb c a then b else c) s.

(** [s[:n]]. *)
Definition take (n : nat) (s : string) : string := substring 0 n s.

End Text.

(** ** Configuration *)

Definition YF_SUFFIX : string := "".

Definition COLS : list string :=
  ["Date"; "Open"; "High"; "Low"; "Close"; "Adj Close"; "Volume"].

(** ** SymbolMapper *)

(** [to_yf_symbol] with the module constant [YF_SUFFIX] made a parameter:
    [f"{t}{suffix}" if (suffix and not t.endswith(suffix)) else t]. *)
Definition to_yf_symbol_for (suffix t : string) : string :=
  if Text.nonempty suffix && negb (Text.endswith t suffix)
  then t ++ suffix
  else t.

Definition to_yf_symbol (t : string) : string := to_yf_symbol_for YF_SUFFIX t.

(** [re.sub(r'[:\\/?*\[\]]', '_', name)] then [name[:31]]. *)
Definition sheet_forbidden (c : ascii) : bool :=
  existsb (Ascii.eqb c) [":"; "\"; "/"; "?"; "*"; "["; "]"]%char.

Definition sanitize_sheet_name (name : string) : string :=
  Text.take 31
    (Text.map_chars (fun c => if sheet_forbidden c then "_"%char else c) name).

(** ** Python values

    What [ast.literal_eval] and [json.loads] build, as far as the pipeline
    looks at it: the type test [isinstance(v, list)], the truth value, the
    iteration [for t in v] and the conversion [str(t)].  A float is carried
    by the text that [repr] prints for it. *)

Inductive pyval : Type :=
| PyNone
| PyBool (b : bool)
| PyInt (n : Z)
| PyFloat (shown : string)
| PyStr (s : string)
| PyList (items : list pyval)
| PyTuple (items : list pyval)
| PyDict (items : list (pyval * pyval)).

Module Py.

Definition dquote : ascii := "034"%char.
Definition squote : ascii := "039"%char.
Definition backslash : ascii := "092"%char.

Fixpoint contains (c : ascii) (s : string) : bool :=
  match s with
  | EmptyString => false
  | String a r => Ascii.eqb a c || contains c r
  end.

Fixpoint join (sep : string) (l : list string) : string :=
  match l with
  | [] => ""
  | [x] => x
  | x :: r => x ++ sep ++ join sep r
  end.

Definition hex_digit (n : nat) : ascii :=
  if n <? 10 then ascii_of_nat (48 + n) else ascii_of_nat (87 + n).

(** One character of [repr(s)] inside the quote [q]. *)
Definition repr_char (q c : ascii) : string :=
  let n := nat_of_ascii c in
  if Ascii.eqb c q || Ascii.eqb c backslash then String backslash (String c "")
  else if n =? 9 then "\t"
  else if n =? 10 then "\n"
  else if n =? 13 then "\r"
  else if (n <? 32) || (n =? 127) then
    "\x" ++ String (hex_digit (n / 16)) (String (hex_digit (n mod 16)) "")
  else String c "".

Fixpoint repr_chars (q : ascii) (s : string) : string :=
  match s with
  | EmptyString => EmptyString
  | String c r => repr_char q c ++ repr_chars q r
  end.

(** [repr] of a string: single quotes, unless the text has a single quote
    and no double quote. *)
Definition repr_str (s : string) : string :=
  let q := if contains squote s && negb (contains dquote s)
           then dquote else squote in
  String q (repr_chars q s ++ String q "").

Definition str_of_Z (n : Z) : string :=
  DecimalString.NilZero.string_of_int (Z.to_int n).

(** [repr(v)]. *)
Fixpoint repr (v : pyval) : string :=
  match v with
  | PyNone => "None"
  | PyBool true => "True"
  | PyBool false => "False"
  | PyInt n => str_of_Z n
  | PyFloat shown => shown
  | PyStr s => repr_str s
  | PyList items => "[" ++ join ", " (map repr items) ++ "]"
  | PyTuple [x] => "(" ++ repr x ++ ",)"
  | PyTuple items => "(" ++ join ", " (map repr items) ++ ")"
  | PyDict items =>
      "{" ++ join ", " (map (fun kv => repr (fst kv) ++ ": " ++ repr (snd kv))
                            items) ++ "}"
  end.

(** [str(v)]: the text itself for a string, [repr(v)] otherwise. *)
Definition str (v : pyval) : string :=
  match v with
  | PyStr s => s
  | _ => repr v
  end.

(** [isinstance(v, list)]. *)
Definition is_list (v : pyval) : bool :=
  match v with
  | PyList _ => true
  | _ => false
  end.

(** [bool(v)]. *)
Definition truthy (v : pyval) : bool :=
  match v with
  | PyNone => false
  | PyBool b => b
  | PyInt n => negb (n =? 0)%Z
  | PyFloat shown => negb ((shown =? "0.0")%string || (shown =? "-0.0")%string)
  | PyStr s => Text.nonempty s
  | PyList items | PyTuple items => negb (Nat.eqb (List.length items) 0)
  | PyDict items => negb (Nat.eqb (List.length items) 0)
  end.

Fixpoint chars (s : string) : list pyval :=
  match s with
  | EmptyString => []
  | String c r => PyStr (String c "") :: chars r
  end.

(** [for t in v]: the items of a list or tuple, the characters of a string,
    the keys of a dict; any other value is not iterable. *)
Definition iter (v : pyval) : result (list pyval) :=
  match v with
  | PyList items | PyTuple items => Ok items
  | PyStr s => Ok (chars s)
  | PyDict items => Ok (map fst items)
  | _ => Raise TypeError
  end.

(** [sorted(xs)] on strings: insertion into an ascending list. *)
Fixpoint insert (x : string) (l : list string) : list string :=
  match l with
  | [] => [x]
  | y :: r => if String.leb x y then x :: l else y :: insert x r
  end.

Definition sorted (l : list string) : list string :=
  fold_right insert [] l.

(** A set of strings built from a sequence: one copy of each element. *)
Definition set_of (l : list string) : list string := nodup string_dec l.

End Py.

(** ** TickerListParser *)

Module Re.

Fixpoint from_first (c : ascii) (s : string) : option string :=
  match s with
  | EmptyString => None
  | String a r => if Ascii.eqb a c then Some s else from_first c r
  end.

(** The longest prefix of [s] that ends with [c]. *)
Fixpoint upto_last (c : ascii) (s : string) : option string :=
  match s with
  | EmptyString => None
  | String a r =>
      match upto_last c r with
      | Some p => Some (String a p)
      | None => if Ascii.eqb a c then Some (String a "") else None
      end
  end.

(** [re.search(r"\[.*\]", txt, re.S)], giving [m.group(0)]: with [re.S] the
    dot matches every character, so the match runs from the first opening
    bracket to the last closing bracket after it. *)
Definition search_brackets (txt : string) : option string :=
  match from_first "["%char txt with
  | Some (String a r) =>
      match upto_last "]"%char r with
      | Some p => Some (String a p)
      | None => None
      end
  | _ => None
  end.

End Re.

(** [m.group(0)] with every single quote replaced by a double quote. *)
Definition double_quoted (span : string) : string :=
  Text.replace_char Py.squote Py.dquote span.

Definition parse_failed : error :=
  RuntimeError "Ticker list parsing failed or returned empty.".

Section TickerListParser.

(** [ast.literal_eval] and [json.loads]; [None] stands for a raised
    exception.  What [json.loads] raises passes through
    [get_egx_tickers] unchanged and is written [JSONDecodeError], its
    kind for malformed text. *)
Variable literal_eval : string -> option pyval.
Variable json_loads : string -> option pyval.

(** The two parse attempts of [get_egx_tickers], giving [lst]. *)
Definition parse_ticker_list (txt : string) : result pyval :=
  match literal_eval txt with
  | Some v => Ok (if Py.is_list v then v else PyList [])
  | None =>
      match Re.search_brackets txt with
      | Some span =>
          match json_loads (double_quoted span) with
          | Some v => Ok v
          | None => Raise JSONDecodeError
          end
      | None => Ok (PyList [])
      end
  end.

(** [sorted({str(t).upper().strip() for t in lst if str(t).strip()})]. *)
Definition clean_tickers (items : list pyval) : list string :=
  Py.sorted
    (Py.set_of
       (map (fun t => Text.strip (Text.upper (Py.str t)))
            (filter (fun t => Text.nonempty (Text.strip (Py.str t))) items))).

(** [get_egx_tickers], from the text of the HTTP response. *)
Definition get_egx_tickers (response_text : string) : result (list string) :=
  let txt := Text.strip response_text in
  lst <- parse_ticker_list txt ;;
  if negb (Py.truthy lst) then Raise parse_failed
  else items <- Py.iter lst ;; Ok (clean_tickers items).

End TickerListParser.

(** ** Reference readers

    Readers for the fragment of the two syntaxes that a ticker page is
    written in: arrays, possibly nested, of quoted strings, decimal
    integers and the three constants.  They stand in for
    [ast.literal_eval] and [json.loads] in the examples.  Text outside the
    fragment (floats, tuples, dicts and objects, [\u], [\x] and octal
    escapes, adjacent string literals, comments) is rejected by them. *)

Module Reader.

Record Dialect : Type := {
  is_ws : ascii -> bool;
  quotes : list ascii;
  raw_ok : ascii -> bool;
  unescape : ascii -> option string;
  keywords : list (string * pyval);
  trailing_comma : bool;
  plus_sign : bool
}.

Section Read.

Variable d : Dialect.

Fixpoint skip_ws (s : string) : string :=
  match s with
  | String c r => if is_ws d c then skip_ws r else s
  | EmptyString => s
  end.

(** The body of a string literal, after its opening quote [q]. *)
Fixpoint read_string (q : ascii) (s : string) : option (string * string) :=
  match s with
  | EmptyString => None
  | String c r =>
      if Ascii.eqb c q then Some ("", r)
      else if Ascii.eqb c Py.backslash then
        match r with
        | String e r' =>
            match unescape d e, read_string q r' with
            | Some t, Some (body, rest) => Some (t ++ body, rest)
            | _, _ => None
            end
        | EmptyString => None
        end
      else if raw_ok d c then
        match read_string q r with
        | Some (body, rest) => Some (String c body, rest)
        | None => None
        end
      else None
  end.

Definition is_digit (c : ascii) : bool :=
  let n := nat_of_ascii c in (48 <=? n) && (n <=? 57).

Definition is_letter (c : ascii) : bool :=
  let n := nat_of_ascii c in
  ((65 <=? n) && (n <=? 90)) || ((97 <=? n) && (n <=? 122)).

Fixpoint span (p : ascii -> bool) (s : string) : string * string :=
  match s with
  | String c r =>
      if p c then let (a, b) := span p r in (String c a, b) else ("", s)
  | EmptyString => ("", "")
  end.

Fixpoint Z_of_digits (acc : Z) (ds : string) : Z :=
  match ds with
  | EmptyString => acc
  | String c r => Z_of_digits (10 * acc + Z.of_nat (nat_of_ascii c - 48)) r
  end.

(** An unsigned decimal integer without leading zeros. *)
Definition read_nat (s : string) : option (Z * string) :=
  let (ds, rest) := span is_digit s in
  match ds with
  | EmptyString => None
  | String "0" (String _ _) => None
  | _ => Some (Z_of_digits 0 ds, rest)
  end.

Fixpoint lookup (k : string) (l : list (string * pyval)) : option pyval :=
  match l with
  | [] => None
  | (k', v) :: r => if (k =? k')%string then Some v else lookup k r
  end.

Definition read_keyword (s : string) : option (pyval * string) :=
  let (w, rest) := span is_letter s in
  match lookup w (keywords d) with
  | Some v => Some (v, rest)
  | None => None
  end.

Fixpoint read_value (fuel : nat) (s : string) {struct fuel}
  : option (pyval * string) :=
  match fuel with
  | 0 => None
  | S fuel' =>
      match s with
      | EmptyString => None
      | String c r =>
          if existsb (Ascii.eqb c) (quotes d) then
            match read_string c r with
            | Some (body, rest) => Some (PyStr body, rest)
            | None => None
            end
          else if Ascii.eqb c "["%char then
            match skip_ws r with
            | String "]" r' => Some (PyList [], r')
            | r1 =>
                match read_items fuel' r1 with
                | Some (vs, rest) => Some (PyList vs, rest)
                | None => None
                end
            end
          else if Ascii.eqb c "-"%char then
            match read_nat r with
            | Some (n, rest) => Some (PyInt (- n), rest)
            | None => None
            end
          else if Ascii.eqb c "+"%char && plus_sign d then
            match read_nat r with
            | Some (n, rest) => Some (PyInt n, rest)
            | None => None
            end
          else if is_digit c then
            match read_nat s with
            | Some (n, rest) => Some (PyInt n, rest)
            | None => None
            end
          else read_keyword s
      end
  end
with read_items (fuel : nat) (s : string) {struct fuel}
  : option (list pyval * string) :=
  match fuel with
  | 0 => None
  | S fuel' =>
      match read_value fuel' s with
      | None => None
      | Some (v, rest) =>
          match skip_ws rest with
          | String "]" r => Some ([v], r)
          | String "," r =>
              match skip_ws r with
              | String "]" r' =>
                  if trailing_comma d then Some ([v], r') else None
              | r1 =>
                  match read_items fuel' r1 with
                  | Some (vs, r') => Some (v :: vs, r')
                  | None => None
                  end
              end
          | _ => None
          end
      end
  end.

(** One value, surrounded by whitespace only. *)
Definition read (txt : string) : option pyval :=
  match read_value (2 * String.length txt + 2) (skip_ws txt) with
  | Some (v, rest) =>
      match skip_ws rest with
      | EmptyString => Some v
      | _ => None
      end
  | None => None
  end.

End Read.

Definition blank (c : ascii) : bool :=
  existsb (Nat.eqb (nat_of_ascii c)) [9; 10; 13; 32].

Definition char (n : nat) : string := String (ascii_of_nat n) "".

Definition raw_ok_line (c : ascii) : bool :=
  negb (existsb (Nat.eqb (nat_of_ascii c)) [10; 13]).

(** JSON: double-quoted strings, no raw control character, the escapes of
    RFC 8259 except [\u]. *)
Definition json : Dialect := {|
  is_ws := blank;
  quotes := [Py.dquote];
  raw_ok := fun c => 32 <=? nat_of_ascii c;
  unescape := fun e =>
    if Ascii.eqb e Py.dquote then Some (String e "")
    else if Ascii.eqb e Py.backslash then Some (String e "")
    else match e with
         | "/"%char => Some "/"
         | "b"%char => Some (char 8)
         | "f"%char => Some (char 12)
         | "n"%char => Some (char 10)
         | "r"%char => Some (char 13)
         | "t"%char => Some (char 9)
         | _ => None
         end;
  keywords := [("true", PyBool true); ("false", PyBool false);
               ("null", PyNone)];
  trailing_comma := false;
  plus_sign := false
|}.

(** Python literals: either quote, no raw line break inside a string, the
    one-letter escapes; a backslash before any other character stays in
    the text together with that character. *)
Definition python : Dialect := {|
  is_ws := blank;
  quotes := [Py.squote; Py.dquote];
  raw_ok := raw_ok_line;
  unescape := fun e =>
    if Ascii.eqb e Py.dquote || Ascii.eqb e Py.squote
       || Ascii.eqb e Py.backslash then Some (String e "")
    else if is_digit e || negb (raw_ok_line e) then None
    else match e with
         | "a"%char => Some (char 7)
         | "b"%char => Some (char 8)
         | "f"%char => Some (char 12)
         | "n"%char => Some (char 10)
         | "r"%char => Some (char 13)
         | "t"%char => Some (char 9)
         | "v"%char => Some (char 11)
         | "x"%char | "N"%char | "u"%char | "U"%char => None
         | _ => Some (String Py.backslash (String e ""))
         end;
  keywords := [("True", PyBool true); ("False", PyBool false);
               ("None", PyNone)];
  trailing_comma := true;
  plus_sign := true
|}.

End Reader.

Definition ref_literal_eval : string -> option pyval :=
  Reader.read Reader.python.

Definition ref_json_loads : string -> option pyval :=
  Reader.read Reader.json.

(** ** Frames

    A cell holds a float, a timestamp (a day or instant number) or nothing.
    A frame has an ordered list of column labels and, for every row, an
    index label and one cell per column.  [Frame (option Z)] is a frame
    over a date index ([None] is NaT); [Frame unit] is a frame over the
    default [RangeIndex], whose labels are the row positions. *)

Inductive cell : Type :=
| NA
| Num (q : Q)
| Stamp (t : Z).

Record Frame (L : Type) : Type := mkFrame {
  index_name : option string;
  columns : list string;
  rows : list (L * list cell)
}.

Arguments mkFrame {L} index_name columns rows.
Arguments index_name {L} f.
Arguments columns {L} f.
Arguments rows {L} f.

(** A frame whose columns are a two-level [MultiIndex]. *)
Record MultiFrame : Type := mkMultiFrame {
  m_index_name : option string;
  m_columns : list (string * string);
  m_rows : list (option Z * list cell)
}.

(** The bulk response: [isinstance(df.columns, pd.MultiIndex)] or not. *)
Inductive DataFrame : Type :=
| Flat (df : Frame (option Z))
| Multi (df : MultiFrame).

Module Pd.

Definition isna (c : cell) : bool :=
  match c with
  | NA => true
  | _ => false
  end.

Definition is_nil {A : Type} (l : list A) : bool :=
  match l with
  | [] => true
  | _ :: _ => false
  end.

(** [df.empty]: an axis of length zero. *)
Definition empty {L : Type} (df : Frame L) : bool :=
  is_nil (rows df) || is_nil (columns df).

Definition m_empty (df : MultiFrame) : bool :=
  is_nil (m_rows df) || is_nil (m_columns df).

(** [c in df.columns]. *)
Definition has_column {L : Type} (c : string) (df : Frame L) : bool :=
  existsb (String.eqb c) (columns df).

Fixpoint position (c : string) (cols : list string) : option nat :=
  match cols with
  | [] => None
  | x :: r =>
      if (x =? c)%string then Some 0
      else match position c r with
           | Some i => Some (S i)
           | None => None
           end
  end.

(** The cell of a row under the column [c]. *)
Definition cell_at (cols : list string) (cells : list cell) (c : string)
  : cell :=
  match position c cols with
  | Some i => nth i cells NA
  | None => NA
  end.

(** [df[labels]] for a list of labels that are all columns of [df]. *)
Definition select {L : Type} (labels : list string) (df : Frame L) : Frame L :=
  mkFrame (index_name df) labels
    (map (fun r => (fst r, map (cell_at (columns df) (snd r)) labels))
         (rows df)).

(** [df[c] = value] for a label [c] that is not yet a column: the new
    column goes last. *)
Definition assign_new {L : Type} (c : string) (value : list cell -> cell)
  (df : Frame L) : Frame L :=
  mkFrame (index_name df) (columns df ++ [c])%list
    (map (fun r => (fst r, (snd r ++ [value (snd r)])%list)) (rows df)).

(** [df.dropna(how="any")]: keep the rows without a missing cell. *)
Definition dropna {L : Type} (df : Frame L) : Frame L :=
  mkFrame (index_name df) (columns df)
    (filter (fun r => negb (existsb isna (snd r))) (rows df)).

Definition label_cell (l : option Z) : cell :=
  match l with
  | Some t => Stamp t
  | None => NA
  end.

(** [df.reset_index()]: the index becomes the first column, named after
    the index or ["index"]; pandas refuses to insert a label that is
    already a column. *)
Definition index_label {L : Type} (df : Frame L) : string :=
  match index_name df with
  | Some n => n
  | None => "index"
  end.

Definition reset_index (df : Frame (option Z)) : result (Frame unit) :=
  let name := index_label df in
  if has_column name df
  then Raise (ValueError ("cannot insert " ++ name ++ ", already exists"))
  else Ok (mkFrame None (name :: columns df)
             (map (fun r => (tt, label_cell (fst r) :: snd r)) (rows df))).

(** [df.rename(columns={old: new})]. *)
Definition rename {L : Type} (old new : string) (df : Frame L) : Frame L :=
  mkFrame (index_name df)
    (map (fun c => if (c =? old)%string then new else c) (columns df))
    (rows df).

(** The order of sort keys: a missing key goes last. *)
Definition key_le (a b : cell) : bool :=
  match a, b with
  | _, NA => true
  | NA, _ => false
  | Stamp x, Stamp y => (x <=? y)%Z
  | Num x, Num y => Qle_bool x y
  | _, _ => true
  end.

Fixpoint insert_row {L : Type} (key : list cell -> cell) (r : L * list cell)
  (l : list (L * list cell)) : list (L * list cell) :=
  match l with
  | [] => [r]
  | x :: rest =>
      if key_le (key (snd r)) (key (snd x)) then r :: l
      else x :: insert_row key r rest
  end.

(** [df.sort_values(c)]: rows in ascending order of the cell under [c].
    Rows with equal keys keep their order here; pandas leaves it to
    NumPy's quicksort. *)
Definition sort_rows {L : Type} (key : list cell -> cell)
  (l : list (L * list cell)) : list (L * list cell) :=
  fold_right (insert_row key) [] l.

Definition sort_values {L : Type} (c : string) (df : Frame L) : Frame L :=
  mkFrame (index_name df) (columns df)
    (sort_rows (fun cells => cell_at (columns df) cells c) (rows df)).

(** [keep cells] where the mask holds. *)
Fixpoint pick {A : Type} (mask : list bool) (l : list A) : list A :=
  match mask, l with
  | true :: m, x :: r => x :: pick m r
  | false :: m, _ :: r => pick m r
  | _, _ => []
  end.

(** [df[ticker]] on two-level columns: the columns of the top-level group
    [ticker], labelled by their second level.  The second-level labels are
    field names: pandas hands back a [Series] instead when the group is a
    single column labelled by the empty string. *)
Definition getitem_group (df : MultiFrame) (ticker : string)
  : Frame (option Z) :=
  let mask := map (fun c => (fst c =? ticker)%string) (m_columns df) in
  mkFrame (m_index_name df) (map snd (pick mask (m_columns df)))
    (map (fun r => (fst r, pick mask (snd r))) (m_rows df)).

(** [df.xs(ticker, axis=1, level=1)]: the columns whose second level is
    [ticker], labelled by their first level. *)
Definition xs_level1 (df : MultiFrame) (ticker : string)
  : Frame (option Z) :=
  let mask := map (fun c => (snd c =? ticker)%string) (m_columns df) in
  mkFrame (m_index_name df) (map fst (pick mask (m_columns df)))
    (map (fun r => (fst r, pick mask (snd r))) (m_rows df)).

(** [ticker in df.columns.get_level_values(k)]. *)
Definition in_level0 (ticker : string) (df : MultiFrame) : bool :=
  existsb (fun c => (fst c =? ticker)%string) (m_columns df).

Definition in_level1 (ticker : string) (df : MultiFrame) : bool :=
  existsb (fun c => (snd c =? ticker)%string) (m_columns df).

End Pd.

(** ** BulkSeriesSlicer *)

(** [_slice_ticker_from_download(df, ticker)]; [None] is Python's [None].
    The cross-section cannot raise once [ticker] is known to be in the
    second level, so the [try] block has no failing path here. *)
Definition _slice_ticker_from_download (df : option DataFrame)
  (ticker : string) : option (Frame (option Z)) :=
  match df with
  | None => None
  | Some (Flat f) => if Pd.empty f then None else Some f
  | Some (Multi m) =>
      if Pd.m_empty m then None
      else if Pd.in_level0 ticker m then Some (Pd.getitem_group m ticker)
      else if Pd.in_level1 ticker m then Some (Pd.xs_level1 m ticker)
      else None
  end.

(** ** OhlcvNormalizer *)

Definition OHLCV : list string :=
  ["Open"; "High"; "Low"; "Close"; "Adj Close"; "Volume"].

(** Lines 61-62: [Adj Close] copied from [Close] when absent. *)
Definition with_adj_close (df : Frame (option Z)) : Frame (option Z) :=
  if negb (Pd.has_column "Adj Close" df) && Pd.has_column "Close" df
  then Pd.assign_new "Adj Close"
         (fun cells => Pd.cell_at (columns df) cells "Close") df
  else df.

(** Line 63: the recognized fields that are columns. *)
Definition keep (df : Frame (option Z)) : list string :=
  filter (fun c => Pd.has_column c df) OHLCV.

(** Lines 66-67: the first column renamed to [Date] unless it is already
    spelled so in some letter case. *)
Definition name_date (df : Frame unit) : Frame unit :=
  let first := hd "" (columns df) in
  if negb (Text.lower first =? "date")%string
  then Pd.rename first "Date" df
  else df.

(** Lines 68-70: a column of missing values for every absent label. *)
Definition fill_missing (df : Frame unit) : Frame unit :=
  fold_left
    (fun acc col =>
       if Pd.has_column col acc then acc
       else Pd.assign_new col (fun _ => NA) acc)
    COLS df.

Definition normalize_ohlcv (df_t : Frame (option Z)) : result (Frame unit) :=
  let df1 := with_adj_close df_t in
  let df2 := Pd.dropna (Pd.select (keep df1) df1) in
  df3 <- Pd.reset_index df2 ;;
  let df4 := name_date df3 in
  let df5 := fill_missing df4 in
  let df6 := Pd.select COLS df5 in
  Ok (if Pd.has_column "Date" df6 then Pd.sort_values "Date" df6 else df6).

(** ** PipelineOrchestrator *)

Record SummaryRow : Type := mkSummaryRow {
  original_ticker : string;
  yf_symbol : string;
  n_rows : nat;
  first_date : option cell;
  last_date : option cell;
  note : string
}.

(** The accumulators of the loop: the calls of [to_excel] (lines 117-119),
    each with its sheet name and its frame, in the order of the calls; the
    summary rows; the skip list. *)
Record Accumulated : Type := mkAccumulated {
  writes : list (string * Frame unit);
  summary_rows : list SummaryRow;
  skipped : list string
}.

Definition skip (acc : Accumulated) (orig yf_sym why : string) : Accumulated :=
  mkAccumulated (writes acc)
    (summary_rows acc ++ [mkSummaryRow orig yf_sym 0 None None why])%list
    (skipped acc ++ [yf_sym])%list.

Definition date_column (df : Frame unit) : list cell :=
  map (fun r => Pd.cell_at (columns df) (snd r) "Date") (rows df).

(** One turn of the loop over [pairs] (lines 98-129). *)
Definition process (data : option DataFrame) (acc : Accumulated)
  (pair : string * string) : result Accumulated :=
  let (orig, yf_sym) := pair in
  match _slice_ticker_from_download data yf_sym with
  | None => Ok (skip acc orig yf_sym "No data")
  | Some df_t =>
      if Pd.empty df_t then Ok (skip acc orig yf_sym "No data")
      else
        df_norm <- normalize_ohlcv df_t ;;
        if Pd.empty df_norm
        then Ok (skip acc orig yf_sym "Empty after normalization")
        else
          let dates := date_column df_norm in
          Ok (mkAccumulated
                (writes acc ++ [(sanitize_sheet_name orig, df_norm)])%list
                (summary_rows acc ++
                   [mkSummaryRow orig yf_sym (List.length (rows df_norm))
                      (Some (hd NA dates)) (Some (last dates NA)) ""])%list
                (skipped acc))
  end.

Fixpoint for_each {S A : Type} (body : S -> A -> result S) (l : list A)
  (s : S) : result S :=
  match l with
  | [] => Ok s
  | x :: r => s' <- body s x ;; for_each body r s'
  end.

Section Pipeline.

Variable literal_eval : string -> option pyval.
Variable json_loads : string -> option pyval.

(** The text served at the ticker-list URL and the bulk download, as the
    two external calls return them. *)
Variable response_text : string.
Variable yf_download : list string -> option DataFrame.

(** [download_and_write_excel]: the writes, the summary frame and the skip
    list of a run in which the two external calls and the writes of the
    workbook return; what these raise themselves is not modelled.  The
    workbook bytes and the time-stamped file name are left out. *)
Definition download_and_write_excel : result Accumulated :=
  original_tickers <- get_egx_tickers literal_eval json_loads response_text ;;
  let pairs := map (fun orig => (orig, to_yf_symbol orig)) original_tickers in
  let yf_syms := map snd pairs in
  if Pd.is_nil yf_syms
  then Raise (RuntimeError "No tickers to download after mapping.")
  else for_each (process (yf_download yf_syms)) pairs
         (mkAccumulated [] [] []).

End Pipeline.

(** The outcome of one provider symbol: NoData if the slice is absent or
    empty, EmptyAfterNormalization if the slice is non-empty but
    normalization yields zero rows, Success otherwise. *)
Inductive SymbolOutcome : Type :=
| Success (rowCount : nat) (firstDate lastDate : cell)
| NoData
| EmptyAfterNormalization.

Definition outcome (data : option DataFrame) (yf_sym : string)
  : result SymbolOutcome :=
  match _slice_ticker_from_download data yf_sym with
  | None => Ok NoData
  | Some df_t =>
      if Pd.empty df_t then Ok NoData
      else
        df_norm <- normalize_ohlcv df_t ;;
        Ok (match rows df_norm with
            | [] => EmptyAfterNormalization
            | _ :: _ =>
                Success (List.length (rows df_norm))
                  (hd NA (date_column df_norm))
                  (last (date_column df_norm) NA)
            end)
  end.

Definition usable (o : SymbolOutcome) : bool :=
  match o with
  | Success _ _ _ => true
  | _ => false
  end.

Definition note_of (o : SymbolOutcome) : string :=
  match o with
  | Success _ _ _ => ""
  | NoData => "No data"
  | EmptyAfterNormalization => "Empty after normalization"
  end.

Definition summary_row_of (orig yf_sym : string) (o : SymbolOutcome)
  : SummaryRow :=
  match o with
  | Success n first last => mkSummaryRow orig yf_sym n (Some first) (Some last) ""
  | _ => mkSummaryRow orig yf_sym 0 None None (note_of o)
  end.

(** The ticker produced no usable data. *)
Definition no_usable_data (data : option DataFrame) (ticker : string) : bool :=
  match outcome data (to_yf_symbol ticker) with
  | Ok o => negb (usable o)
  | Raise _ => false
  end.

(** The note of a summary row against the slice of its symbol. *)
Definition note_matches (data : option DataFrame) (yf_sym note : string)
  : Prop :=
  match _slice_ticker_from_download data yf_sym with
  | None => note = "No data"
  | Some df_t =>
      if Pd.empty df_t then note = "No data"
      else exists df_norm,
          normalize_ohlcv df_t = Ok df_norm /\
          (rows df_norm = [] -> note = "Empty after normalization") /\
          (rows df_norm <> [] -> note = "")
  end.

(** ** The canonical row of an input row

    What [normalize_ohlcv] is expected to emit for one row of a series,
    written on the input frame alone. *)

Definition well_formed {L : Type} (df : Frame L) : Prop :=
  NoDup (columns df) /\
  Forall (fun r => List.length (snd r) = List.length (columns df)) (rows df).

Definition aligned {L : Type} (df : Frame L) : Prop :=
  Forall (fun r => List.length (snd r) = List.length (columns df)) (rows df).

(** The cells of a row after lines 61-62. *)
Definition adj_cells (df : Frame (option Z)) (cells : list cell)
  : list cell :=
  if negb (Pd.has_column "Adj Close" df) && Pd.has_column "Close" df
  then (cells ++ [Pd.cell_at (columns df) cells "Close"])%list
  else cells.

Definition field {L : Type} (df : Frame L) (cells : list cell) (c : string)
  : cell :=
  Pd.cell_at (columns df) cells c.

Definition adjusted {L : Type} (df : Frame L) (cells : list cell) : cell :=
  if Pd.has_column "Adj Close" df then field df cells "Adj Close"
  else field df cells "Close".

(** No recognized field that is a column of the frame is missing in the
    row. *)
Definition complete {L : Type} (df : Frame L) (cells : list cell) : bool :=
  forallb
    (fun c => negb (Pd.has_column c df) || negb (Pd.isna (field df cells c)))
    OHLCV.

(** The index becomes the [Date] column unless its name is a case variant
    of ["date"] other than ["Date"] itself. *)
Definition date_kept {L : Type} (df : Frame L) : bool :=
  negb (Text.lower (Pd.index_label df) =? "date")%string
  || (Pd.index_label df =? "Date")%string.

Definition canonical (df : Frame (option Z)) (r : option Z * list cell)
  : unit * list cell :=
  (tt,
   [ if date_kept df then Pd.label_cell (fst r) else NA;
     field df (snd r) "Open";
     field df (snd r) "High";
     field df (snd r) "Low";
     field df (snd r) "Close";
     adjusted df (snd r);
     field df (snd r) "Volume" ]).

Definition date_key (cells : list cell) : cell := nth 0 cells NA.

Definition no_null (cells : list cell) : Prop := Forall (fun c => c <> NA) cells.

(** The symbol of a pair goes to the skip list. *)
Definition skip_symbol (data : option DataFrame) (p : string * string)
  : bool :=
  match outcome data (snd p) with
  | Ok o => negb (usable o)
  | Raise _ => false
  end.

(** The summary row of a pair. *)
Definition row_for (data : option DataFrame) (p : string * string)
  (row : SummaryRow) : Prop :=
  exists o, outcome data (snd p) = Ok o /\
            row = summary_row_of (fst p) (snd p) o /\
            note_matches data (snd p) (note row).

(** ** Example data *)

Module Examples.

(** One fully populated row and one row without [Low]. *)
Definition two_rows : Frame (option Z) :=
  mkFrame (Some "Date")
    ["Open"; "High"; "Low"; "Close"; "Adj Close"; "Volume"]
    [ (Some 20240102%Z,
       [Num 10; Num 11; NA; Num (21 # 2); Num (41 # 4); Num 1000]);
      (Some 20240101%Z,
       [Num 10; Num 11; Num 9; Num (21 # 2); Num (41 # 4); Num 1000]) ].

Definition two_rows_out : Frame unit :=
  mkFrame None COLS
    [ (tt, [Stamp 20240101; Num 10; Num 11; Num 9; Num (21 # 2);
            Num (41 # 4); Num 1000]) ].

(** The row [{Date: D, Open: 10, High: 11, Low: 9, Close: 10.5,
    Volume: 1000}] of a series without an adjusted close. *)
Definition no_adj_close (D : Z) : Frame (option Z) :=
  mkFrame (Some "Date")
    ["Open"; "High"; "Low"; "Close"; "Volume"]
    [ (Some D, [Num 10; Num 11; Num 9; Num (21 # 2); Num 1000]) ].

(** A series that has no [Volume] column at all. *)
Definition no_volume : Frame (option Z) :=
  mkFrame (Some "Date")
    ["Open"; "High"; "Low"; "Close"]
    [ (Some 20240101%Z, [Num 10; Num 11; Num 9; Num (21 # 2)]) ].

(** A flat response with an index of three days and no column. *)
Definition no_columns : Frame (option Z) :=
  mkFrame (Some "Date") []
    [ (Some 1%Z, []); (Some 2%Z, []); (Some 3%Z, []) ].

(** A two-level response, symbols outermost. *)
Definition by_symbol : MultiFrame :=
  mkMultiFrame (Some "Date")
    [ ("AAA", "Open"); ("AAA", "High"); ("AAA", "Low"); ("AAA", "Close");
      ("AAA", "Volume");
      ("BBB", "Open"); ("BBB", "High"); ("BBB", "Low"); ("BBB", "Close");
      ("BBB", "Volume") ]
    [ (Some 20240101%Z,
       [Num 10; Num 11; Num 9; Num (21 # 2); Num 1000; NA; NA; NA; NA; NA]);
      (Some 20240102%Z,
       [Num 11; Num 12; Num 10; Num 11; Num 900; NA; NA; NA; NA; NA]) ].

(** The bulk download of the end-to-end example: full data for AAA,
    nothing for BBB. *)
Definition download (syms : list string) : option DataFrame :=
  Some (Multi by_symbol).

End Examples.

(** ** The parser claims, in the words of the specification *)

Section ParserClaims.

Variable literal_eval : string -> option pyval.
Variable json_loads : string -> option pyval.

(** What the strict strategy yields: the elements of the list literal, or
    nothing. *)
Definition strict_yield (txt : string) : list pyval :=
  match literal_eval txt with
  | Some (PyList items) => items
  | _ => []
  end.

(** What the loose strategy yields: the elements of the array found in the
    first bracketed span, or nothing. *)
Definition loose_yield (txt : string) : list pyval :=
  match Re.search_brackets txt with
  | Some span =>
      match json_loads (double_quoted span) with
      | Some (PyList items) => items
      | _ => []
      end
  | None => []
  end.

Definition both_yield_nothing (txt : string) : Prop :=
  strict_yield txt = [] /\ loose_yield txt = [].

(** The fallback parse is attempted and raises. *)
Definition fallback_raises (txt : string) : Prop :=
  literal_eval txt = None /\
  exists span, Re.search_brackets txt = Some span /\
               json_loads (double_quoted span) = None.

(** The value [lst] that reaches line 31 is empty. *)
Definition list_empty (txt : string) : Prop :=
  (exists v, literal_eval txt = Some v /\
             (Py.is_list v = false \/ v = PyList [])) \/
  (literal_eval txt = None /\
   (Re.search_brackets txt = None \/
    exists span v, Re.search_brackets txt = Some span /\
                   json_loads (double_quoted span) = Some v /\
                   Py.truthy v = false)).

(** What the strict path produces on a text. *)
Definition strict_path (txt : string) : option (list string) :=
  match literal_eval txt with
  | Some (PyList items) =>
      if Py.truthy (PyList items) then Some (clean_tickers items) else None
  | _ => None
  end.

End ParserClaims.

(** Strictly ascending order of strings by code point. *)
Definition str_lt (a b : string) : Prop := String.ltb a b = true.
Definition str_le (a b : string) : Prop := String.leb a b = true.

(** The tickers of a list of parsed elements, in the order of the
    specification: coerce to string, trim, uppercase, drop empties. *)
Definition is_ticker_of (items : list pyval) (s : string) : Prop :=
  exists t, In t items /\
            Text.strip (Py.str t) <> "" /\
            s = Text.upper (Text.strip (Py.str t)).

(** ** Further notions used by the properties *)

(** The order of the Date column: timestamps ascending, missing dates
    last. *)
Definition date_le (a b : cell) : Prop :=
  match a, b with
  | Stamp x, Stamp y => (x <= y)%Z
  | _, NA => True
  | _, _ => False
  end.

(** Two rows in the order that [sort_values] uses on the Date column. *)
Definition key_ordered (r1 r2 : unit * list cell) : Prop :=
  Pd.key_le (date_key (snd r1)) (date_key (snd r2)) = true.

(** A cell that can stand in a Date column: a timestamp or nothing. *)
Definition dated (c : cell) : Prop :=
  match c with
  | Num _ => False
  | _ => True
  end.

(** The two levels of the columns exchanged ([df.swaplevel(axis=1)]). *)
Definition swap_levels (m : MultiFrame) : MultiFrame :=
  mkMultiFrame (m_index_name m)
    (map (fun c => (snd c, fst c)) (m_columns m)) (m_rows m).

(** A bulk response with distinct column labels and one cell per column in
    every row. *)
Definition well_formed_response (d : DataFrame) : Prop :=
  match d with
  | Flat f => well_formed f
  | Multi m =>
      NoDup (m_columns m) /\
      Forall (fun r => List.length (snd r) = List.length (m_columns m))
        (m_rows m)
  end.

(** The replacement that [sanitize_sheet_name] applies to a character. *)
Definition sheet_char (c : ascii) : ascii :=
  if sheet_forbidden c then "_"%char else c.

Definition no_tickers : error :=
  RuntimeError "No tickers to download after mapping.".

Definition cannot_insert (name : string) : error :=
  ValueError ("cannot insert " ++ name ++ ", already exists").

(** The sheet written for a pair: named after the ticker, holding the
    normalized slice of its symbol, which has at least one row. *)
Definition sheet_for (data : option DataFrame) (p : string * string)
  (sheet : string * Frame unit) : Prop :=
  fst sheet = sanitize_sheet_name (fst p) /\
  exists df_t,
    _slice_ticker_from_download data (snd p) = Some df_t /\
    normalize_ohlcv df_t = Ok (snd sheet) /\
    rows (snd sheet) <> [].

Module Series.

(** Three days out of order. *)
Definition unsorted : Frame (option Z) :=
  mkFrame (Some "Date")
    ["Open"; "High"; "Low"; "Close"; "Volume"]
    [ (Some 20240103%Z, [Num 3; Num 3; Num 3; Num 3; Num 30]);
      (Some 20240101%Z, [Num 1; Num 1; Num 1; Num 1; Num 10]);
      (Some 20240102%Z, [Num 2; Num 2; Num 2; Num 2; Num 20]) ].

Definition unsorted_out : Frame unit :=
  mkFrame None COLS
    [ (tt, [Stamp 20240101; Num 1; Num 1; Num 1; Num 1; Num 1; Num 10]);
      (tt, [Stamp 20240102; Num 2; Num 2; Num 2; Num 2; Num 2; Num 20]);
      (tt, [Stamp 20240103; Num 3; Num 3; Num 3; Num 3; Num 3; Num 30]) ].

(** A series whose index is named in lower case. *)
Definition lower_date : Frame (option Z) :=
  mkFrame (Some "date")
    ["Open"; "High"; "Low"; "Close"; "Volume"]
    [ (Some 20240101%Z, [Num 1; Num 1; Num 1; Num 1; Num 10]) ].

End Series.

(** ** The fragment on which the two parsers are compared *)

(** [f] reads the text [s] as the reference reader [ref] does, whenever
    the reference reader reads it. *)
Definition reads_as (ref f : string -> option pyval) (s : string) : Prop :=
  forall v, ref s = Some v -> f s = Some v.

Definition head_is (c : ascii) (s : string) : bool :=
  match s with
  | String a _ => Ascii.eqb a c
  | EmptyString => false
  end.

Definition tail (s : string) : string :=
  match s with
  | String _ r => r
  | EmptyString => EmptyString
  end.

(** No backslash of the text stands before a solidus: the text has no
    escape [\/], which JSON reads as a solidus and Python as the two
    characters. *)
Fixpoint solidus_free (s : string) : bool :=
  match s with
  | EmptyString => true
  | String c r =>
      negb (Ascii.eqb c Py.backslash && head_is "/"%char r) && solidus_free r
  end.

(** A value that holds none of the constants that JSON spells [true],
    [false] and [null]. *)
Fixpoint keyword_free (v : pyval) : bool :=
  match v with
  | PyNone | PyBool _ => false
  | PyList items | PyTuple items => forallb keyword_free items
  | PyDict items =>
      forallb (fun kv : pyval * pyval =>
                 let (k, x) := kv in keyword_free k && keyword_free x)
              items
  | _ => true
  end.

Fixpoint all_chars (p : ascii -> bool) (s : string) : bool :=
  match s with
  | EmptyString => true
  | String c r => p c && all_chars p r
  end.

(** The text is not empty and is not a zero followed by more. *)
Definition no_leading_zero (ds : string) : bool :=
  match ds with
  | EmptyString => false
  | String "0" (String _ _) => false
  | _ => true
  end.

(** Arrays of plain strings and decimal integers, as a ticker page writes
    them: any blank padding around the elements, strings without a quote,
    a backslash or a control character. *)
Module Plain.

Inductive item : Type :=
| Str (body : string)
| Int (negative : bool) (digits : string).

Record element : Type := mkElement {
  before : string;
  value : item;
  after : string
}.

Definition char_ok (c : ascii) : bool :=
  (32 <=? nat_of_ascii c)
  && negb (Ascii.eqb c Py.squote)
  && negb (Ascii.eqb c Py.dquote)
  && negb (Ascii.eqb c Py.backslash).

(** A decimal integer without a leading zero. *)
Definition decimal (ds : string) : bool :=
  no_leading_zero ds && all_chars Reader.is_digit ds.

Definition item_ok (i : item) : bool :=
  match i with
  | Str body => all_chars char_ok body
  | Int _ ds => decimal ds
  end.

Definition element_ok (e : element) : bool :=
  all_chars Reader.blank (before e)
  && item_ok (value e)
  && all_chars Reader.blank (after e).

Definition array (a : list element) : Prop :=
  a <> [] /\ forallb element_ok a = true.

(** The text of an item between the quotes [q]. *)
Definition item_text (q : ascii) (i : item) : string :=
  match i with
  | Str body => String q (body ++ String q "")
  | Int true ds => String "-" ds
  | Int false ds => ds
  end.

Definition element_text (q : ascii) (e : element) : string :=
  before e ++ item_text q (value e) ++ after e.

Fixpoint items_text (q : ascii) (a : list element) : string :=
  match a with
  | [] => ""
  | [e] => element_text q e
  | e :: rest => element_text q e ++ "," ++ items_text q rest
  end.

(** The text of the array, its strings between the quotes [q]. *)
Definition text (q : ascii) (a : list element) : string :=
  "[" ++ items_text q a ++ "]".

Definition item_value (i : item) : pyval :=
  match i with
  | Str body => PyStr body
  | Int true ds => PyInt (- Reader.Z_of_digits 0 ds)
  | Int false ds => PyInt (Reader.Z_of_digits 0 ds)
  end.

(** The elements that the array denotes. *)
Definition values (a : list element) : list pyval :=
  map (fun e => item_value (value e)) a.

End Plain.

(** The index of the series is named after a recognized field that
    [reset_index] finds among the kept columns: a field that is a column,
    or [Adj Close] when lines 61-62 add it. *)
Definition index_clash (df : Frame (option Z)) : Prop :=
  In (Pd.index_label df) OHLCV /\
  (In (Pd.index_label df) (columns df) \/
   (Pd.index_label df = "Adj Close" /\ In "Close" (columns df))).

(** The sheet names of a workbook after writes under the given names: the
    writer keeps one sheet for each name, made at the first write under
    it; a later write under the same name goes to that sheet. *)
Fixpoint sheet_names (seen names : list string) : list string :=
  match names with
  | [] => []
  | n :: rest =>
      if existsb (String.eqb n) seen then sheet_names seen rest
      else n :: sheet_names (n :: seen) rest
  end.

(** The sheets of the finished workbook: those of the writes of the loop,
    then the sheet of the summary, written last under ["SUMMARY"]
    (line 134). *)
Definition workbook_sheets (acc : Accumulated) : list string :=
  sheet_names [] (map fst (writes acc) ++ ["SUMMARY"])%list.

(** Every element of the list is blank once coerced to a string. *)
Definition all_blank (items : list pyval) : Prop :=
  forall t, In t items -> Text.strip (Py.str t) = "".

Module Extra.

(** A series without adjusted close whose index is named [Adj Close]. *)
Definition index_named_adj_close : Frame (option Z) :=
  mkFrame (Some "Adj Close")
    ["Open"; "High"; "Low"; "Close"; "Volume"]
    [ (Some 20240101%Z, [Num 1; Num 1; Num 1; Num 1; Num 10]) ].

(** The column of dividends that the provider adds to a series. *)
Definition dividends (cells : list cell) : cell := Num 0.

End Extra.

(** * Properties *)

(** ** Facts about the string methods *)

Section TextFacts.

Lemma substring_append_right (p s : string) :
  substring (String.length p) (String.length s) (p ++ s) = s.
Proof.
  induction p as [|c p IH]; simpl.
  - induction s as [|c s IH]; simpl; [reflexivity|].
    now rewrite IH.
  - exact IH.
Qed.

Lemma length_append (p s : string) : String.length (p ++ s) = String.length p + String.length s.
Proof. induction p as [|c p IH]; simpl; [reflexivity | now rewrite IH]. Qed.

Lemma substring_split (n : nat) (t : string) :
  n <= String.length t ->
  t = substring 0 n t ++ substring n (String.length t - n) t.
Proof.
  revert t; induction n as [|n IH]; intros t Hn.
  - simpl. rewrite Nat.sub_0_r.
    destruct t; simpl; [reflexivity|].
    f_equal. clear Hn. induction t as [|c t IHt]; simpl; [reflexivity|].
    now rewrite <- IHt.
  - destruct t as [|c t]; simpl in *; [lia|].
    f_equal. apply IH. lia.
Qed.

Lemma endswith_append (p s : string) : Text.endswith (p ++ s) s = true.
Proof.
  unfold Text.endswith. rewrite length_append.
  apply andb_true_intro; split.
  - apply Nat.leb_le. lia.
  - replace (String.length p + String.length s - String.length s) with (String.length p) by lia.
    rewrite substring_append_right. apply String.eqb_refl.
Qed.

Lemma endswith_spec (t s : string) :
  Text.endswith t s = true <-> exists p, t = p ++ s.
Proof.
  split.
  - unfold Text.endswith. intros H.
    apply andb_prop in H as [Hlen Heq].
    apply Nat.leb_le in Hlen. apply String.eqb_eq in Heq.
    exists (substring 0 (String.length t - String.length s) t).
    rewrite (substring_split (String.length t - String.length s) t) at 1 by lia.
    f_equal. rewrite <- Heq at 3. f_equal. lia.
  - intros [p ->]. apply endswith_append.
Qed.

Lemma nonempty_spec (s : string) : Text.nonempty s = true <-> s <> "".
Proof. destruct s; simpl; split; congruence. Qed.

Lemma append_empty_r (s : string) : s ++ "" = s.
Proof. induction s as [|c s IH]; simpl; [reflexivity | now rewrite IH]. Qed.

Lemma append_same_inv (t s : string) : t = t ++ s -> s = "".
Proof.
  intros H. apply (f_equal String.length) in H.
  rewrite length_append in H.
  destruct s; [reflexivity | simpl in H; lia].
Qed.

End TextFacts.

(** ** SymbolMapper: properties *)

Lemma to_yf_symbol_identity (t : string) : to_yf_symbol t = t.
Proof. reflexivity. Qed.

(** C9. [to_yf_symbol] is a total function of the ticker and the suffix: it
    appends the suffix exactly when the suffix is non-empty and the ticker
    does not already end with it, returns the ticker unchanged otherwise,
    and applying it twice gives the same symbol as applying it once. *)
Theorem to_yf_symbol_appends_once (s t : string) :
  (s <> "" /\ ~ (exists p, t = p ++ s) -> to_yf_symbol_for s t = t ++ s) /\
  (s = "" \/ (exists p, t = p ++ s) -> to_yf_symbol_for s t = t) /\
  (to_yf_symbol_for s t = t ++ s /\ s <> "" <->
     s <> "" /\ ~ (exists p, t = p ++ s)) /\
  to_yf_symbol_for s (to_yf_symbol_for s t) = to_yf_symbol_for s t.
Proof.
  unfold to_yf_symbol_for.
  destruct (Text.nonempty s) eqn:Hs; simpl.
  - apply nonempty_spec in Hs.
    destruct (Text.endswith t s) eqn:He; simpl.
    + rewrite He. simpl. apply endswith_spec in He.
      split; [tauto|]. split; [reflexivity|]. split; [|reflexivity].
      split; [|tauto].
      intros [Ht _]. apply append_same_inv in Ht. tauto.
    + assert (Hn : ~ exists p, t = p ++ s).
      { intros H. apply endswith_spec in H. congruence. }
      rewrite endswith_append. simpl.
      split; [reflexivity|]. split; [|split; [tauto | reflexivity]].
      intros [Hs'|He']; [congruence | tauto].
  - assert (Hs' : s = "") by (destruct s; [reflexivity | discriminate]).
    split; [tauto|]. split; [reflexivity|]. split; [tauto | reflexivity].
Qed.

(** ** Facts about frames *)

Section FrameFacts.

Lemma has_column_In {L : Type} (c : string) (df : Frame L) :
  Pd.has_column c df = true <-> In c (columns df).
Proof.
  unfold Pd.has_column. rewrite existsb_exists. split.
  - intros [x [Hx He]]. apply String.eqb_eq in He. now subst.
  - intros H. exists c. split; [exact H | apply String.eqb_refl].
Qed.

Lemma has_column_false {L : Type} (c : string) (df : Frame L) :
  Pd.has_column c df = false <-> ~ In c (columns df).
Proof.
  rewrite <- has_column_In. destruct (Pd.has_column c df); split; congruence.
Qed.

Lemma position_absent (c : string) (cols : list string) :
  ~ In c cols -> Pd.position c cols = None.
Proof.
  induction cols as [|x cols IH]; simpl; intros H; [reflexivity|].
  destruct (x =? c)%string eqn:E.
  - apply String.eqb_eq in E. tauto.
  - rewrite IH by tauto. reflexivity.
Qed.

Lemma cell_at_absent (cols : list string) (cells : list cell) (c : string) :
  ~ In c cols -> Pd.cell_at cols cells c = NA.
Proof. intros H. unfold Pd.cell_at. now rewrite position_absent. Qed.

Lemma cell_at_cons (x : string) (cols : list string) (d : cell)
  (cells : list cell) (c : string) :
  Pd.cell_at (x :: cols) (d :: cells) c =
  if (x =? c)%string then d else Pd.cell_at cols cells c.
Proof.
  unfold Pd.cell_at. simpl.
  destruct (x =? c)%string; [reflexivity|].
  destruct (Pd.position c cols); reflexivity.
Qed.

Lemma cell_at_map (f : string -> cell) (cols : list string) (c : string) :
  In c cols -> Pd.cell_at cols (map f cols) c = f c.
Proof.
  induction cols as [|x cols IH]; simpl; [tauto|].
  intros H. rewrite cell_at_cons.
  destruct (x =? c)%string eqn:E.
  - apply String.eqb_eq in E. now subst.
  - apply IH. destruct H as [->|H]; [|exact H].
    rewrite String.eqb_refl in E. discriminate.
Qed.

Lemma cell_at_snoc (cols : list string) (cells : list cell) (c : string)
  (v : cell) (c' : string) :
  List.length cells = List.length cols ->
  Pd.cell_at (cols ++ [c]) (cells ++ [v]) c' =
  if existsb (String.eqb c') cols then Pd.cell_at cols cells c'
  else if (c =? c')%string then v else NA.
Proof.
  revert cells. induction cols as [|x cols IH]; intros [|d cells] Hlen;
    simpl in Hlen; try discriminate.
  - simpl. rewrite cell_at_cons. reflexivity.
  - simpl. rewrite !cell_at_cons, (String.eqb_sym c' x).
    destruct (x =? c')%string; simpl; [reflexivity|].
    apply IH. now injection Hlen.
Qed.

Lemma cell_at_snoc_NA (cols : list string) (cells : list cell)
  (c c' : string) :
  List.length cells = List.length cols ->
  Pd.cell_at (cols ++ [c]) (cells ++ [NA]) c' = Pd.cell_at cols cells c'.
Proof.
  intros Hlen. rewrite cell_at_snoc by exact Hlen.
  destruct (existsb (String.eqb c') cols) eqn:E; [reflexivity|].
  assert (Hc : ~ In c' cols).
  { intros H. apply (has_column_In c' (mkFrame (@None string) cols
      (@nil (unit * list cell)))) in H. unfold Pd.has_column in H. simpl in H.
    congruence. }
  rewrite cell_at_absent by exact Hc. now destruct (c =? c')%string.
Qed.

Lemma aligned_assign_new {L : Type} (c : string) (value : list cell -> cell)
  (df : Frame L) :
  aligned df -> aligned (Pd.assign_new c value df).
Proof.
  unfold aligned, Pd.assign_new. simpl. intros H.
  apply Forall_forall. intros r Hr.
  apply in_map_iff in Hr as [r0 [<- Hr0]]. simpl.
  rewrite Forall_forall in H. rewrite !length_app, (H r0 Hr0). reflexivity.
Qed.

Lemma select_assign_NA {L : Type} (labels : list string) (c : string)
  (df : Frame L) :
  aligned df ->
  Pd.select labels (Pd.assign_new c (fun _ => NA) df) = Pd.select labels df.
Proof.
  unfold aligned, Pd.select, Pd.assign_new. simpl. intros H.
  f_equal. rewrite map_map. apply map_ext_in. intros r Hr. simpl.
  f_equal. apply map_ext. intros c'. apply cell_at_snoc_NA.
  rewrite Forall_forall in H. exact (H r Hr).
Qed.

Lemma fill_select {L : Type} (labels l : list string) (df : Frame L) :
  aligned df ->
  Pd.select labels
    (fold_left
       (fun acc col =>
          if Pd.has_column col acc then acc
          else Pd.assign_new col (fun _ => NA) acc) l df) =
  Pd.select labels df.
Proof.
  revert df. induction l as [|col l IH]; intros df Hdf; simpl;
    [reflexivity|].
  destruct (Pd.has_column col df).
  - now apply IH.
  - rewrite IH by now apply aligned_assign_new.
    now apply select_assign_NA.
Qed.

Lemma filter_map_swap {A B : Type} (p : B -> bool) (f : A -> B)
  (l : list A) :
  filter p (map f l) = map f (filter (fun x => p (f x)) l).
Proof.
  induction l as [|x l IH]; simpl; [reflexivity|].
  destruct (p (f x)); simpl; now rewrite IH.
Qed.

Lemma existsb_map {A B : Type} (p : B -> bool) (f : A -> B) (l : list A) :
  existsb p (map f l) = existsb (fun x => p (f x)) l.
Proof. induction l as [|x l IH]; simpl; [reflexivity | now rewrite IH]. Qed.

Lemma forallb_filter_implies {A : Type} (p q : A -> bool) (l : list A) :
  negb (existsb q (filter p l)) = forallb (fun x => negb (p x) || negb (q x)) l.
Proof.
  induction l as [|x l IH]; simpl; [reflexivity|].
  destruct (p x); simpl; [rewrite negb_orb|]; now rewrite IH.
Qed.

(** Sorting rearranges the rows and nothing else. *)
Lemma insert_row_perm {L : Type} (key : list cell -> cell)
  (r : L * list cell) (l : list (L * list cell)) :
  Permutation (Pd.insert_row key r l) (r :: l).
Proof.
  induction l as [|x l IH]; simpl; [reflexivity|].
  destruct (Pd.key_le (key (snd r)) (key (snd x))); [reflexivity|].
  rewrite IH. apply perm_swap.
Qed.

Lemma sort_rows_perm {L : Type} (key : list cell -> cell)
  (l : list (L * list cell)) :
  Permutation (Pd.sort_rows key l) l.
Proof.
  induction l as [|x l IH]; simpl; [reflexivity|].
  unfold Pd.sort_rows in *. simpl.
  rewrite insert_row_perm. now constructor.
Qed.

Lemma sort_rows_In {L : Type} (key : list cell -> cell)
  (l : list (L * list cell)) (r : L * list cell) :
  In r (Pd.sort_rows key l) <-> In r l.
Proof.
  split; apply Permutation_in;
    [apply sort_rows_perm | apply Permutation_sym, sort_rows_perm].
Qed.

(** The projection of a group in terms of the columns alone. *)
Lemma pick_filter {A : Type} (p : A -> bool) (l : list A) :
  Pd.pick (map p l) l = filter p l.
Proof.
  induction l as [|x l IH]; simpl; [reflexivity|].
  destruct (p x); now rewrite IH.
Qed.

Lemma pick_combine {A B : Type} (p : A -> bool) (l : list A) (cells : list B) :
  Pd.pick (map p l) cells =
  map snd (filter (fun x => p (fst x)) (combine l cells)).
Proof.
  revert cells. induction l as [|x l IH]; intros [|d cells]; simpl;
    try reflexivity.
  - now destruct (p x).
  - destruct (p x); simpl; now rewrite IH.
Qed.

End FrameFacts.

(** ** BulkSeriesSlicer: properties *)

(** C10. On a non-empty response with single-level columns the slicer
    returns the whole table for every symbol, also one that occurs nowhere
    in the response: the result does not depend on the symbol and is never
    [None]. *)
Theorem slice_flat_ignores_symbol (f : Frame (option Z)) (sym : string) :
  Pd.empty f = false ->
  _slice_ticker_from_download (Some (Flat f)) sym = Some f /\
  (forall sym' : string,
      _slice_ticker_from_download (Some (Flat f)) sym' =
      _slice_ticker_from_download (Some (Flat f)) sym).
Proof.
  intros H. simpl. rewrite H. split; reflexivity.
Qed.

Lemma slice_flat_ignores_symbol_witness :
  Pd.empty (Examples.no_adj_close 20240101) = false /\
  _slice_ticker_from_download
    (Some (Flat (Examples.no_adj_close 20240101))) "ZZZ" =
  Some (Examples.no_adj_close 20240101).
Proof.
  split; [reflexivity|].
  apply (slice_flat_ignores_symbol (Examples.no_adj_close 20240101) "ZZZ").
  reflexivity.
Defined.

(** A flat response that has rows but no column is [empty] for pandas: the
    slicer answers [None], not the table. *)
Lemma slice_flat_without_columns :
  rows Examples.no_columns <> [] /\
  _slice_ticker_from_download (Some (Flat Examples.no_columns)) "AAA" = None /\
  ~ (forall (f : Frame (option Z)) (sym : string),
        rows f <> [] ->
        _slice_ticker_from_download (Some (Flat f)) sym = Some f).
Proof.
  split; [discriminate|]. split; [reflexivity|].
  intros H. specialize (H Examples.no_columns "AAA"). simpl in H.
  assert (E : @None (Frame (option Z)) = Some Examples.no_columns)
    by (apply H; discriminate).
  discriminate E.
Qed.

Lemma in_level0_In (sym : string) (m : MultiFrame) :
  Pd.in_level0 sym m = true <-> In sym (map fst (m_columns m)).
Proof.
  unfold Pd.in_level0. rewrite existsb_exists, in_map_iff. split.
  - intros [x [Hx He]]. apply String.eqb_eq in He. now exists x.
  - intros [x [He Hx]]. exists x. split; [exact Hx|].
    now apply String.eqb_eq.
Qed.

Lemma in_level1_In (sym : string) (m : MultiFrame) :
  Pd.in_level1 sym m = true <-> In sym (map snd (m_columns m)).
Proof.
  unfold Pd.in_level1. rewrite existsb_exists, in_map_iff. split.
  - intros [x [Hx He]]. apply String.eqb_eq in He. now exists x.
  - intros [x [He Hx]]. exists x. split; [exact Hx|].
    now apply String.eqb_eq.
Qed.

Lemma getitem_group_shape (m : MultiFrame) (sym : string) :
  columns (Pd.getitem_group m sym) =
    map snd (filter (fun c => (fst c =? sym)%string) (m_columns m)) /\
  map fst (rows (Pd.getitem_group m sym)) = map fst (m_rows m) /\
  map snd (rows (Pd.getitem_group m sym)) =
    map (fun r => map snd (filter (fun x => (fst (fst x) =? sym)%string)
                             (combine (m_columns m) (snd r)))) (m_rows m).
Proof.
  unfold Pd.getitem_group. simpl. rewrite pick_filter, !map_map. simpl.
  repeat split. apply map_ext. intros r.
  apply (pick_combine (fun c : string * string => (fst c =? sym)%string)).
Qed.

Lemma xs_level1_shape (m : MultiFrame) (sym : string) :
  columns (Pd.xs_level1 m sym) =
    map fst (filter (fun c => (snd c =? sym)%string) (m_columns m)) /\
  map fst (rows (Pd.xs_level1 m sym)) = map fst (m_rows m) /\
  map snd (rows (Pd.xs_level1 m sym)) =
    map (fun r => map snd (filter (fun x => (snd (fst x) =? sym)%string)
                             (combine (m_columns m) (snd r)))) (m_rows m).
Proof.
  unfold Pd.xs_level1. simpl. rewrite pick_filter, !map_map. simpl.
  repeat split. apply map_ext. intros r.
  apply (pick_combine (fun c : string * string => (snd c =? sym)%string)).
Qed.

(** C6, amended. The slicer is total and applies its policy in order: no
    response or an empty one (no row or no column) gives [None]; a
    non-empty response with single-level columns is returned whole; with
    two-level columns the top-level group of the symbol is projected when
    the symbol is a top-level label, else the cross-section of the second
    level when the symbol is a second-level label, else [None]. *)
Theorem slice_policy_in_order (df : option DataFrame) (sym : string) :
  match df with
  | None => _slice_ticker_from_download df sym = None
  | Some (Flat f) =>
      (Pd.empty f = true -> _slice_ticker_from_download df sym = None) /\
      (Pd.empty f = false -> _slice_ticker_from_download df sym = Some f)
  | Some (Multi m) =>
      (Pd.m_empty m = true -> _slice_ticker_from_download df sym = None) /\
      (Pd.m_empty m = false ->
       (In sym (map fst (m_columns m)) ->
        _slice_ticker_from_download df sym = Some (Pd.getitem_group m sym)) /\
       (~ In sym (map fst (m_columns m)) ->
        In sym (map snd (m_columns m)) ->
        _slice_ticker_from_download df sym = Some (Pd.xs_level1 m sym)) /\
       (~ In sym (map fst (m_columns m)) ->
        ~ In sym (map snd (m_columns m)) ->
        _slice_ticker_from_download df sym = None))
  end.
Proof.
  destruct df as [[f|m]|]; simpl; [| |reflexivity].
  - split; intros ->; reflexivity.
  - split; intros ->; [reflexivity|].
    destruct (Pd.in_level0 sym m) eqn:E0.
    + apply in_level0_In in E0. repeat split; tauto.
    + assert (N0 : ~ In sym (map fst (m_columns m))).
      { intros H. apply in_level0_In in H. congruence. }
      destruct (Pd.in_level1 sym m) eqn:E1.
      * apply in_level1_In in E1. repeat split; tauto.
      * assert (N1 : ~ In sym (map snd (m_columns m))).
        { intros H. apply in_level1_In in H. congruence. }
        repeat split; tauto.
Qed.

(** ** OhlcvNormalizer: the rows it emits *)

Section NormalizerFacts.

Variable df : Frame (option Z).

Lemma with_adj_close_rows :
  rows (with_adj_close df) =
  map (fun r => (fst r, adj_cells df (snd r))) (rows df).
Proof.
  unfold with_adj_close, adj_cells.
  destruct (negb (Pd.has_column "Adj Close" df) && Pd.has_column "Close" df).
  - reflexivity.
  - rewrite <- (map_id (rows df)) at 1. apply map_ext. now intros [l cs].
Qed.

Lemma with_adj_close_cell (cells : list cell) (c : string) :
  List.length cells = List.length (columns df) ->
  Pd.cell_at (columns (with_adj_close df)) (adj_cells df cells) c =
  if (c =? "Adj Close")%string then adjusted df cells else field df cells c.
Proof.
  intros Hlen. unfold with_adj_close, adj_cells, adjusted, field.
  destruct (Pd.has_column "Adj Close" df) eqn:Ha;
    destruct (Pd.has_column "Close" df) eqn:Hc; simpl.
  - destruct (c =? "Adj Close")%string eqn:E; [|reflexivity].
    apply String.eqb_eq in E. now subst.
  - destruct (c =? "Adj Close")%string eqn:E; [|reflexivity].
    apply String.eqb_eq in E. now subst.
  - rewrite cell_at_snoc by exact Hlen.
    destruct (c =? "Adj Close")%string eqn:E.
    + apply String.eqb_eq in E. subst c.
      unfold Pd.has_column in Ha. rewrite Ha. reflexivity.
    + rewrite String.eqb_sym, E.
      destruct (existsb (String.eqb c) (columns df)) eqn:Ex; [reflexivity|].
      symmetry. apply cell_at_absent.
      apply (has_column_false c df). exact Ex.
  - destruct (c =? "Adj Close")%string eqn:E; [|reflexivity].
    apply String.eqb_eq in E. subst c.
    rewrite !cell_at_absent; [reflexivity | |];
      now apply has_column_false.
Qed.

Lemma with_adj_close_has (c : string) :
  Pd.has_column c (with_adj_close df) =
  Pd.has_column c df
  || ((c =? "Adj Close")%string && Pd.has_column "Close" df).
Proof.
  unfold with_adj_close.
  destruct (Pd.has_column "Adj Close" df) eqn:Ha;
    destruct (Pd.has_column "Close" df) eqn:Hc; simpl.
  - now rewrite andb_true_r, orb_comm, <- (orb_comm (Pd.has_column c df));
      destruct (c =? "Adj Close")%string eqn:E;
      [apply String.eqb_eq in E; subst; rewrite Ha | rewrite orb_false_r].
  - now rewrite andb_false_r, orb_false_r.
  - unfold Pd.has_column, Pd.assign_new. simpl.
    rewrite existsb_app. simpl. now rewrite orb_false_r, andb_true_r.
  - now rewrite andb_false_r, orb_false_r.
Qed.

(** A recognized field reads the same through the kept columns. *)
Lemma kept_cell (cells : list cell) (c : string) :
  let df1 := with_adj_close df in
  Pd.cell_at (keep df1)
    (map (Pd.cell_at (columns df1) cells) (keep df1)) c =
  if existsb (String.eqb c) OHLCV then Pd.cell_at (columns df1) cells c
  else NA.
Proof.
  intros df1.
  destruct (existsb (String.eqb c) OHLCV) eqn:Ec.
  - destruct (Pd.has_column c df1) eqn:Hc.
    + apply cell_at_map. unfold keep. apply filter_In. split; [|exact Hc].
      apply existsb_exists in Ec as [x [Hx E]].
      apply String.eqb_eq in E. now subst.
    + rewrite cell_at_absent.
      * symmetry. apply cell_at_absent. now apply has_column_false.
      * unfold keep. rewrite filter_In. intros [_ H]. congruence.
  - apply cell_at_absent. unfold keep. rewrite filter_In. intros [H _].
    assert (existsb (String.eqb c) OHLCV = true); [|congruence].
    apply existsb_exists. exists c. split; [exact H | apply String.eqb_refl].
Qed.

End NormalizerFacts.

(** [dropna] keeps exactly the complete rows. *)
Lemma complete_dropna (df : Frame (option Z)) (cells : list cell) :
  List.length cells = List.length (columns df) ->
  negb (existsb Pd.isna
          (map (Pd.cell_at (columns (with_adj_close df)) (adj_cells df cells))
               (keep (with_adj_close df)))) =
  complete df cells.
Proof.
  intros Hlen. unfold keep. rewrite existsb_map.
  rewrite (forallb_filter_implies
             (fun c => Pd.has_column c (with_adj_close df))).
  unfold complete, OHLCV. simpl.
  rewrite !with_adj_close_cell by exact Hlen.
  rewrite !with_adj_close_has. simpl.
  unfold adjusted. rewrite !orb_false_r.
  destruct (Pd.has_column "Adj Close" df);
    destruct (Pd.has_column "Close" df); simpl; try reflexivity.
  destruct (Pd.isna (field df cells "Close")); reflexivity.
Qed.
Lemma recognized_not_date (name c : string) :
  (Text.lower name =? "date")%string = true ->
  In c OHLCV -> (name =? c)%string = false.
Proof.
  intros Hn Hc. apply String.eqb_neq. intros ->.
  unfold OHLCV in Hc. simpl in Hc.
  repeat (destruct Hc as [<-|Hc]; [discriminate Hn|]). exact Hc.
Qed.

Lemma rename_absent (old new : string) (l : list string) :
  ~ In old l -> map (fun c => if (c =? old)%string then new else c) l = l.
Proof.
  intros H. rewrite <- (map_id l) at 2. apply map_ext_in.
  intros c Hc. destruct (c =? old)%string eqn:E; [|reflexivity].
  apply String.eqb_eq in E. subst. tauto.
Qed.

Lemma canonical_cells (df : Frame (option Z)) (l : option Z)
  (cells : list cell) (rs : list (unit * list cell)) :
  List.length cells = List.length (columns df) ->
  let df1 := with_adj_close df in
  let name := Pd.index_label df in
  ~ In name (keep df1) ->
  (tt, map (Pd.cell_at
         (columns (name_date (mkFrame None (name :: keep df1) rs)))
         (Pd.label_cell l ::
            map (Pd.cell_at (columns df1) (adj_cells df cells)) (keep df1)))
      COLS) = canonical df (l, cells).
Proof.
  intros Hlen df1 name Hname. subst df1.
  unfold canonical, name_date, date_kept. simpl hd. fold name.
  destruct (Text.lower name =? "date")%string eqn:Hlow; simpl negb; cbv iota.
  - simpl columns. unfold COLS. simpl map.
    rewrite !cell_at_cons.
    rewrite (recognized_not_date name "Open"),
      (recognized_not_date name "High"), (recognized_not_date name "Low"),
      (recognized_not_date name "Close"),
      (recognized_not_date name "Adj Close"),
      (recognized_not_date name "Volume")
      by (exact Hlow || (simpl; auto 10)).
    rewrite !kept_cell. simpl existsb. cbv iota.
    rewrite !with_adj_close_cell by exact Hlen. simpl.
    destruct (name =? "Date")%string; reflexivity.
  - unfold Pd.rename. simpl columns. rewrite String.eqb_refl.
    rewrite rename_absent by exact Hname.
    unfold COLS. simpl map. rewrite !cell_at_cons. simpl.
    rewrite !kept_cell. simpl existsb. cbv iota.
    rewrite !with_adj_close_cell by exact Hlen. simpl.
    reflexivity.
Qed.

Lemma aligned_name_date (name : string) (K : list string)
  (rs : list (option Z * list cell)) :
  Forall (fun r => List.length (snd r) = List.length K) rs ->
  aligned (name_date (mkFrame None (name :: K)
             (map (fun r => (tt, Pd.label_cell (fst r) :: snd r)) rs))).
Proof.
  intros H. unfold aligned, name_date. simpl hd.
  destruct (negb (Text.lower name =? "date")%string); simpl;
    apply Forall_forall; intros r Hr;
    apply in_map_iff in Hr as [r0 [<- Hr0]]; simpl;
    rewrite ?length_map; f_equal;
    rewrite Forall_forall in H; exact (H r0 Hr0).
Qed.

Lemma name_date_rows (f : Frame unit) : rows (name_date f) = rows f.
Proof. unfold name_date. now destruct (negb _). Qed.

Lemma name_date_index (f : Frame unit) :
  index_name (name_date f) = index_name f.
Proof. unfold name_date. now destruct (negb _). Qed.

Lemma name_date_columns (f : Frame unit) (rs : list (unit * list cell)) :
  columns (name_date f) =
  columns (name_date (mkFrame None (columns f) rs)).
Proof. unfold name_date. simpl. now destruct (negb _). Qed.

(** The frame that [normalize_ohlcv] returns: the canonical rows of the
    complete rows of the series, in the order of their dates. *)
Lemma normalize_ohlcv_spec (df : Frame (option Z)) (out : Frame unit) :
  well_formed df ->
  normalize_ohlcv df = Ok out ->
  out = mkFrame None COLS
          (Pd.sort_rows date_key
             (map (canonical df)
                  (filter (fun r => complete df (snd r)) (rows df)))).
Proof.
  intros [_ Hal]. unfold normalize_ohlcv, Pd.reset_index.
  set (df1 := with_adj_close df).
  set (df2 := Pd.dropna (Pd.select (keep df1) df1)).
  assert (Hlabel : Pd.index_label df2 = Pd.index_label df).
  { unfold df2, df1, with_adj_close, Pd.index_label. simpl.
    now destruct (negb _ && _). }
  rewrite Hlabel.
  destruct (Pd.has_column (Pd.index_label df) df2) eqn:Hname;
    [discriminate|].
  apply has_column_false in Hname. simpl in Hname.
  simpl bind. intros [= <-].
  change (Pd.has_column "Date" (Pd.select COLS ?f)) with true. cbv iota.
  unfold fill_missing. rewrite fill_select.
  2:{ apply aligned_name_date. unfold df2. simpl.
      apply Forall_forall. intros r Hr. apply filter_In in Hr as [Hr _].
      apply in_map_iff in Hr as [r0 [<- _]]. simpl. apply length_map. }
  unfold Pd.sort_values, Pd.select. cbn [index_name columns rows].
  rewrite name_date_index, name_date_rows. cbn [index_name columns rows].
  f_equal.
  change (fun cells => Pd.cell_at COLS cells "Date") with date_key.
  f_equal. rewrite map_map. cbn [fst snd].
  unfold df2, Pd.dropna, Pd.select. cbn [index_name columns rows].
  rewrite filter_map_swap, map_map. cbn [fst snd].
  replace (rows df1) with
    (map (fun r => (fst r, adj_cells df (snd r))) (rows df))
    by (symmetry; apply with_adj_close_rows).
  rewrite filter_map_swap, map_map. cbn [fst snd].
  rewrite (filter_ext_in _ (fun r => complete df (snd r))).
  2:{ intros r Hr. apply complete_dropna.
      rewrite Forall_forall in Hal. exact (Hal r Hr). }
  apply map_ext_in. intros [l cells] Hr. apply filter_In in Hr as [Hr _].
  cbn [fst snd]. apply canonical_cells; [|exact Hname].
  rewrite Forall_forall in Hal. exact (Hal _ Hr).
Qed.

Lemma keep_recognized (df : Frame (option Z)) (c : string) :
  In c (keep df) -> In c OHLCV.
Proof. unfold keep. rewrite filter_In. tauto. Qed.

(** Normalization fails only when the index is named after a kept field. *)
Lemma normalize_ohlcv_returns (df : Frame (option Z)) :
  ~ In (Pd.index_label df) OHLCV ->
  exists out, normalize_ohlcv df = Ok out.
Proof.
  intros H. unfold normalize_ohlcv, Pd.reset_index.
  set (df2 := Pd.dropna (Pd.select (keep (with_adj_close df))
                           (with_adj_close df))).
  assert (Hlabel : Pd.index_label df2 = Pd.index_label df).
  { unfold df2, with_adj_close, Pd.index_label. simpl.
    now destruct (negb _ && _). }
  rewrite Hlabel.
  destruct (Pd.has_column (Pd.index_label df) df2) eqn:Hname.
  - apply has_column_In in Hname. simpl in Hname.
    apply keep_recognized in Hname. tauto.
  - simpl. eexists. reflexivity.
Qed.

Lemma isna_false (c : cell) : Pd.isna c = false <-> c <> NA.
Proof. destruct c; simpl; split; congruence. Qed.

Lemma complete_field (df : Frame (option Z)) (cells : list cell) (c : string) :
  complete df cells = true -> In c OHLCV -> Pd.has_column c df = true ->
  field df cells c <> NA.
Proof.
  unfold complete. rewrite forallb_forall. intros H Hc Hhas.
  specialize (H c Hc). rewrite Hhas in H. simpl in H.
  apply isna_false. now destruct (Pd.isna (field df cells c)).
Qed.

Lemma canonical_field (df : Frame (option Z)) (r0 : option Z * list cell)
  (c : string) :
  In c OHLCV ->
  Pd.cell_at COLS (snd (canonical df r0)) c =
  if (c =? "Adj Close")%string then adjusted df (snd r0)
  else field df (snd r0) c.
Proof.
  unfold OHLCV. simpl.
  intros H. repeat (destruct H as [<-|H]; [reflexivity|]). tauto.
Qed.

Lemma normalize_ohlcv_rows (df : Frame (option Z)) (out : Frame unit) :
  well_formed df ->
  normalize_ohlcv df = Ok out ->
  forall r, In r (rows out) <->
            exists r0, In r0 (rows df) /\ complete df (snd r0) = true /\
                       r = canonical df r0.
Proof.
  intros Hwf Hout r. rewrite (normalize_ohlcv_spec df out Hwf Hout).
  cbn [rows]. rewrite sort_rows_In, in_map_iff. split.
  - intros [r0 [<- Hr0]]. apply filter_In in Hr0. exists r0. tauto.
  - intros [r0 [Hr0 [Hc ->]]]. exists r0. split; [reflexivity|].
    apply filter_In. tauto.
Qed.

Lemma well_formed_two_rows : well_formed Examples.two_rows.
Proof.
  split; simpl.
  - repeat constructor; simpl; intuition discriminate.
  - repeat constructor.
Qed.

(** The series with a column missing altogether: its rows come out with a
    null [Volume]. *)
Lemma normalize_ohlcv_null_placeholder :
  well_formed Examples.no_volume /\
  normalize_ohlcv Examples.no_volume =
    Ok (mkFrame None COLS
          [(tt, [Stamp 20240101; Num 10; Num 11; Num 9; Num (21 # 2);
                 Num (21 # 2); NA])]) /\
  ~ (forall (df : Frame (option Z)) (out : Frame unit),
        well_formed df -> normalize_ohlcv df = Ok out ->
        forall r, In r (rows out) -> no_null (snd r)).
Proof.
  assert (Hwf : well_formed Examples.no_volume).
  { split; simpl.
    - repeat constructor; simpl; intuition discriminate.
    - repeat constructor. }
  split; [exact Hwf|]. split; [reflexivity|].
  intros H.
  specialize (H Examples.no_volume _ Hwf eq_refl _ (or_introl eq_refl)).
  unfold no_null in H. vm_compute in H.
  rewrite Forall_forall in H. apply (H NA); simpl; auto 10.
Qed.

(** C1, amended. The frame returned for a well-formed series has the seven
    canonical columns; its rows are exactly the canonical forms of the
    input rows that have a value in every recognized field the series has
    (the others are dropped, none is completed with a default); every
    emitted row has a value in each kept field, Adj Close being read from
    Close when the series has no such column; a recognized field that the
    series lacks altogether is a null placeholder in every row.  When the
    series has the five OHLCV columns, a date index that becomes the Date
    column and no missing index label, no emitted row has a null field.
    The series with one full row and one row without Low gives the full
    row alone. *)
Theorem normalize_ohlcv_keeps_complete_rows
  (df : Frame (option Z)) (out : Frame unit) :
  well_formed df ->
  normalize_ohlcv df = Ok out ->
  columns out = COLS /\
  (forall r, In r (rows out) <->
             exists r0, In r0 (rows df) /\ complete df (snd r0) = true /\
                        r = canonical df r0) /\
  (forall r c, In r (rows out) -> In c OHLCV ->
               Pd.has_column c (with_adj_close df) = true ->
               Pd.cell_at COLS (snd r) c <> NA) /\
  (forall r c, In r (rows out) -> In c OHLCV ->
               Pd.has_column c (with_adj_close df) = false ->
               Pd.cell_at COLS (snd r) c = NA) /\
  ((forall c, In c ["Open"; "High"; "Low"; "Close"; "Volume"] ->
              Pd.has_column c df = true) ->
   date_kept df = true ->
   (forall r0, In r0 (rows df) -> fst r0 <> None) ->
   forall r, In r (rows out) -> no_null (snd r)) /\
  normalize_ohlcv Examples.two_rows =
    Ok (mkFrame None COLS
          [(tt, [Stamp 20240101; Num 10; Num 11; Num 9; Num (21 # 2);
                 Num (41 # 4); Num 1000])]).
Proof.
  intros Hwf Hout.
  pose proof (normalize_ohlcv_rows df out Hwf Hout) as Hrows.
  split; [now rewrite (normalize_ohlcv_spec df out Hwf Hout)|].
  split; [exact Hrows|].
  split; [|split; [|split; [|reflexivity]]].
  - intros r c Hr Hc Hhas. apply Hrows in Hr as [r0 [Hr0 [Hcomp ->]]].
    rewrite canonical_field by exact Hc.
    rewrite with_adj_close_has in Hhas.
    destruct (c =? "Adj Close")%string eqn:E.
    + apply String.eqb_eq in E. subst c. unfold adjusted.
      destruct (Pd.has_column "Adj Close" df) eqn:Ha.
      * now apply complete_field.
      * simpl in Hhas. apply complete_field; [exact Hcomp | | exact Hhas].
        unfold OHLCV. simpl. auto 10.
    + rewrite andb_false_l, orb_false_r in Hhas.
      now apply complete_field.
  - intros r c Hr Hc Hhas. apply Hrows in Hr as [r0 [Hr0 [Hcomp ->]]].
    rewrite canonical_field by exact Hc.
    rewrite with_adj_close_has in Hhas.
    apply orb_false_elim in Hhas as [Hno Hsyn].
    destruct (c =? "Adj Close")%string eqn:E.
    + apply String.eqb_eq in E. subst c. unfold adjusted. rewrite Hno.
      simpl in Hsyn. apply cell_at_absent. now apply has_column_false.
    + apply cell_at_absent. now apply has_column_false.
  - intros Hall Hdate Hlab r Hr.
    apply Hrows in Hr as [r0 [Hr0 [Hcomp ->]]].
    unfold no_null, canonical. cbn [snd]. rewrite Hdate.
    assert (Hf : forall c, In c ["Open"; "High"; "Low"; "Close"; "Volume"] ->
                           field df (snd r0) c <> NA).
    { intros c Hc. apply complete_field; [exact Hcomp | | now apply Hall].
      unfold OHLCV. simpl in *. intuition. }
    repeat constructor; try (apply Hf; simpl; auto 10).
    + specialize (Hlab r0 Hr0). destruct (fst r0); simpl; congruence.
    + unfold adjusted. destruct (Pd.has_column "Adj Close" df) eqn:Ha.
      * apply complete_field; [exact Hcomp | | exact Ha].
        unfold OHLCV. simpl. auto 10.
      * apply Hf. simpl. auto 10.
Qed.

Lemma normalize_ohlcv_keeps_complete_rows_witness :
  well_formed Examples.two_rows /\
  normalize_ohlcv Examples.two_rows = Ok Examples.two_rows_out /\
  (forall r, In r (rows Examples.two_rows_out) -> no_null (snd r)).
Proof.
  split; [exact well_formed_two_rows|]. split; [reflexivity|].
  apply (proj1 (proj2 (proj2 (proj2 (proj2
           (normalize_ohlcv_keeps_complete_rows Examples.two_rows
              Examples.two_rows_out well_formed_two_rows eq_refl)))))).
  - intros c H. simpl in H.
    repeat (destruct H as [<-|H]; [reflexivity|]). destruct H.
  - reflexivity.
  - intros r0 H. simpl in H.
    repeat (destruct H as [<-|H]; [discriminate|]). destruct H.
Defined.

Lemma well_formed_no_adj_close (D : Z) :
  well_formed (Examples.no_adj_close D).
Proof.
  split; simpl.
  - repeat constructor; simpl; intuition discriminate.
  - repeat constructor.
Qed.

(** C7. For a series with a Close column and no Adj Close column, every
    emitted row carries under Adj Close the value it carries under Close,
    which is the Close of an input row; normalization returns whenever the
    index is not named after a recognized field; and the row
    [{Date: D, Open: 10, High: 11, Low: 9, Close: 10.5, Volume: 1000}]
    comes out with Adj Close 10.5. *)
Theorem normalize_ohlcv_synthesizes_adj_close (df : Frame (option Z)) :
  well_formed df ->
  Pd.has_column "Close" df = true ->
  Pd.has_column "Adj Close" df = false ->
  (forall out r,
      normalize_ohlcv df = Ok out -> In r (rows out) ->
      Pd.cell_at COLS (snd r) "Adj Close" = Pd.cell_at COLS (snd r) "Close" /\
      Pd.cell_at COLS (snd r) "Close" <> NA /\
      exists r0, In r0 (rows df) /\
                 Pd.cell_at COLS (snd r) "Close" = field df (snd r0) "Close") /\
  (~ In (Pd.index_label df) OHLCV -> exists out, normalize_ohlcv df = Ok out) /\
  (forall D : Z,
      normalize_ohlcv (Examples.no_adj_close D) =
      Ok (mkFrame None COLS
            [(tt, [Stamp D; Num 10; Num 11; Num 9; Num (21 # 2);
                   Num (21 # 2); Num 1000])])).
Proof.
  intros Hwf Hc Ha.
  split; [|split; [apply normalize_ohlcv_returns | reflexivity]].
  intros out r Hout Hr.
  apply (normalize_ohlcv_rows df out Hwf Hout) in Hr as [r0 [Hr0 [Hcomp ->]]].
  rewrite !canonical_field by (unfold OHLCV; simpl; auto 10). simpl.
  unfold adjusted. rewrite Ha.
  split; [reflexivity|]. split.
  - apply complete_field; [exact Hcomp | | exact Hc].
    unfold OHLCV. simpl. auto 10.
  - exists r0. split; [exact Hr0 | reflexivity].
Qed.

Lemma normalize_ohlcv_synthesizes_adj_close_witness :
  well_formed (Examples.no_adj_close 20240101) /\
  Pd.has_column "Close" (Examples.no_adj_close 20240101) = true /\
  Pd.has_column "Adj Close" (Examples.no_adj_close 20240101) = false /\
  normalize_ohlcv (Examples.no_adj_close 20240101) =
    Ok (mkFrame None COLS
          [(tt, [Stamp 20240101; Num 10; Num 11; Num 9; Num (21 # 2);
                 Num (21 # 2); Num 1000])]).
Proof.
  split; [apply well_formed_no_adj_close|].
  split; [reflexivity|]. split; [reflexivity|].
  apply (proj2 (proj2
           (normalize_ohlcv_synthesizes_adj_close
              (Examples.no_adj_close 20240101)
              (well_formed_no_adj_close 20240101) eq_refl eq_refl))).
Defined.

(** ** Facts about trimming and letter case *)

Section StripFacts.

Lemma isspace_upper_char (c : ascii) :
  Text.isspace (Text.upper_char c) = Text.isspace c.
Proof. destruct c as [[] [] [] [] [] [] [] []]; reflexivity. Qed.

Lemma isspace_double_quote (c : ascii) :
  Text.isspace (if Ascii.eqb c Py.squote then Py.dquote else c) =
  Text.isspace c.
Proof. destruct c as [[] [] [] [] [] [] [] []]; reflexivity. Qed.

Variable f : ascii -> ascii.
Hypothesis f_space : forall c, Text.isspace (f c) = Text.isspace c.

Lemma lstrip_map_chars (s : string) :
  Text.lstrip (Text.map_chars f s) = Text.map_chars f (Text.lstrip s).
Proof.
  induction s as [|c s IH]; simpl; [reflexivity|].
  rewrite f_space. now destruct (Text.isspace c).
Qed.

Lemma rstrip_map_chars (s : string) :
  Text.rstrip (Text.map_chars f s) = Text.map_chars f (Text.rstrip s).
Proof.
  induction s as [|c s IH]; simpl; [reflexivity|].
  rewrite IH, f_space.
  destruct (Text.rstrip s); simpl; [|reflexivity].
  now destruct (Text.isspace c).
Qed.

Lemma strip_map_chars (s : string) :
  Text.strip (Text.map_chars f s) = Text.map_chars f (Text.strip s).
Proof.
  unfold Text.strip. now rewrite lstrip_map_chars, rstrip_map_chars.
Qed.

End StripFacts.

Lemma strip_upper (s : string) :
  Text.strip (Text.upper s) = Text.upper (Text.strip s).
Proof. apply strip_map_chars, isspace_upper_char. Qed.

Lemma upper_nonempty (s : string) :
  Text.nonempty (Text.upper s) = Text.nonempty s.
Proof. now destruct s. Qed.

(** ** Facts about [sorted] and the set of strings *)

Section SortedFacts.

Lemma str_le_trans (a b c : string) : str_le a b -> str_le b c -> str_le a c.
Proof.
  unfold str_le, String.leb. intros Hab Hbc.
  destruct (String.compare a b) eqn:Eab; try discriminate.
  - apply String.compare_eq_iff in Eab. now subst.
  - destruct (String.compare b c) eqn:Ebc; try discriminate.
    + apply String.compare_eq_iff in Ebc. subst. now rewrite Eab.
    + apply String_as_OT.cmp_lt in Eab, Ebc.
      pose proof (String_as_OT.lt_trans _ _ _ Eab Ebc) as H.
      apply String_as_OT.cmp_lt in H. unfold String_as_OT.cmp in H.
      now rewrite H.
Qed.

Lemma str_le_neq_lt (a b : string) : str_le a b -> a <> b -> str_lt a b.
Proof.
  unfold str_le, str_lt, String.leb, String.ltb. intros H Hne.
  destruct (String.compare a b) eqn:E; try discriminate; [|reflexivity].
  apply String.compare_eq_iff in E. tauto.
Qed.

Lemma insert_In (x z : string) (l : list string) :
  In z (Py.insert x l) <-> z = x \/ In z l.
Proof.
  induction l as [|y l IH]; simpl; [intuition|].
  destruct (String.leb x y); simpl; [intuition|].
  rewrite IH. intuition.
Qed.

Lemma insert_perm (x : string) (l : list string) :
  Permutation (Py.insert x l) (x :: l).
Proof.
  induction l as [|y l IH]; simpl; [reflexivity|].
  destruct (String.leb x y); [reflexivity|].
  rewrite IH. apply perm_swap.
Qed.

Lemma insert_sorted (x : string) (l : list string) :
  StronglySorted str_le l -> StronglySorted str_le (Py.insert x l).
Proof.
  induction l as [|y l IH]; simpl; intros Hs.
  - constructor; constructor.
  - apply StronglySorted_inv in Hs as [Hl Hy].
    destruct (String.leb x y) eqn:E.
    + constructor; [now constructor|].
      constructor; [exact E|].
      apply Forall_forall. intros z Hz. rewrite Forall_forall in Hy.
      apply (str_le_trans x y z); [exact E | now apply Hy].
    + constructor; [now apply IH|].
      apply Forall_forall. intros z Hz. apply insert_In in Hz as [->|Hz].
      * destruct (String.leb_total x y) as [H|H]; [congruence | exact H].
      * rewrite Forall_forall in Hy. now apply Hy.
Qed.

Lemma sorted_perm (l : list string) : Permutation (Py.sorted l) l.
Proof.
  induction l as [|x l IH]; simpl; [reflexivity|].
  unfold Py.sorted in *. simpl. rewrite insert_perm. now constructor.
Qed.

Lemma sorted_In (s : string) (l : list string) :
  In s (Py.sorted l) <-> In s l.
Proof.
  split; apply Permutation_in;
    [apply sorted_perm | apply Permutation_sym, sorted_perm].
Qed.

Lemma sorted_ascending (l : list string) : StronglySorted str_le (Py.sorted l).
Proof.
  induction l as [|x l IH]; simpl; [constructor|].
  unfold Py.sorted in *. simpl. now apply insert_sorted.
Qed.

Lemma strictly_ascending (l : list string) :
  StronglySorted str_le l -> NoDup l -> StronglySorted str_lt l.
Proof.
  induction l as [|x l IH]; intros Hs Hn; [constructor|].
  apply StronglySorted_inv in Hs as [Hl Hx].
  apply NoDup_cons_iff in Hn as [Hx' Hn].
  constructor; [now apply IH|].
  apply Forall_forall. intros z Hz. rewrite Forall_forall in Hx.
  apply str_le_neq_lt; [now apply Hx|]. intros ->. tauto.
Qed.

(** The strictly ascending list with given members is unique. *)
Lemma str_lt_irrefl (a : string) : ~ str_lt a a.
Proof.
  unfold str_lt, String.ltb. intros H.
  destruct (String.compare a a) eqn:E; try discriminate.
  pose proof (String.compare_antisym a a) as Ha. rewrite E in Ha.
  discriminate.
Qed.

Lemma str_lt_asym (a b : string) : str_lt a b -> str_lt b a -> False.
Proof.
  unfold str_lt, String.ltb. intros H1 H2.
  rewrite String.compare_antisym in H1.
  destruct (String.compare b a); discriminate.
Qed.

Lemma ascending_unique (l1 l2 : list string) :
  StronglySorted str_lt l1 -> StronglySorted str_lt l2 ->
  (forall s, In s l1 <-> In s l2) -> l1 = l2.
Proof.
  revert l2. induction l1 as [|x l1 IH]; intros [|y l2] H1 H2 Hin.
  - reflexivity.
  - exfalso. apply (proj2 (Hin y)). now left.
  - exfalso. apply (proj1 (Hin x)). now left.
  - apply StronglySorted_inv in H1 as [H1 Hx].
    apply StronglySorted_inv in H2 as [H2 Hy].
    rewrite Forall_forall in Hx, Hy.
    assert (E : x = y).
    { destruct (proj1 (Hin x) (or_introl eq_refl)) as [E|Hxy]; [now subst|].
      destruct (proj2 (Hin y) (or_introl eq_refl)) as [E|Hyx]; [exact E|].
      exfalso. exact (str_lt_asym x y (Hx y Hyx) (Hy x Hxy)). }
    subst y. f_equal. apply IH; [exact H1 | exact H2|].
    intros s. split; intros Hs.
    + destruct (proj1 (Hin s) (or_intror Hs)) as [E|H]; [|exact H].
      subst s. exfalso. exact (str_lt_irrefl x (Hx x Hs)).
    + destruct (proj2 (Hin s) (or_intror Hs)) as [E|H]; [|exact H].
      subst s. exfalso. exact (str_lt_irrefl x (Hy x Hs)).
Qed.

End SortedFacts.

(** The post-processing of line 33. *)
Lemma clean_tickers_spec (items : list pyval) :
  StronglySorted str_lt (clean_tickers items) /\
  (forall s, In s (clean_tickers items) <-> is_ticker_of items s).
Proof.
  unfold clean_tickers, Py.set_of. split.
  - apply strictly_ascending; [apply sorted_ascending|].
    apply (Permutation_NoDup (Permutation_sym (sorted_perm _))).
    apply NoDup_nodup.
  - intros s. unfold is_ticker_of.
    rewrite sorted_In, nodup_In, in_map_iff. split.
    + intros [t [<- Ht]]. apply filter_In in Ht as [Ht Hne].
      exists t. split; [exact Ht|]. split; [|apply strip_upper].
      now apply nonempty_spec.
    + intros [t [Ht [Hne ->]]]. exists t. split; [apply strip_upper|].
      apply filter_In. split; [exact Ht | now apply nonempty_spec].
Qed.

Lemma clean_tickers_str (items items' : list pyval) :
  map Py.str items' = map Py.str items ->
  clean_tickers items' = clean_tickers items.
Proof.
  intros H.
  apply ascending_unique; try apply clean_tickers_spec.
  intros s. rewrite !(proj2 (clean_tickers_spec _)). unfold is_ticker_of.
  assert (Himg : forall a b : list pyval, map Py.str a = map Py.str b ->
            (exists t, In t a /\ Text.strip (Py.str t) <> "" /\
                       s = Text.upper (Text.strip (Py.str t))) ->
            exists t, In t b /\ Text.strip (Py.str t) <> "" /\
                      s = Text.upper (Text.strip (Py.str t))).
  { intros a b Hab [t [Ht Hs]].
    assert (Hi : In (Py.str t) (map Py.str b)).
    { rewrite <- Hab. now apply in_map. }
    apply in_map_iff in Hi as [t' [E Ht']].
    exists t'. split; [exact Ht'|]. now rewrite E. }
  split; apply Himg; [exact H | now symmetry].
Qed.

(** ** TickerListParser: properties *)

Section ParserFacts.

Variable literal_eval : string -> option pyval.
Variable json_loads : string -> option pyval.

Local Abbreviation get_tickers := (get_egx_tickers literal_eval json_loads).

Lemma get_egx_tickers_strict (txt : string) (items : list pyval) :
  literal_eval (Text.strip txt) = Some (PyList items) ->
  get_tickers txt =
  if Py.truthy (PyList items) then Ok (clean_tickers items)
  else Raise parse_failed.
Proof.
  intros H. unfold get_egx_tickers, parse_ticker_list. rewrite H. simpl.
  now destruct items.
Qed.

Lemma get_egx_tickers_not_list (txt : string) (v : pyval) :
  literal_eval (Text.strip txt) = Some v -> Py.is_list v = false ->
  get_tickers txt = Raise parse_failed.
Proof.
  intros H Hv. unfold get_egx_tickers, parse_ticker_list.
  rewrite H, Hv. reflexivity.
Qed.

Lemma get_egx_tickers_no_span (txt : string) :
  literal_eval (Text.strip txt) = None ->
  Re.search_brackets (Text.strip txt) = None ->
  get_tickers txt = Raise parse_failed.
Proof.
  intros H Hs. unfold get_egx_tickers, parse_ticker_list.
  rewrite H, Hs. reflexivity.
Qed.

Lemma get_egx_tickers_fallback (txt span : string) (v : pyval) :
  literal_eval (Text.strip txt) = None ->
  Re.search_brackets (Text.strip txt) = Some span ->
  json_loads (double_quoted span) = Some v ->
  get_tickers txt =
  if Py.truthy v then items <- Py.iter v ;; Ok (clean_tickers items)
  else Raise parse_failed.
Proof.
  intros H Hs Hj. unfold get_egx_tickers, parse_ticker_list.
  rewrite H, Hs, Hj. simpl. now destruct (Py.truthy v).
Qed.

Lemma get_egx_tickers_fallback_raises (txt span : string) :
  literal_eval (Text.strip txt) = None ->
  Re.search_brackets (Text.strip txt) = Some span ->
  json_loads (double_quoted span) = None ->
  get_tickers txt = Raise JSONDecodeError.
Proof.
  intros H Hs Hj. unfold get_egx_tickers, parse_ticker_list.
  rewrite H, Hs, Hj. reflexivity.
Qed.

End ParserFacts.

(** The matched span opens with a bracket and closes with one. *)
Lemma from_first_head (c : ascii) (s s' : string) :
  Re.from_first c s = Some s' -> exists r, s' = String c r.
Proof.
  induction s as [|a s IH]; simpl; [discriminate|].
  destruct (Ascii.eqb a c) eqn:E; [|exact IH].
  apply Ascii.eqb_eq in E. subst. intros [= <-]. now exists s.
Qed.

Lemma upto_last_closed (s p : string) :
  Re.upto_last "]"%char s = Some p -> Text.rstrip p = p /\ p <> "".
Proof.
  revert p. induction s as [|a s IH]; simpl; intros p; [discriminate|].
  destruct (Re.upto_last "]"%char s) as [p'|].
  - intros [= <-]. destruct (IH p' eq_refl) as [Hr Hne].
    split; [|discriminate]. simpl. rewrite Hr. now destruct p'.
  - destruct (Ascii.eqb a "]"%char) eqn:E; [|discriminate].
    apply Ascii.eqb_eq in E. subst. intros [= <-]. split; [reflexivity|].
    discriminate.
Qed.

Lemma strip_double_quoted_span (t span : string) :
  Re.search_brackets t = Some span ->
  Text.strip (double_quoted span) = double_quoted span.
Proof.
  unfold Re.search_brackets.
  destruct (Re.from_first "["%char t) as [s'|] eqn:Ef; [|discriminate].
  destruct (from_first_head _ _ _ Ef) as [r ->].
  destruct (Re.upto_last "]"%char r) as [p|] eqn:Eu; [|discriminate].
  intros [= <-]. destruct (upto_last_closed _ _ Eu) as [Hr Hne].
  unfold Text.strip, double_quoted, Text.replace_char. simpl.
  rewrite (rstrip_map_chars _ isspace_double_quote), Hr.
  destruct p; [congruence | reflexivity].
Qed.

(** C4, amended. On a text that the strict parse reads as a list with at
    least one element, the parser returns the elements coerced to string,
    trimmed, uppercased, without the empty ones, each once, in strictly
    ascending order; no other list has these properties. *)
Theorem get_egx_tickers_strict_list
  (literal_eval json_loads : string -> option pyval)
  (txt : string) (items : list pyval) :
  literal_eval (Text.strip txt) = Some (PyList items) ->
  items <> [] ->
  exists tickers,
    get_egx_tickers literal_eval json_loads txt = Ok tickers /\
    StronglySorted str_lt tickers /\
    (forall s, In s tickers <-> is_ticker_of items s) /\
    (forall l, StronglySorted str_lt l ->
               (forall s, In s l <-> is_ticker_of items s) -> l = tickers).
Proof.
  intros H Hne. exists (clean_tickers items).
  rewrite (get_egx_tickers_strict _ _ _ _ H).
  destruct items as [|t items]; [congruence|]. simpl.
  destruct (clean_tickers_spec (t :: items)) as [Hs Hin].
  repeat split; try assumption; try apply Hin.
  intros l Hl Hm. apply ascending_unique; try assumption.
  intros s. now rewrite Hm, Hin.
Qed.

Lemma get_egx_tickers_strict_list_witness :
  ref_literal_eval (Text.strip " ['bb', ' aa ', 'BB', '', 7] ") =
    Some (PyList [PyStr "bb"; PyStr " aa "; PyStr "BB"; PyStr ""; PyInt 7]) /\
  get_egx_tickers ref_literal_eval ref_json_loads
    " ['bb', ' aa ', 'BB', '', 7] " = Ok ["7"; "AA"; "BB"] /\
  exists tickers,
    get_egx_tickers ref_literal_eval ref_json_loads
      " ['bb', ' aa ', 'BB', '', 7] " = Ok tickers /\
    StronglySorted str_lt tickers.
Proof.
  split; [reflexivity|]. split; [reflexivity|].
  destruct (get_egx_tickers_strict_list ref_literal_eval ref_json_loads
              " ['bb', ' aa ', 'BB', '', 7] "
              [PyStr "bb"; PyStr " aa "; PyStr "BB"; PyStr ""; PyInt 7]
              eq_refl) as [tickers [H1 [H2 _]]]; [discriminate|].
  exists tickers. split; assumption.
Defined.

(** The empty list literal is well formed, and the parser raises on it. *)
Lemma get_egx_tickers_empty_list :
  ref_literal_eval (Text.strip "[]") = Some (PyList []) /\
  get_egx_tickers ref_literal_eval ref_json_loads "[]" = Raise parse_failed /\
  ~ (forall (literal_eval json_loads : string -> option pyval)
            (txt : string) (items : list pyval),
        literal_eval (Text.strip txt) = Some (PyList items) ->
        exists tickers,
          get_egx_tickers literal_eval json_loads txt = Ok tickers).
Proof.
  split; [reflexivity|]. split; [reflexivity|].
  intros H.
  destruct (H ref_literal_eval ref_json_loads "[]" [] eq_refl) as [l Hl].
  discriminate Hl.
Qed.

(** The claim as the specification words it fails twice on the reference
    readers: a quoted text that holds a bracketed span is rejected although
    the loose strategy would yield an element, and an unparsable span ends
    in the decoder's own exception. *)
Lemma get_egx_tickers_other_failures :
  get_egx_tickers ref_literal_eval ref_json_loads "'[1]'" = Raise parse_failed /\
  loose_yield ref_json_loads (Text.strip "'[1]'") = [PyInt 1] /\
  get_egx_tickers ref_literal_eval ref_json_loads "[A]" =
    Raise JSONDecodeError /\
  ~ (forall txt : string,
        (forall e, get_egx_tickers ref_literal_eval ref_json_loads txt =
                   Raise e -> e = parse_failed) /\
        (get_egx_tickers ref_literal_eval ref_json_loads txt =
           Raise parse_failed <->
         both_yield_nothing ref_literal_eval ref_json_loads
           (Text.strip txt))).
Proof.
  split; [reflexivity|]. split; [reflexivity|]. split; [reflexivity|].
  intros H. destruct (H "'[1]'") as [_ [Hfail _]].
  destruct (Hfail eq_refl) as [_ Hloose]. discriminate Hloose.
Qed.

(** C3, amended. Where the fallback parse does not itself raise, the
    parser raises nothing but the RuntimeError "Ticker list parsing failed
    or returned empty.", and raises it exactly when the value that reaches
    the emptiness test is empty: the strict parse returned something that
    is not a list, or an empty list (the fallback is not tried then), or
    the strict parse raised and either no bracketed span exists or the
    span parses to an empty value.  It therefore fails on a text without a
    bracketed span, on the empty text, and on an empty list. *)
Theorem get_egx_tickers_parse_failure
  (literal_eval json_loads : string -> option pyval) (txt : string) :
  (forall items, literal_eval (Text.strip txt) = Some (PyList items) ->
                 Re.search_brackets (Text.strip txt) <> None) ->
  (forall span v, Re.search_brackets (Text.strip txt) = Some span ->
                  json_loads (double_quoted span) = Some v ->
                  Py.is_list v = true) ->
  ~ fallback_raises literal_eval json_loads (Text.strip txt) ->
  (forall e, get_egx_tickers literal_eval json_loads txt = Raise e ->
             e = parse_failed) /\
  (get_egx_tickers literal_eval json_loads txt = Raise parse_failed <->
   list_empty literal_eval json_loads (Text.strip txt)) /\
  (Re.search_brackets (Text.strip txt) = None ->
   get_egx_tickers literal_eval json_loads txt = Raise parse_failed) /\
  (Text.strip txt = "" ->
   get_egx_tickers literal_eval json_loads txt = Raise parse_failed) /\
  (strict_yield literal_eval (Text.strip txt) = [] ->
   loose_yield json_loads (Text.strip txt) = [] ->
   get_egx_tickers literal_eval json_loads txt = Raise parse_failed).
Proof.
  intros Hbr Harr Hnr.
  set (t := Text.strip txt) in *.
  assert (Hnospan : Re.search_brackets t = None ->
            get_egx_tickers literal_eval json_loads txt = Raise parse_failed).
  { intros Hs. destruct (literal_eval t) as [v|] eqn:El.
    - destruct v; try (apply (get_egx_tickers_not_list _ _ _ _ El);
                       reflexivity).
      exfalso. exact (Hbr _ eq_refl Hs).
    - now apply get_egx_tickers_no_span. }
  destruct (literal_eval t) as [v|] eqn:El.
  - (* the strict parse returned *)
    destruct (Py.is_list v) eqn:Hv.
    + destruct v; try discriminate.
      rewrite (get_egx_tickers_strict _ _ _ _ El).
      destruct items as [|x items]; simpl.
      * repeat split; try congruence.
        left. exists (PyList []). auto.
      * unfold strict_yield, list_empty. fold t. rewrite El.
        repeat split; try discriminate.
        -- intros [[v [[= <-] [H|H]]]|[H _]]; discriminate.
        -- intros Hs. exfalso. exact (Hbr _ eq_refl Hs).
        -- intros Ht. exfalso. apply (Hbr _ eq_refl). rewrite Ht.
           reflexivity.
    + rewrite (get_egx_tickers_not_list _ _ _ _ El Hv).
      repeat split; try congruence.
      left. exists v. auto.
  - (* the strict parse raised *)
    destruct (Re.search_brackets t) as [span|] eqn:Es.
    + destruct (json_loads (double_quoted span)) as [v|] eqn:Ej.
      * rewrite (get_egx_tickers_fallback _ _ _ _ _ El Es Ej).
        pose proof (Harr span v eq_refl Ej) as Hl.
        destruct v; try discriminate. unfold loose_yield. fold t.
        rewrite Es, Ej. unfold list_empty. fold t. rewrite Es.
        destruct items as [|x items]; simpl.
        -- repeat split; try congruence.
           right. split; [exact El|]. right.
           exists span, (PyList []). auto.
        -- repeat split; try discriminate.
           intros [[v [H _]]|[_ [H|[s [v [Hs [Hj Ht]]]]]]];
             [congruence | discriminate |].
           ++ injection Hs as <-. rewrite Ej in Hj. injection Hj as <-.
              discriminate Ht.
           ++ intros Ht. rewrite Ht in Es. discriminate Es.
      * exfalso. apply Hnr. split; [exact El|]. now exists span.
    + rewrite (Hnospan eq_refl).
      repeat split; try congruence.
      right. auto.
Qed.

Lemma get_egx_tickers_parse_failure_witness :
  ~ fallback_raises ref_literal_eval ref_json_loads (Text.strip "x = []") /\
  get_egx_tickers ref_literal_eval ref_json_loads "x = []" =
    Raise parse_failed /\
  list_empty ref_literal_eval ref_json_loads (Text.strip "x = []").
Proof.
  assert (H1 : forall items,
             ref_literal_eval (Text.strip "x = []") = Some (PyList items) ->
             Re.search_brackets (Text.strip "x = []") <> None).
  { intros items H. vm_compute in H. discriminate H. }
  assert (H2 : forall span v,
             Re.search_brackets (Text.strip "x = []") = Some span ->
             ref_json_loads (double_quoted span) = Some v ->
             Py.is_list v = true).
  { intros span v Hs Hj. vm_compute in Hs. injection Hs as <-.
    vm_compute in Hj. injection Hj as <-. reflexivity. }
  assert (H3 : ~ fallback_raises ref_literal_eval ref_json_loads
                 (Text.strip "x = []")).
  { intros [_ [span [Hs Hj]]]. vm_compute in Hs. injection Hs as <-.
    vm_compute in Hj. discriminate Hj. }
  split; [exact H3|].
  pose proof (get_egx_tickers_parse_failure ref_literal_eval ref_json_loads
                "x = []" H1 H2 H3) as [_ [Hiff _]].
  split; [reflexivity|]. apply Hiff. reflexivity.
Defined.

(** The JSON escape of the solidus is read by the strict parser as a
    backslash followed by the solidus: the two paths disagree.  JSON's
    own constants are no Python literals: the strict path yields nothing
    on them. *)
Lemma loose_and_strict_disagree :
  ref_literal_eval (Text.strip "x ['A\/B']") = None /\
  Re.search_brackets (Text.strip "x ['A\/B']") = Some "['A\/B']" /\
  ref_json_loads (double_quoted "['A\/B']") = Some (PyList [PyStr "A/B"]) /\
  get_egx_tickers ref_literal_eval ref_json_loads "x ['A\/B']" =
    Ok ["A/B"] /\
  strict_path ref_literal_eval (double_quoted "['A\/B']") = Some ["A\/B"] /\
  get_egx_tickers ref_literal_eval ref_json_loads (double_quoted "['A\/B']") =
    Ok ["A\/B"] /\
  solidus_free "['A\/B']" = false /\
  get_egx_tickers ref_literal_eval ref_json_loads "x [true]" = Ok ["TRUE"] /\
  strict_path ref_literal_eval (double_quoted "[true]") = None /\
  ~ (forall (txt span : string) (items : list pyval),
        ref_literal_eval (Text.strip txt) = None ->
        Re.search_brackets (Text.strip txt) = Some span ->
        ref_json_loads (double_quoted span) = Some (PyList items) ->
        items <> [] ->
        exists tickers,
          get_egx_tickers ref_literal_eval ref_json_loads txt = Ok tickers /\
          strict_path ref_literal_eval (double_quoted span) = Some tickers).
Proof.
  repeat (split; [reflexivity|]).
  intros H.
  destruct (H "x ['A\/B']" "['A\/B']" [PyStr "A/B"]
              eq_refl eq_refl eq_refl) as [l [H1 H2]]; [discriminate|].
  vm_compute in H1, H2. congruence.
Qed.

(** ** The two readers on the same text *)

Section ReaderEquations.

Variable d : Reader.Dialect.

Lemma read_value_eq (fuel : nat) (c : ascii) (r : string) :
  Reader.read_value d (S fuel) (String c r) =
  if existsb (Ascii.eqb c) (Reader.quotes d) then
    match Reader.read_string d c r with
    | Some (body, rest) => Some (PyStr body, rest)
    | None => None
    end
  else if Ascii.eqb c "["%char then
    if head_is "]"%char (Reader.skip_ws d r)
    then Some (PyList [], tail (Reader.skip_ws d r))
    else match Reader.read_items d fuel (Reader.skip_ws d r) with
         | Some (vs, rest) => Some (PyList vs, rest)
         | None => None
         end
  else if Ascii.eqb c "-"%char then
    match Reader.read_nat r with
    | Some (n, rest) => Some (PyInt (- n), rest)
    | None => None
    end
  else if Ascii.eqb c "+"%char && Reader.plus_sign d then
    match Reader.read_nat r with
    | Some (n, rest) => Some (PyInt n, rest)
    | None => None
    end
  else if Reader.is_digit c then
    match Reader.read_nat (String c r) with
    | Some (n, rest) => Some (PyInt n, rest)
    | None => None
    end
  else Reader.read_keyword d (String c r).
Proof.
  cbn [Reader.read_value].
  destruct (existsb (Ascii.eqb c) (Reader.quotes d)); [reflexivity|].
  destruct (Ascii.eqb c "["%char); [|reflexivity].
  destruct (Reader.skip_ws d r) as [|a r']; [reflexivity|].
  destruct a as [[] [] [] [] [] [] [] []]; reflexivity.
Qed.

Lemma read_items_eq (fuel : nat) (s : string) :
  Reader.read_items d (S fuel) s =
  match Reader.read_value d fuel s with
  | None => None
  | Some (v, rest) =>
      let r0 := Reader.skip_ws d rest in
      if head_is "]"%char r0 then Some ([v], tail r0)
      else if head_is ","%char r0 then
        let r1 := Reader.skip_ws d (tail r0) in
        if head_is "]"%char r1 then
          if Reader.trailing_comma d then Some ([v], tail r1) else None
        else match Reader.read_items d fuel r1 with
             | Some (vs, r') => Some (v :: vs, r')
             | None => None
             end
      else None
  end.
Proof.
  cbn [Reader.read_items].
  destruct (Reader.read_value d fuel s) as [[v rest]|]; [|reflexivity].
  cbv zeta.
  destruct (Reader.skip_ws d rest) as [|a r]; [reflexivity|].
  destruct a as [[] [] [] [] [] [] [] []]; try reflexivity.
  cbn [head_is tail Ascii.eqb Bool.eqb].
  destruct (Reader.skip_ws d r) as [|a r']; [reflexivity|].
  destruct a as [[] [] [] [] [] [] [] []]; reflexivity.
Qed.

End ReaderEquations.

Lemma read_nat_eq (s : string) :
  Reader.read_nat s =
  if no_leading_zero (fst (Reader.span Reader.is_digit s))
  then Some (Reader.Z_of_digits 0 (fst (Reader.span Reader.is_digit s)),
             snd (Reader.span Reader.is_digit s))
  else None.
Proof.
  unfold Reader.read_nat.
  destruct (Reader.span Reader.is_digit s) as [ds b]. cbn [fst snd].
  destruct ds as [|c ds']; [reflexivity|].
  destruct c as [[] [] [] [] [] [] [] []]; destruct ds'; reflexivity.
Qed.


(** *** Escape-free, keyword-free JSON is a Python literal *)

Lemma skip_ws_same (s : string) :
  Reader.skip_ws Reader.python s = Reader.skip_ws Reader.json s.
Proof.
  induction s as [|c s IH]; [reflexivity|]. simpl. now rewrite IH.
Qed.

Lemma solidus_free_tail (s : string) :
  solidus_free s = true -> solidus_free (tail s) = true.
Proof.
  destruct s as [|c r]; [auto|]. simpl. intros H.
  now apply andb_prop in H.
Qed.

Lemma solidus_free_escape (e : ascii) (r : string) :
  solidus_free (String Py.backslash (String e r)) = true ->
  Ascii.eqb e "/"%char = false /\ solidus_free r = true.
Proof.
  intros H. pose proof (solidus_free_tail _ (solidus_free_tail _ H)) as Hr.
  split; [|exact Hr].
  cbn [solidus_free] in H. apply andb_prop in H as [H _].
  apply negb_true_iff in H. exact H.
Qed.

Lemma solidus_free_skip_ws (d : Reader.Dialect) (s : string) :
  solidus_free s = true -> solidus_free (Reader.skip_ws d s) = true.
Proof.
  induction s as [|c r IH]; [auto|]. intros H. cbn [Reader.skip_ws].
  destruct (Reader.is_ws d c); [|exact H].
  apply IH. exact (solidus_free_tail _ H).
Qed.

Lemma solidus_free_span (p : ascii -> bool) (s a b : string) :
  Reader.span p s = (a, b) -> solidus_free s = true -> solidus_free b = true.
Proof.
  revert a b. induction s as [|c r IH]; intros a b; cbn [Reader.span].
  - intros [= <- <-]. auto.
  - destruct (p c).
    + destruct (Reader.span p r) as [a' b'] eqn:E. intros [= <- <-] H.
      apply (IH _ _ eq_refl). exact (solidus_free_tail _ H).
    + intros [= <- <-] H. exact H.
Qed.

Lemma read_nat_rest (s rest : string) (n : Z) :
  Reader.read_nat s = Some (n, rest) ->
  rest = snd (Reader.span Reader.is_digit s).
Proof.
  rewrite read_nat_eq.
  destruct (no_leading_zero _); [|discriminate].
  intros [= _ <-]. reflexivity.
Qed.

Lemma solidus_free_read_nat (s rest : string) (n : Z) :
  Reader.read_nat s = Some (n, rest) ->
  solidus_free s = true -> solidus_free rest = true.
Proof.
  intros H Hs. apply read_nat_rest in H. subst rest.
  destruct (Reader.span Reader.is_digit s) as [a b] eqn:E.
  exact (solidus_free_span _ _ _ _ E Hs).
Qed.

Lemma unescape_incl (e : ascii) (t : string) :
  Ascii.eqb e "/"%char = false ->
  Reader.unescape Reader.json e = Some t ->
  Reader.unescape Reader.python e = Some t.
Proof.
  destruct e as [[] [] [] [] [] [] [] []]; intros Hne H;
    vm_compute in Hne, H |- *; congruence.
Qed.

Lemma raw_ok_incl (c : ascii) :
  Reader.raw_ok Reader.json c = true -> Reader.raw_ok Reader.python c = true.
Proof.
  destruct c as [[] [] [] [] [] [] [] []]; intros H;
    vm_compute in H |- *; congruence.
Qed.

Lemma read_string_incl (n : nat) (q : ascii) (s body rest : string) :
  String.length s <= n ->
  solidus_free s = true ->
  Reader.read_string Reader.json q s = Some (body, rest) ->
  Reader.read_string Reader.python q s = Some (body, rest) /\
  solidus_free rest = true.
Proof.
  revert s body rest.
  induction n as [|n IH]; intros s body rest Hn Hs;
    destruct s as [|c r]; cbn [Reader.read_string]; try discriminate;
    cbn [String.length] in Hn; [lia|].
  destruct (Ascii.eqb c q).
  - intros [= <- <-]. split; [reflexivity|]. exact (solidus_free_tail _ Hs).
  - destruct (Ascii.eqb c Py.backslash) eqn:Eb.
    + destruct r as [|e r']; [discriminate|].
      destruct (Reader.unescape Reader.json e) as [t|] eqn:Eu; [|discriminate].
      destruct (Reader.read_string Reader.json q r') as [[b' rest']|] eqn:Er;
        [|discriminate].
      intros [= <- <-].
      apply Ascii.eqb_eq in Eb. subst c.
      destruct (solidus_free_escape _ _ Hs) as [He Hr'].
      rewrite (unescape_incl _ _ He Eu).
      cbn [String.length] in Hn.
      destruct (IH r' b' rest' ltac:(lia) Hr' Er) as [-> Hrest].
      auto.
    + destruct (Reader.raw_ok Reader.json c) eqn:Eraw; [|discriminate].
      rewrite (raw_ok_incl _ Eraw).
      destruct (Reader.read_string Reader.json q r) as [[b' rest']|] eqn:Er;
        [|discriminate].
      intros [= <- <-].
      destruct (IH r b' rest' ltac:(lia) (solidus_free_tail _ Hs) Er)
        as [-> Hrest].
      auto.
Qed.

Lemma read_keyword_json (s rest : string) (v : pyval) :
  Reader.read_keyword Reader.json s = Some (v, rest) -> keyword_free v = false.
Proof.
  unfold Reader.read_keyword.
  destruct (Reader.span Reader.is_letter s) as [w b]. simpl.
  destruct (w =? "true")%string; [intros [= <- _]; reflexivity|].
  destruct (w =? "false")%string; [intros [= <- _]; reflexivity|].
  destruct (w =? "null")%string; [intros [= <- _]; reflexivity|].
  discriminate.
Qed.

Lemma digit_is_plain (c : ascii) :
  Reader.is_digit c = true ->
  Ascii.eqb c Py.squote = false /\ Ascii.eqb c Py.dquote = false /\
  Ascii.eqb c "["%char = false /\ Ascii.eqb c "]"%char = false /\
  Ascii.eqb c "-"%char = false /\ Ascii.eqb c "+"%char = false /\
  Ascii.eqb c ","%char = false /\ Reader.blank c = false.
Proof.
  destruct c as [[] [] [] [] [] [] [] []]; intros H;
    vm_compute in H |- *; try discriminate H; repeat split.
Qed.

Lemma reader_incl (fuel : nat) :
  (forall s v rest,
      solidus_free s = true ->
      Reader.read_value Reader.json fuel s = Some (v, rest) ->
      keyword_free v = true ->
      Reader.read_value Reader.python fuel s = Some (v, rest) /\
      solidus_free rest = true) /\
  (forall s vs rest,
      solidus_free s = true ->
      Reader.read_items Reader.json fuel s = Some (vs, rest) ->
      forallb keyword_free vs = true ->
      Reader.read_items Reader.python fuel s = Some (vs, rest) /\
      solidus_free rest = true).
Proof.
  induction fuel as [|fuel [IHv IHi]]; [split; intros; discriminate|].
  split.
  - intros s v rest Hs. destruct s as [|c r]; [discriminate|].
    rewrite !read_value_eq. rewrite !skip_ws_same.
    assert (Hr : solidus_free r = true) by exact (solidus_free_tail _ Hs).
    change (existsb (Ascii.eqb c) (Reader.quotes Reader.json))
      with (Ascii.eqb c Py.dquote || false).
    change (existsb (Ascii.eqb c) (Reader.quotes Reader.python))
      with (Ascii.eqb c Py.squote || (Ascii.eqb c Py.dquote || false)).
    change (Reader.plus_sign Reader.json) with false.
    rewrite andb_false_r, orb_false_r.
    destruct (Ascii.eqb c Py.dquote) eqn:Eq.
    { rewrite orb_true_r.
      destruct (Reader.read_string Reader.json c r) as [[b rest']|] eqn:Er;
        [|discriminate].
      intros [= <- <-] _.
      destruct (read_string_incl _ _ _ _ _ (le_n _) Hr Er) as [-> Hrest].
      auto. }
    destruct (Ascii.eqb c "["%char) eqn:Eo.
    { apply Ascii.eqb_eq in Eo. subst c. cbn [Ascii.eqb Bool.eqb orb].
      pose proof (solidus_free_skip_ws Reader.json r Hr) as Hr0.
      destruct (head_is "]"%char (Reader.skip_ws Reader.json r)).
      - intros [= <- <-] _. split; [reflexivity|].
        exact (solidus_free_tail _ Hr0).
      - destruct (Reader.read_items Reader.json fuel _) as [[vs rest']|] eqn:Ei;
          [|discriminate].
        intros [= <- <-] Hk. cbn [keyword_free] in Hk.
        destruct (IHi _ _ _ Hr0 Ei Hk) as [-> Hrest]. auto. }
    destruct (Ascii.eqb c "-"%char) eqn:Em.
    { apply Ascii.eqb_eq in Em. subst c. cbn [Ascii.eqb Bool.eqb orb].
      destruct (Reader.read_nat r) as [[n rest']|] eqn:En; [|discriminate].
      intros [= <- <-] _. split; [reflexivity|].
      exact (solidus_free_read_nat _ _ _ En Hr). }
    destruct (Reader.is_digit c) eqn:Ed.
    { destruct (digit_is_plain _ Ed) as [-> [_ [_ [_ [_ [-> _]]]]]].
      cbn [orb andb].
      destruct (Reader.read_nat (String c r)) as [[n rest']|] eqn:En;
        [|discriminate].
      intros [= <- <-] _. split; [reflexivity|].
      exact (solidus_free_read_nat _ _ _ En Hs). }
    intros H Hk. apply read_keyword_json in H. congruence.
  - intros s vs rest Hs. rewrite !read_items_eq. cbv zeta.
    destruct (Reader.read_value Reader.json fuel s) as [[v rest0]|] eqn:Ev;
      [|discriminate].
    change (Reader.trailing_comma Reader.json) with false.
    assert (Hfirst : keyword_free v = true ->
              Reader.read_value Reader.python fuel s = Some (v, rest0) /\
              solidus_free rest0 = true)
      by (intros Hk; exact (IHv _ _ _ Hs Ev Hk)).
    destruct (head_is "]"%char (Reader.skip_ws Reader.json rest0)) eqn:Hc.
    { intros [= <- <-] Hk. cbn [forallb] in Hk.
      apply andb_prop in Hk as [Hk _].
      destruct (Hfirst Hk) as [-> Hrest]. rewrite !skip_ws_same, Hc.
      split; [reflexivity|].
      apply solidus_free_tail. now apply solidus_free_skip_ws. }
    destruct (head_is ","%char (Reader.skip_ws Reader.json rest0)) eqn:Hcomma;
      [|discriminate].
    destruct (head_is "]"%char
                (Reader.skip_ws Reader.json
                   (tail (Reader.skip_ws Reader.json rest0)))) eqn:Hc2;
      [discriminate|].
    destruct (Reader.read_items Reader.json fuel _) as [[vs' rest']|] eqn:Ei;
      [|discriminate].
    intros [= <- <-] Hk. cbn [forallb] in Hk.
    apply andb_prop in Hk as [Hk Hks].
    destruct (Hfirst Hk) as [-> Hrest].
    rewrite !skip_ws_same, Hc, Hcomma, Hc2.
    assert (Hr1 : solidus_free
                    (Reader.skip_ws Reader.json
                       (tail (Reader.skip_ws Reader.json rest0))) = true).
    { apply solidus_free_skip_ws, solidus_free_tail.
      now apply solidus_free_skip_ws. }
    destruct (IHi _ _ _ Hr1 Ei Hks) as [-> Hrest']. auto.
Qed.

(** The two reference readers agree on a text that the JSON reader reads,
    when the text has no escape of the solidus and the value none of
    JSON's own constants. *)
Lemma json_is_python_literal (s : string) (v : pyval) :
  solidus_free s = true ->
  keyword_free v = true ->
  ref_json_loads s = Some v ->
  ref_literal_eval s = Some v.
Proof.
  unfold ref_json_loads, ref_literal_eval, Reader.read.
  intros Hs Hk. rewrite !skip_ws_same.
  destruct (Reader.read_value Reader.json _ _) as [[v' rest]|] eqn:Ev;
    [|discriminate].
  destruct (Reader.skip_ws Reader.json rest) eqn:Er; [|discriminate].
  intros [= ->].
  destruct (proj1 (reader_incl _) _ _ _
              (solidus_free_skip_ws Reader.json s Hs) Ev Hk) as [-> _].
  rewrite skip_ws_same, Er. reflexivity.
Qed.

(** *** Plain arrays are read as their elements *)

Lemma append_assoc (a b c : string) : (a ++ b) ++ c = a ++ (b ++ c).
Proof. induction a as [|x a IH]; simpl; [reflexivity | now rewrite IH]. Qed.

Lemma all_chars_append (p : ascii -> bool) (a b : string) :
  all_chars p (a ++ b) = all_chars p a && all_chars p b.
Proof.
  induction a as [|c a IH]; simpl; [reflexivity|].
  now rewrite IH, andb_assoc.
Qed.

Lemma all_chars_weaken (p p' : ascii -> bool) (s : string) :
  (forall c, p c = true -> p' c = true) ->
  all_chars p s = true -> all_chars p' s = true.
Proof.
  intros Hpp'. induction s as [|c s IH]; simpl; [auto|].
  intros H. apply andb_prop in H as [Hc Hs].
  rewrite (Hpp' _ Hc). now apply IH.
Qed.

Lemma skip_ws_blank (b s : string) :
  all_chars Reader.blank b = true ->
  Reader.skip_ws Reader.json (b ++ s) = Reader.skip_ws Reader.json s.
Proof.
  induction b as [|c b IH]; simpl; [reflexivity|].
  intros H. apply andb_prop in H as [Hc Hb]. rewrite Hc. now apply IH.
Qed.

Lemma skip_ws_head (c : ascii) (s : string) :
  Reader.blank c = false ->
  Reader.skip_ws Reader.json (String c s) = String c s.
Proof. intros H. simpl. now rewrite H. Qed.

Lemma char_ok_spec (c : ascii) :
  Plain.char_ok c = true ->
  Ascii.eqb c Py.squote = false /\ Ascii.eqb c Py.dquote = false /\
  Ascii.eqb c Py.backslash = false /\ Reader.raw_ok Reader.json c = true.
Proof.
  unfold Plain.char_ok. intros H.
  apply andb_prop in H as [H Hb]. apply andb_prop in H as [H Hd].
  apply andb_prop in H as [Hr Hs].
  apply negb_true_iff in Hb, Hd, Hs. auto.
Qed.

Lemma blank_spec (c : ascii) :
  Reader.blank c = true ->
  Ascii.eqb c Py.squote = false /\ Ascii.eqb c Py.backslash = false /\
  Reader.is_digit c = false.
Proof.
  destruct c as [[] [] [] [] [] [] [] []]; intros H;
    vm_compute in H |- *; try discriminate H; repeat split.
Qed.

Lemma read_string_plain (body s : string) :
  all_chars Plain.char_ok body = true ->
  Reader.read_string Reader.json Py.dquote (body ++ String Py.dquote s) =
  Some (body, s).
Proof.
  induction body as [|c body IH]; [reflexivity|].
  cbn [all_chars]. intros H. apply andb_prop in H as [Hc Hb].
  destruct (char_ok_spec _ Hc) as [_ [Hd [Hbs Hraw]]].
  change (String c body ++ String Py.dquote s)
    with (String c (body ++ String Py.dquote s)).
  cbn [Reader.read_string]. rewrite Hd, Hbs, Hraw, (IH Hb). reflexivity.
Qed.

Lemma span_append (p : ascii -> bool) (ds s : string) :
  all_chars p ds = true ->
  Reader.span p s = ("", s) ->
  Reader.span p (ds ++ s) = (ds, s).
Proof.
  intros Hds Hs. induction ds as [|c ds IH]; [exact Hs|].
  cbn [all_chars] in Hds. apply andb_prop in Hds as [Hc Hds].
  simpl. rewrite Hc, (IH Hds). reflexivity.
Qed.

Lemma decimal_spec (ds : string) :
  Plain.decimal ds = true ->
  all_chars Reader.is_digit ds = true /\
  exists c r, ds = String c r /\ Reader.is_digit c = true.
Proof.
  unfold Plain.decimal. intros H. apply andb_prop in H as [Hl Hd].
  split; [exact Hd|]. destruct ds as [|c r]; [discriminate|].
  exists c, r. split; [reflexivity|].
  cbn [all_chars] in Hd. now apply andb_prop in Hd.
Qed.

Lemma read_nat_decimal (ds s : string) :
  Plain.decimal ds = true ->
  Reader.span Reader.is_digit s = ("", s) ->
  Reader.read_nat (ds ++ s) = Some (Reader.Z_of_digits 0 ds, s).
Proof.
  intros Hd Hs. rewrite read_nat_eq.
  rewrite (span_append _ _ _ (proj1 (decimal_spec _ Hd)) Hs). cbn [fst snd].
  unfold Plain.decimal in Hd. apply andb_prop in Hd as [-> _]. reflexivity.
Qed.

(** What follows an element is not a digit. *)
Lemma span_after (af : string) (c : ascii) (s : string) :
  all_chars Reader.blank af = true ->
  Reader.is_digit c = false ->
  Reader.span Reader.is_digit (af ++ String c s) = ("", af ++ String c s).
Proof.
  destruct af as [|a af]; simpl.
  - intros _ ->. reflexivity.
  - intros H. apply andb_prop in H as [Ha _].
    destruct (blank_spec _ Ha) as [_ [_ ->]]. reflexivity.
Qed.

Lemma item_head (i : Plain.item) :
  Plain.item_ok i = true ->
  exists c r, Plain.item_text Py.dquote i = String c r /\
              Reader.blank c = false /\ Ascii.eqb c "]"%char = false.
Proof.
  destruct i as [body|[] ds]; simpl.
  - intros _. eexists. eexists. split; [reflexivity|]. now vm_compute.
  - intros _. eexists. eexists. split; [reflexivity|]. now vm_compute.
  - intros H. destruct (decimal_spec _ H) as [_ [c [r [-> Hc]]]].
    exists c, r. split; [reflexivity|].
    destruct (digit_is_plain _ Hc) as [_ [_ [_ [-> [_ [_ [_ ->]]]]]]].
    auto.
Qed.

Lemma read_item (fuel : nat) (i : Plain.item) (s : string) :
  Plain.item_ok i = true ->
  Reader.span Reader.is_digit s = ("", s) ->
  Reader.read_value Reader.json (S fuel) (Plain.item_text Py.dquote i ++ s) =
  Some (Plain.item_value i, s).
Proof.
  destruct i as [body|[] ds]; cbn [Plain.item_ok Plain.item_text Plain.item_value].
  - intros Hb _.
    change (String Py.dquote (body ++ String Py.dquote "") ++ s)
      with (String Py.dquote ((body ++ String Py.dquote "") ++ s)).
    rewrite append_assoc.
    change (String Py.dquote "" ++ s) with (String Py.dquote s).
    rewrite read_value_eq.
    change (existsb (Ascii.eqb Py.dquote) (Reader.quotes Reader.json))
      with true.
    cbv iota. now rewrite (read_string_plain _ _ Hb).
  - intros Hd Hs.
    change (String "-" ds ++ s) with (String "-" (ds ++ s)).
    rewrite read_value_eq.
    change (existsb (Ascii.eqb "-"%char) (Reader.quotes Reader.json))
      with false.
    cbn [Ascii.eqb Bool.eqb]. cbv iota.
    now rewrite (read_nat_decimal _ _ Hd Hs).
  - intros Hd Hs.
    pose proof (read_nat_decimal _ _ Hd Hs) as Hn.
    destruct (decimal_spec _ Hd) as [_ [c [r [-> Hc]]]].
    change (String c r ++ s) with (String c (r ++ s)) in *.
    rewrite read_value_eq.
    change (existsb (Ascii.eqb c) (Reader.quotes Reader.json))
      with (Ascii.eqb c Py.dquote || false).
    destruct (digit_is_plain _ Hc) as [_ [-> [-> [_ [-> [-> _]]]]]].
    cbn [orb andb]. rewrite Hc, Hn. reflexivity.
Qed.

Lemma skip_ws_element (e : Plain.element) (s : string) :
  Plain.element_ok e = true ->
  Reader.skip_ws Reader.json (Plain.element_text Py.dquote e ++ s) =
  Plain.item_text Py.dquote (Plain.value e) ++ Plain.after e ++ s /\
  head_is "]"%char
    (Plain.item_text Py.dquote (Plain.value e) ++ Plain.after e ++ s) = false.
Proof.
  unfold Plain.element_ok, Plain.element_text. intros H.
  apply andb_prop in H as [H _]. apply andb_prop in H as [Hb Hi].
  rewrite !append_assoc, (skip_ws_blank _ _ Hb).
  destruct (item_head _ Hi) as [c [r [-> [Hc Hclose]]]].
  change (String c r ++ Plain.after e ++ s)
    with (String c (r ++ Plain.after e ++ s)).
  rewrite (skip_ws_head _ _ Hc). split; [reflexivity | exact Hclose].
Qed.

Lemma read_element (fuel : nat) (e : Plain.element) (c : ascii) (s : string) :
  Plain.element_ok e = true ->
  Reader.is_digit c = false -> Reader.blank c = false ->
  exists rest,
    Reader.read_value Reader.json (S fuel)
      (Plain.item_text Py.dquote (Plain.value e) ++
       Plain.after e ++ String c s) =
    Some (Plain.item_value (Plain.value e), rest) /\
    Reader.skip_ws Reader.json rest = String c s.
Proof.
  unfold Plain.element_ok. intros H Hd Hc.
  apply andb_prop in H as [H Ha]. apply andb_prop in H as [_ Hi].
  exists (Plain.after e ++ String c s). split.
  - apply (read_item _ _ _ Hi). exact (span_after _ _ _ Ha Hd).
  - rewrite (skip_ws_blank _ _ Ha). exact (skip_ws_head _ _ Hc).
Qed.

Lemma read_items_plain (a : list Plain.element) :
  a <> [] -> forallb Plain.element_ok a = true ->
  forall (fuel : nat) (tl : string),
    List.length a < fuel ->
    Reader.read_items Reader.json fuel
      (Reader.skip_ws Reader.json (Plain.items_text Py.dquote a ++ String "]" tl))
    = Some (Plain.values a, tl) /\
    head_is "]"%char
      (Reader.skip_ws Reader.json
         (Plain.items_text Py.dquote a ++ String "]" tl)) = false.
Proof.
  induction a as [|e a IH]; [congruence|]. intros _ Hok fuel tl Hfuel.
  cbn [forallb] in Hok. apply andb_prop in Hok as [He Ha].
  destruct fuel as [|[|fuel]]; cbn [List.length] in Hfuel; try lia.
  destruct a as [|e2 a'].
  - cbn [Plain.items_text Plain.values map].
    destruct (skip_ws_element e (String "]" tl) He) as [-> Hhead].
    split; [|exact Hhead].
    rewrite read_items_eq.
    destruct (read_element fuel e "]" tl He eq_refl eq_refl)
      as [rest [-> Hrest]].
    cbv zeta. rewrite Hrest. reflexivity.
  - change (Plain.items_text Py.dquote (e :: e2 :: a'))
      with (Plain.element_text Py.dquote e ++ "," ++
            Plain.items_text Py.dquote (e2 :: a')).
    rewrite !append_assoc.
    change ("," ++ ?x) with (String ","%char x).
    match goal with
    | |- context [Plain.element_text Py.dquote e ++ String "," ?x] =>
        destruct (skip_ws_element e (String "," x) He) as [-> Hhead];
        destruct (read_element fuel e "," x He eq_refl eq_refl)
          as [rest [Hv Hrest]]
    end.
    split; [|exact Hhead].
    rewrite read_items_eq, Hv. cbv zeta. rewrite Hrest.
    cbn [head_is tail Ascii.eqb Bool.eqb]. cbv iota.
    destruct (IH ltac:(discriminate) Ha (S fuel) tl ltac:(simpl in *; lia))
      as [Hitems Hopen].
    rewrite Hopen, Hitems. reflexivity.
Qed.

Lemma items_text_length (q : ascii) (a : list Plain.element) :
  forallb Plain.element_ok a = true ->
  List.length a <= String.length (Plain.items_text q a).
Proof.
  induction a as [|e a IH]; [simpl; lia|].
  cbn [forallb]. intros H. apply andb_prop in H as [He Ha].
  assert (Hone : 1 <= String.length (Plain.element_text q e)).
  { unfold Plain.element_text, Plain.element_ok in *.
    apply andb_prop in He as [He _]. apply andb_prop in He as [_ Hi].
    rewrite !length_append.
    destruct (Plain.value e) as [body|[] ds]; simpl; try lia.
    destruct (decimal_spec _ Hi) as [_ [c [r [-> _]]]]. simpl. lia. }
  specialize (IH Ha). destruct a as [|e2 a'].
  - simpl in *. lia.
  - change (Plain.items_text q (e :: e2 :: a'))
      with (Plain.element_text q e ++ "," ++ Plain.items_text q (e2 :: a')).
    rewrite !length_append. cbn [List.length] in *.
    change (String.length ",") with 1. lia.
Qed.

(** The JSON reader reads the double-quoted text of a plain array as the
    list of its elements. *)
Lemma json_reads_plain (a : list Plain.element) :
  Plain.array a ->
  ref_json_loads (Plain.text Py.dquote a) = Some (PyList (Plain.values a)).
Proof.
  intros [Hne Hok]. unfold ref_json_loads, Reader.read, Plain.text.
  change ("[" ++ ?x) with (String "["%char x).
  rewrite (skip_ws_head "["%char _ eq_refl).
  replace (2 * String.length
             (String "[" (Plain.items_text Py.dquote a ++ "]")) + 2)
    with (S (2 * String.length
               (String "[" (Plain.items_text Py.dquote a ++ "]")) + 1))
    by lia.
  rewrite read_value_eq.
  change (existsb (Ascii.eqb "["%char) (Reader.quotes Reader.json))
    with false.
  cbn [Ascii.eqb Bool.eqb]. cbv iota.
  assert (Hfuel : List.length a <
            2 * String.length
                  (String "[" (Plain.items_text Py.dquote a ++ "]")) + 1).
  { pose proof (items_text_length Py.dquote a Hok) as Hl.
    cbn [String.length]. rewrite length_append. lia. }
  destruct (read_items_plain a Hne Hok _ "" Hfuel) as [Hitems Hopen].
  rewrite Hopen, Hitems. reflexivity.
Qed.

Lemma double_quoted_append (a b : string) :
  double_quoted (a ++ b) = double_quoted a ++ double_quoted b.
Proof.
  unfold double_quoted, Text.replace_char.
  induction a as [|c a IH]; simpl; [reflexivity | now rewrite IH].
Qed.

Lemma double_quoted_fixed (s : string) :
  all_chars (fun c => negb (Ascii.eqb c Py.squote)) s = true ->
  double_quoted s = s.
Proof.
  unfold double_quoted, Text.replace_char.
  induction s as [|c s IH]; simpl; [reflexivity|].
  intros H. apply andb_prop in H as [Hc Hs].
  apply negb_true_iff in Hc. rewrite Hc, (IH Hs). reflexivity.
Qed.

Lemma no_squote_blank (s : string) :
  all_chars Reader.blank s = true ->
  all_chars (fun c => negb (Ascii.eqb c Py.squote)) s = true.
Proof.
  apply all_chars_weaken. intros c H.
  destruct (blank_spec _ H) as [-> _]. reflexivity.
Qed.

Lemma no_squote_digits (s : string) :
  all_chars Reader.is_digit s = true ->
  all_chars (fun c => negb (Ascii.eqb c Py.squote)) s = true.
Proof.
  apply all_chars_weaken. intros c H.
  destruct (digit_is_plain _ H) as [-> _]. reflexivity.
Qed.

Lemma no_squote_body (s : string) :
  all_chars Plain.char_ok s = true ->
  all_chars (fun c => negb (Ascii.eqb c Py.squote)) s = true.
Proof.
  apply all_chars_weaken. intros c H.
  destruct (char_ok_spec _ H) as [-> _]. reflexivity.
Qed.

Lemma double_quoted_element (e : Plain.element) :
  Plain.element_ok e = true ->
  double_quoted (Plain.element_text Py.squote e) =
  Plain.element_text Py.dquote e.
Proof.
  unfold Plain.element_ok, Plain.element_text. intros H.
  apply andb_prop in H as [H Ha]. apply andb_prop in H as [Hb Hi].
  rewrite !double_quoted_append.
  rewrite (double_quoted_fixed _ (no_squote_blank _ Hb)).
  rewrite (double_quoted_fixed _ (no_squote_blank _ Ha)).
  f_equal. f_equal.
  destruct (Plain.value e) as [body|[] ds]; cbn [Plain.item_text Plain.item_ok] in *.
  - change (String Py.squote (body ++ String Py.squote ""))
      with (String Py.squote "" ++ body ++ String Py.squote "").
    rewrite !double_quoted_append.
    rewrite (double_quoted_fixed _ (no_squote_body _ Hi)). reflexivity.
  - change (String "-" ds) with ("-" ++ ds).
    rewrite double_quoted_append.
    now rewrite (double_quoted_fixed _
                   (no_squote_digits _ (proj1 (decimal_spec _ Hi)))).
  - exact (double_quoted_fixed _
             (no_squote_digits _ (proj1 (decimal_spec _ Hi)))).
Qed.

Lemma double_quoted_items (a : list Plain.element) :
  forallb Plain.element_ok a = true ->
  double_quoted (Plain.items_text Py.squote a) = Plain.items_text Py.dquote a.
Proof.
  induction a as [|e a IH]; [reflexivity|].
  cbn [forallb]. intros H. apply andb_prop in H as [He Ha].
  destruct a as [|e2 a'].
  - exact (double_quoted_element _ He).
  - change (Plain.items_text ?q (e :: e2 :: a'))
      with (Plain.element_text q e ++ "," ++ Plain.items_text q (e2 :: a')).
    rewrite !double_quoted_append, (double_quoted_element _ He), (IH Ha).
    reflexivity.
Qed.

(** Replacing the quotes of the single-quoted text of a plain array gives
    its double-quoted text. *)
Lemma double_quoted_plain (a : list Plain.element) :
  Plain.array a ->
  double_quoted (Plain.text Py.squote a) = Plain.text Py.dquote a.
Proof.
  intros [_ Hok]. unfold Plain.text.
  rewrite !double_quoted_append, (double_quoted_items _ Hok). reflexivity.
Qed.

Lemma solidus_free_plain_chars (s : string) :
  all_chars (fun c => negb (Ascii.eqb c Py.backslash)) s = true ->
  solidus_free s = true.
Proof.
  induction s as [|c s IH]; [reflexivity|]. cbn [all_chars solidus_free].
  intros H. apply andb_prop in H as [Hc Hs].
  apply negb_true_iff in Hc. rewrite Hc, (IH Hs). reflexivity.
Qed.

Lemma no_backslash_element (q : ascii) (e : Plain.element) :
  Ascii.eqb q Py.backslash = false ->
  Plain.element_ok e = true ->
  all_chars (fun c => negb (Ascii.eqb c Py.backslash))
    (Plain.element_text q e) = true.
Proof.
  unfold Plain.element_ok, Plain.element_text. intros Hq H.
  apply andb_prop in H as [H Ha]. apply andb_prop in H as [Hb Hi].
  assert (Hblank : forall s, all_chars Reader.blank s = true ->
            all_chars (fun c => negb (Ascii.eqb c Py.backslash)) s = true).
  { intros s. apply all_chars_weaken. intros c Hc.
    destruct (blank_spec _ Hc) as [_ [-> _]]. reflexivity. }
  assert (Hdigits : forall s, all_chars Reader.is_digit s = true ->
            all_chars (fun c => negb (Ascii.eqb c Py.backslash)) s = true).
  { intros s. apply all_chars_weaken. intros c Hc.
    destruct c as [[] [] [] [] [] [] [] []];
      vm_compute in Hc |- *; congruence. }
  rewrite !all_chars_append, (Hblank _ Hb), (Hblank _ Ha), andb_true_r.
  cbn [andb].
  destruct (Plain.value e) as [body|[] ds]; cbn [Plain.item_text Plain.item_ok] in *.
  - cbn [all_chars]. rewrite Hq, all_chars_append. cbn [all_chars negb andb].
    rewrite Hq. cbn [negb]. rewrite andb_true_r.
    revert Hi. apply all_chars_weaken. intros c Hc.
    destruct (char_ok_spec _ Hc) as [_ [_ [-> _]]]. reflexivity.
  - cbn [all_chars]. cbn [Ascii.eqb Bool.eqb negb andb].
    exact (Hdigits _ (proj1 (decimal_spec _ Hi))).
  - exact (Hdigits _ (proj1 (decimal_spec _ Hi))).
Qed.

Lemma no_backslash_items (q : ascii) (a : list Plain.element) :
  Ascii.eqb q Py.backslash = false ->
  forallb Plain.element_ok a = true ->
  all_chars (fun c => negb (Ascii.eqb c Py.backslash))
    (Plain.items_text q a) = true.
Proof.
  intros Hq. induction a as [|e a IH]; [reflexivity|].
  cbn [forallb]. intros H. apply andb_prop in H as [He Ha].
  destruct a as [|e2 a'].
  - exact (no_backslash_element _ _ Hq He).
  - change (Plain.items_text q (e :: e2 :: a'))
      with (Plain.element_text q e ++ "," ++ Plain.items_text q (e2 :: a')).
    rewrite !all_chars_append, (no_backslash_element _ _ Hq He), (IH Ha).
    reflexivity.
Qed.

(** The text of a plain array has no escape, and its elements are strings
    and integers. *)
Lemma solidus_free_plain (q : ascii) (a : list Plain.element) :
  Ascii.eqb q Py.backslash = false ->
  Plain.array a -> solidus_free (Plain.text q a) = true.
Proof.
  intros Hq [_ Hok]. apply solidus_free_plain_chars. unfold Plain.text.
  change ("[" ++ ?x) with (String "["%char x). cbn [all_chars].
  rewrite all_chars_append, (no_backslash_items _ _ Hq Hok). reflexivity.
Qed.

Lemma keyword_free_plain (a : list Plain.element) :
  forallb keyword_free (Plain.values a) = true.
Proof.
  induction a as [|e a IH]; [reflexivity|].
  cbn [Plain.values map forallb]. fold (Plain.values a). rewrite IH.
  now destruct (Plain.value e) as [body|[] ds].
Qed.

Lemma solidus_free_double_quoted (s : string) :
  solidus_free (double_quoted s) = solidus_free s.
Proof.
  unfold double_quoted, Text.replace_char.
  induction s as [|c s IH]; [reflexivity|].
  cbn [Text.map_chars solidus_free]. rewrite IH. f_equal. f_equal.
  destruct (Ascii.eqb c Py.squote) eqn:E.
  - apply Ascii.eqb_eq in E. subst c. reflexivity.
  - f_equal. destruct s as [|c' s']; [reflexivity|].
    cbn [Text.map_chars head_is].
    destruct (Ascii.eqb c' Py.squote) eqn:E'; [|reflexivity].
    apply Ascii.eqb_eq in E'. subst c'. reflexivity.
Qed.

(** C8, amended. Let the strict parse fail on the text and let the
    libraries read the double-quoted span as the reference readers do
    where these read it.  When the fallback yields a non-empty list, the
    parser returns the tickers of that list; when moreover the span has no
    escape of the solidus and the list none of JSON's [true], [false] and
    [null], this is what the strict path produces on the double-quoted
    span, and what the parser itself returns on it.  Every array of
    single-quoted plain strings and decimal integers, whatever its blank
    padding, is such a span. *)
Theorem loose_fallback_matches_strict
  (literal_eval json_loads : string -> option pyval) (txt span : string) :
  literal_eval (Text.strip txt) = None ->
  Re.search_brackets (Text.strip txt) = Some span ->
  reads_as ref_json_loads json_loads (double_quoted span) ->
  reads_as ref_literal_eval literal_eval (double_quoted span) ->
  (forall items,
      ref_json_loads (double_quoted span) = Some (PyList items) ->
      items <> [] ->
      get_egx_tickers literal_eval json_loads txt = Ok (clean_tickers items) /\
      (solidus_free span = true ->
       forallb keyword_free items = true ->
       strict_path literal_eval (double_quoted span) =
         Some (clean_tickers items) /\
       get_egx_tickers literal_eval json_loads (double_quoted span) =
         Ok (clean_tickers items))) /\
  (forall a,
      Plain.array a ->
      span = Plain.text Py.squote a ->
      double_quoted span = Plain.text Py.dquote a /\
      get_egx_tickers literal_eval json_loads txt =
        Ok (clean_tickers (Plain.values a)) /\
      strict_path literal_eval (double_quoted span) =
        Some (clean_tickers (Plain.values a)) /\
      get_egx_tickers literal_eval json_loads (double_quoted span) =
        Ok (clean_tickers (Plain.values a))).
Proof.
  intros El Es Hjson Hpy.
  assert (Hlist : forall items,
      ref_json_loads (double_quoted span) = Some (PyList items) ->
      items <> [] ->
      get_egx_tickers literal_eval json_loads txt = Ok (clean_tickers items) /\
      (solidus_free span = true ->
       forallb keyword_free items = true ->
       strict_path literal_eval (double_quoted span) =
         Some (clean_tickers items) /\
       get_egx_tickers literal_eval json_loads (double_quoted span) =
         Ok (clean_tickers items))).
  { intros items Hj Hne.
    assert (Ht : Py.truthy (PyList items) = true)
      by (destruct items; [congruence | reflexivity]).
    split.
    - rewrite (get_egx_tickers_fallback _ _ _ _ _ El Es (Hjson _ Hj)), Ht.
      reflexivity.
    - intros Hs Hk.
      assert (Hl : literal_eval (double_quoted span) = Some (PyList items)).
      { apply Hpy. apply json_is_python_literal; [|exact Hk|exact Hj].
        now rewrite solidus_free_double_quoted. }
      split.
      + unfold strict_path. now rewrite Hl, Ht.
      + rewrite (get_egx_tickers_strict literal_eval json_loads
                   (double_quoted span) items), Ht; [reflexivity|].
        now rewrite (strip_double_quoted_span _ _ Es). }
  split; [exact Hlist|].
  intros a Ha ->.
  pose proof (double_quoted_plain a Ha) as Hq.
  assert (Hj : ref_json_loads (double_quoted (Plain.text Py.squote a)) =
               Some (PyList (Plain.values a)))
    by (rewrite Hq; exact (json_reads_plain a Ha)).
  assert (Hne : Plain.values a <> []).
  { destruct Ha as [Hne _]. destruct a; [congruence | discriminate]. }
  destruct (Hlist _ Hj Hne) as [Hget Hrest].
  destruct (Hrest (solidus_free_plain Py.squote a eq_refl Ha)
              (keyword_free_plain a)) as [Hstrict Hsame].
  auto.
Qed.

Lemma loose_fallback_matches_strict_witness :
  Plain.text Py.squote
    [Plain.mkElement "" (Plain.Str "bb") "";
     Plain.mkElement " " (Plain.Str " aa ") "";
     Plain.mkElement " " (Plain.Int false "7") ""] = "['bb', ' aa ', 7]" /\
  ref_literal_eval (Text.strip "tickers = ['bb', ' aa ', 7];") = None /\
  Re.search_brackets (Text.strip "tickers = ['bb', ' aa ', 7];") =
    Some "['bb', ' aa ', 7]" /\
  get_egx_tickers ref_literal_eval ref_json_loads
    "tickers = ['bb', ' aa ', 7];" = Ok ["7"; "AA"; "BB"] /\
  strict_path ref_literal_eval (double_quoted "['bb', ' aa ', 7]") =
    Some ["7"; "AA"; "BB"].
Proof.
  split; [reflexivity|]. split; [reflexivity|]. split; [reflexivity|].
  assert (Ha : Plain.array
                 [Plain.mkElement "" (Plain.Str "bb") "";
                  Plain.mkElement " " (Plain.Str " aa ") "";
                  Plain.mkElement " " (Plain.Int false "7") ""])
    by (split; [discriminate | reflexivity]).
  destruct (loose_fallback_matches_strict ref_literal_eval ref_json_loads
              "tickers = ['bb', ' aa ', 7];" "['bb', ' aa ', 7]"
              eq_refl eq_refl (fun v H => H) (fun v H => H)) as [_ H].
  destruct (H _ Ha eq_refl) as [_ [H1 [H2 _]]].
  split; [exact H1 | exact H2].
Defined.

(** ** PipelineOrchestrator: properties *)

Section LoopFacts.

Variable data : option DataFrame.

Lemma normalize_ohlcv_columns (df : Frame (option Z)) (out : Frame unit) :
  normalize_ohlcv df = Ok out -> columns out = COLS.
Proof.
  unfold normalize_ohlcv, Pd.reset_index.
  destruct (Pd.has_column _ _); [discriminate|].
  simpl bind. intros [= <-].
  change (Pd.has_column "Date" (Pd.select COLS ?f)) with true.
  reflexivity.
Qed.

Lemma empty_normalized (df : Frame (option Z)) (out : Frame unit) :
  normalize_ohlcv df = Ok out -> Pd.empty out = Pd.is_nil (rows out).
Proof.
  intros H. unfold Pd.empty. rewrite (normalize_ohlcv_columns _ _ H).
  apply orb_false_r.
Qed.

(** One turn of the loop adds the summary row of the symbol's outcome, and
    the symbol to the skip list unless the outcome is a success. *)
Lemma process_outcome (acc acc' : Accumulated) (orig yf_sym : string) :
  process data acc (orig, yf_sym) = Ok acc' ->
  exists o,
    outcome data yf_sym = Ok o /\
    summary_rows acc' = (summary_rows acc ++ [summary_row_of orig yf_sym o])%list /\
    skipped acc' =
      (skipped acc ++ if usable o then [] else [yf_sym])%list /\
    note_matches data yf_sym (note_of o).
Proof.
  unfold process, outcome, note_matches.
  destruct (_slice_ticker_from_download data yf_sym) as [df_t|].
  - destruct (Pd.empty df_t).
    + intros [= <-]. exists NoData. auto.
    + destruct (normalize_ohlcv df_t) as [df_norm|e] eqn:En; [|discriminate].
      simpl bind. rewrite (empty_normalized _ _ En).
      destruct (rows df_norm) as [|r rs] eqn:Er; simpl.
      * intros [= <-]. exists EmptyAfterNormalization.
        repeat split; try reflexivity.
        eexists. split; [reflexivity|]. rewrite Er.
        split; intros H; (reflexivity || congruence).
      * intros [= <-]. eexists.
        split; [reflexivity|]. split; [reflexivity|].
        split; [simpl; now rewrite app_nil_r|].
        eexists. split; [reflexivity|]. rewrite Er.
        split; intros H; (reflexivity || congruence).
  - intros [= <-]. exists NoData. auto.
Qed.

Lemma process_returns (acc : Accumulated) (orig yf_sym : string)
  (o : SymbolOutcome) :
  outcome data yf_sym = Ok o ->
  exists acc', process data acc (orig, yf_sym) = Ok acc'.
Proof.
  unfold process, outcome.
  destruct (_slice_ticker_from_download data yf_sym) as [df_t|];
    [|eexists; reflexivity].
  destruct (Pd.empty df_t); [eexists; reflexivity|].
  destruct (normalize_ohlcv df_t) as [df_norm|e]; [|discriminate].
  intros _. simpl. destruct (Pd.empty df_norm); eexists; reflexivity.
Qed.

(** The loop: one summary row per pair, in the order of the pairs, and
    the skipped symbols in that order. *)
Lemma for_each_process (pairs : list (string * string))
  (acc acc' : Accumulated) :
  for_each (process data) pairs acc = Ok acc' ->
  exists new_rows,
    summary_rows acc' = (summary_rows acc ++ new_rows)%list /\
    Forall2 (row_for data) pairs new_rows /\
    skipped acc' = (skipped acc ++ map snd (filter (skip_symbol data) pairs))%list.
Proof.
  revert acc. induction pairs as [|[orig sym] pairs IH]; intros acc;
    cbn [for_each].
  - intros [= <-]. exists []. simpl. rewrite !app_nil_r. auto.
  - destruct (process data acc (orig, sym)) as [acc1|e] eqn:E1;
      [|simpl; discriminate].
    cbn [bind]. intros Hrest.
    destruct (process_outcome _ _ _ _ E1) as [o [Ho [Hs [Hk Hn]]]].
    destruct (IH _ Hrest) as [rows' [Hs' [Hf Hk']]].
    exists (summary_row_of orig sym o :: rows').
    rewrite Hs', Hs, Hk', Hk, <- !app_assoc. simpl.
    split; [reflexivity|]. split.
    + constructor; [|exact Hf]. exists o. simpl.
      repeat split; try assumption. now destruct o.
    + unfold skip_symbol at 2. simpl. rewrite Ho.
      now destruct (usable o).
Qed.

Lemma for_each_returns (pairs : list (string * string)) (acc : Accumulated) :
  (forall p, In p pairs -> exists o, outcome data (snd p) = Ok o) ->
  exists acc', for_each (process data) pairs acc = Ok acc'.
Proof.
  revert acc. induction pairs as [|[orig sym] pairs IH]; intros acc H;
    cbn [for_each].
  - eexists. reflexivity.
  - destruct (H (orig, sym) (or_introl eq_refl)) as [o Ho].
    destruct (process_returns acc orig sym o Ho) as [acc1 ->]. cbn [bind].
    apply IH. intros p Hp. apply H. now right.
Qed.

End LoopFacts.

Section PipelineFacts.

Variable literal_eval : string -> option pyval.
Variable json_loads : string -> option pyval.
Variable response_text : string.
Variable yf_download : list string -> option DataFrame.

Local Abbreviation run :=
  (download_and_write_excel literal_eval json_loads response_text yf_download).

(** A run that returns has parsed the tickers and gone through the loop
    over all of them. *)
Lemma run_inv (acc : Accumulated) :
  run = Ok acc ->
  exists tickers,
    get_egx_tickers literal_eval json_loads response_text = Ok tickers /\
    tickers <> [] /\
    for_each (process (yf_download (map to_yf_symbol tickers)))
      (map (fun orig => (orig, to_yf_symbol orig)) tickers)
      (mkAccumulated [] [] []) = Ok acc.
Proof.
  unfold download_and_write_excel.
  destruct (get_egx_tickers literal_eval json_loads response_text)
    as [tickers|e]; [|discriminate].
  cbn [bind]. rewrite map_map. cbn [snd].
  destruct tickers as [|t tickers]; [discriminate|].
  intros H. exists (t :: tickers). repeat split; [discriminate | exact H].
Qed.

Lemma run_returns (tickers : list string) :
  get_egx_tickers literal_eval json_loads response_text = Ok tickers ->
  tickers <> [] ->
  (forall t, In t tickers ->
             exists o, outcome (yf_download (map to_yf_symbol tickers))
                         (to_yf_symbol t) = Ok o) ->
  exists acc, run = Ok acc.
Proof.
  intros Hg Hne Ho. unfold download_and_write_excel. rewrite Hg.
  cbn [bind]. rewrite map_map. cbn [snd].
  destruct tickers as [|t tickers]; [congruence|]. cbn [Pd.is_nil map].
  apply for_each_returns. intros p Hp.
  change (to_yf_symbol t :: map to_yf_symbol tickers)
    with (map to_yf_symbol (t :: tickers)).
  change ((t, to_yf_symbol t)
          :: map (fun orig => (orig, to_yf_symbol orig)) tickers)
    with (map (fun orig => (orig, to_yf_symbol orig)) (t :: tickers)) in Hp.
  apply in_map_iff in Hp as [t' [<- Ht']]. now apply Ho.
Qed.

End PipelineFacts.

Lemma filter_map_pairs (p : string * string -> bool) (l : list string) :
  map snd (filter p (map (fun orig => (orig, to_yf_symbol orig)) l)) =
  filter (fun t => p (t, to_yf_symbol t)) l.
Proof.
  induction l as [|t l IH]; simpl; [reflexivity|].
  destruct (p (t, to_yf_symbol t)); simpl; now rewrite IH.
Qed.

(** C2. The skip list of a run that returns is the list of the input
    tickers whose outcome is NoData or EmptyAfterNormalization, in input
    order: every such ticker is in it and nothing else is. *)
Theorem skip_list_is_tickers_without_data
  (literal_eval json_loads : string -> option pyval)
  (response_text : string) (yf_download : list string -> option DataFrame)
  (acc : Accumulated) :
  download_and_write_excel literal_eval json_loads response_text yf_download
    = Ok acc ->
  exists tickers,
    get_egx_tickers literal_eval json_loads response_text = Ok tickers /\
    let data := yf_download (map to_yf_symbol tickers) in
    skipped acc = filter (no_usable_data data) tickers /\
    (forall t, In t (skipped acc) <->
               In t tickers /\
               (outcome data (to_yf_symbol t) = Ok NoData \/
                outcome data (to_yf_symbol t) = Ok EmptyAfterNormalization)).
Proof.
  intros Hrun.
  destruct (run_inv _ _ _ _ _ Hrun) as [tickers [Hg [_ Hloop]]].
  exists tickers. split; [exact Hg|]. intros data.
  destruct (for_each_process _ _ _ _ Hloop) as [rows' [_ [_ Hk]]].
  cbn [skipped app] in Hk. rewrite filter_map_pairs in Hk.
  assert (Hskip : skipped acc = filter (no_usable_data data) tickers).
  { rewrite Hk. apply filter_ext. intros t. reflexivity. }
  split; [exact Hskip|].
  intros t. rewrite Hskip, filter_In. unfold no_usable_data.
  split; intros [Ht Ho]; (split; [exact Ht|]).
  - destruct (outcome data (to_yf_symbol t)) as [[n f l| |]|e];
      try discriminate; auto.
  - destruct Ho as [-> | ->]; reflexivity.
Qed.

Lemma skip_list_is_tickers_without_data_witness :
  exists acc,
    download_and_write_excel ref_literal_eval ref_json_loads
      "['AAA','BBB', 'CCC']" Examples.download = Ok acc /\
    skipped acc = ["BBB"; "CCC"].
Proof.
  eexists.
  match goal with
  | |- ?run = Ok ?acc /\ _ =>
      assert (Hrun : run = Ok acc) by (vm_compute; reflexivity)
  end.
  split; [exact Hrun|].
  destruct (skip_list_is_tickers_without_data ref_literal_eval
              ref_json_loads "['AAA','BBB', 'CCC']" Examples.download _
              Hrun) as [tickers [Hg [Hk _]]].
  vm_compute in Hg. injection Hg as <-. exact Hk.
Defined.

Lemma rows_for_tickers (data : option DataFrame) (tickers : list string)
  (new_rows : list SummaryRow) :
  Forall2 (row_for data)
    (map (fun orig => (orig, to_yf_symbol orig)) tickers) new_rows ->
  map original_ticker new_rows = tickers /\
  Forall2
    (fun t row =>
       original_ticker row = t /\
       yf_symbol row = to_yf_symbol t /\
       note_matches data (to_yf_symbol t) (note row) /\
       exists o, outcome data (to_yf_symbol t) = Ok o /\
                 row = summary_row_of t (to_yf_symbol t) o)
    tickers new_rows.
Proof.
  revert new_rows. induction tickers as [|t ts IH]; intros new_rows Hf;
    inversion Hf; subst.
  - split; [reflexivity | constructor].
  - destruct (IH _ H3) as [Hm Hrest].
    destruct H1 as [o [Ho [-> Hn]]]. cbn [fst snd] in *.
    split.
    + simpl. rewrite Hm. now destruct o.
    + constructor; [|exact Hrest].
      repeat split; try (now destruct o); try exact Hn.
      exists o. auto.
Qed.

(** C5. A run that returns has one summary row per input ticker, in the
    order of the tickers; the row of a ticker carries the ticker, its
    provider symbol and the note of its outcome: "No data" when the slice
    is absent or empty, "Empty after normalization" when the slice is not
    empty and normalization gives no row, the empty string otherwise.
    The run returns whenever the ticker list is parsed, is not empty and
    no normalization raises. *)
Theorem summary_rows_follow_tickers
  (literal_eval json_loads : string -> option pyval)
  (response_text : string) (yf_download : list string -> option DataFrame)
  (tickers : list string) :
  get_egx_tickers literal_eval json_loads response_text = Ok tickers ->
  tickers <> [] ->
  let data := yf_download (map to_yf_symbol tickers) in
  let run := download_and_write_excel literal_eval json_loads response_text
               yf_download in
  (forall acc, run = Ok acc ->
     List.length (summary_rows acc) = List.length tickers /\
     map original_ticker (summary_rows acc) = tickers /\
     Forall2
       (fun t row =>
          original_ticker row = t /\
          yf_symbol row = to_yf_symbol t /\
          note_matches data (to_yf_symbol t) (note row) /\
          exists o, outcome data (to_yf_symbol t) = Ok o /\
                    row = summary_row_of t (to_yf_symbol t) o)
       tickers (summary_rows acc)) /\
  ((forall t, In t tickers ->
              exists o, outcome data (to_yf_symbol t) = Ok o) ->
   exists acc, run = Ok acc).
Proof.
  intros Hg Hne data run. split.
  - intros acc Hrun.
    destruct (run_inv _ _ _ _ _ Hrun) as [tickers' [Hg' [_ Hloop]]].
    rewrite Hg in Hg'. injection Hg' as <-.
    destruct (for_each_process _ _ _ _ Hloop) as [rows' [Hs [Hf _]]].
    cbn [summary_rows app] in Hs. rewrite Hs.
    destruct (rows_for_tickers _ _ _ Hf) as [Hm H2].
    split; [symmetry; exact (Forall2_length H2)|].
    split; [exact Hm | exact H2].
  - intros Ho. now apply (run_returns _ _ _ _ tickers).
Qed.

Lemma summary_rows_follow_tickers_witness :
  get_egx_tickers ref_literal_eval ref_json_loads "['AAA','BBB', 'CCC']" =
    Ok ["AAA"; "BBB"; "CCC"] /\
  exists acc,
    download_and_write_excel ref_literal_eval ref_json_loads
      "['AAA','BBB', 'CCC']" Examples.download = Ok acc /\
    map original_ticker (summary_rows acc) = ["AAA"; "BBB"; "CCC"] /\
    map note (summary_rows acc) =
      [""; "Empty after normalization"; "No data"].
Proof.
  assert (Hg : get_egx_tickers ref_literal_eval ref_json_loads
                 "['AAA','BBB', 'CCC']" = Ok ["AAA"; "BBB"; "CCC"])
    by (vm_compute; reflexivity).
  split; [exact Hg|].
  eexists.
  match goal with
  | |- ?run = Ok ?acc /\ _ =>
      assert (Hrun : run = Ok acc) by (vm_compute; reflexivity)
  end.
  split; [exact Hrun|].
  split; [|reflexivity].
  assert (Hne : ["AAA"; "BBB"; "CCC"] <> @nil string) by discriminate.
  exact (proj1 (proj2 (proj1
           (summary_rows_follow_tickers ref_literal_eval ref_json_loads
              "['AAA','BBB', 'CCC']" Examples.download
              ["AAA"; "BBB"; "CCC"] Hg Hne) _ Hrun))).
Defined.

(** * Further properties *)

(** ** Sheet names *)

Section SheetNameFacts.

Lemma substring_0_length (n : nat) (s : string) :
  String.length (substring 0 n s) = Nat.min n (String.length s).
Proof.
  revert s. induction n as [|n IH]; intros [|c s]; simpl; try reflexivity.
  now rewrite IH.
Qed.

Lemma map_chars_length (f : ascii -> ascii) (s : string) :
  String.length (Text.map_chars f s) = String.length s.
Proof. induction s as [|c s IH]; simpl; [reflexivity | now rewrite IH]. Qed.

Lemma take_map_chars (f : ascii -> ascii) (n : nat) (s : string) :
  Text.take n (Text.map_chars f s) = Text.map_chars f (Text.take n s).
Proof.
  unfold Text.take. revert s.
  induction n as [|n IH]; intros [|c s]; simpl; try reflexivity.
  now rewrite IH.
Qed.

Lemma take_take (n : nat) (s : string) :
  Text.take n (Text.take n s) = Text.take n s.
Proof.
  unfold Text.take. revert s.
  induction n as [|n IH]; intros [|c s]; simpl; try reflexivity.
  now rewrite IH.
Qed.

Lemma take_append (n : nat) (s rest : string) :
  n <= String.length s -> Text.take n (s ++ rest) = Text.take n s.
Proof.
  unfold Text.take. revert s.
  induction n as [|n IH]; intros [|c s] H; simpl in *; try reflexivity;
    try lia.
  - now destruct rest.
  - rewrite IH by lia. reflexivity.
Qed.

Lemma map_chars_append (f : ascii -> ascii) (a b : string) :
  Text.map_chars f (a ++ b) = Text.map_chars f a ++ Text.map_chars f b.
Proof. induction a as [|c a IH]; simpl; [reflexivity | now rewrite IH]. Qed.

Lemma map_chars_twice (f : ascii -> ascii) (s : string) :
  (forall c, f (f c) = f c) ->
  Text.map_chars f (Text.map_chars f s) = Text.map_chars f s.
Proof.
  intros Hf. induction s as [|c s IH]; simpl; [reflexivity|].
  now rewrite Hf, IH.
Qed.

Lemma sheet_char_allowed (c : ascii) : sheet_forbidden (sheet_char c) = false.
Proof. destruct c as [[] [] [] [] [] [] [] []]; reflexivity. Qed.

Lemma sheet_char_twice (c : ascii) : sheet_char (sheet_char c) = sheet_char c.
Proof.
  unfold sheet_char at 1. now rewrite sheet_char_allowed.
Qed.

Lemma contains_take (c : ascii) (n : nat) (s : string) :
  Py.contains c (Text.take n s) = true -> Py.contains c s = true.
Proof.
  unfold Text.take. revert s.
  induction n as [|n IH]; intros [|a s]; simpl; try discriminate.
  intros H. apply orb_true_iff in H as [H|H].
  - now rewrite H.
  - rewrite (IH _ H). apply orb_true_r.
Qed.

Lemma contains_map_chars (f : ascii -> ascii) (c : ascii) (s : string) :
  Py.contains c (Text.map_chars f s) = true -> exists a, f a = c.
Proof.
  induction s as [|a s IH]; simpl; [discriminate|].
  intros H. apply orb_true_iff in H as [H|H]; [|now apply IH].
  apply Ascii.eqb_eq in H. now exists a.
Qed.

Lemma get_map_chars (f : ascii -> ascii) (i : nat) (s : string) :
  String.get i (Text.map_chars f s) = option_map f (String.get i s).
Proof.
  revert i. induction s as [|c s IH]; intros [|i]; simpl; try reflexivity.
  apply IH.
Qed.

Lemma get_take (n i : nat) (s : string) :
  i < n -> String.get i (Text.take n s) = String.get i s.
Proof.
  unfold Text.take. revert i s.
  induction n as [|n IH]; intros i s H; [lia|].
  destruct s as [|c s]; [reflexivity|].
  destruct i as [|i]; simpl; [reflexivity|]. apply IH. lia.
Qed.

End SheetNameFacts.

(** X1. A sheet name has at most 31 characters (the first 31 of the
    ticker), holds none of the characters [: \ / ? * [ ]], keeps every
    other character of the ticker in its place, and is left unchanged by a
    second sanitization. *)
Theorem sanitize_sheet_name_safe (name : string) :
  String.length (sanitize_sheet_name name) =
    Nat.min 31 (String.length name) /\
  (forall c, sheet_forbidden c = true ->
             Py.contains c (sanitize_sheet_name name) = false) /\
  (forall i, i < 31 ->
             String.get i (sanitize_sheet_name name) =
             option_map (fun c => if sheet_forbidden c then "_"%char else c)
               (String.get i name)) /\
  sanitize_sheet_name (sanitize_sheet_name name) = sanitize_sheet_name name.
Proof.
  unfold sanitize_sheet_name. fold sheet_char.
  change (fun c => sheet_char c) with sheet_char.
  split; [|split; [|split]].
  - unfold Text.take. now rewrite substring_0_length, map_chars_length.
  - intros c Hc.
    destruct (Py.contains c (Text.take 31 (Text.map_chars sheet_char name)))
      eqn:E; [|reflexivity].
    apply contains_take, contains_map_chars in E as [a <-].
    rewrite sheet_char_allowed in Hc. discriminate.
  - intros i Hi. rewrite get_take by exact Hi. apply get_map_chars.
  - rewrite (take_map_chars sheet_char 31 (Text.take 31 _)), take_take.
    rewrite take_map_chars.
    now rewrite (map_chars_twice sheet_char _ sheet_char_twice).
Qed.

(** X2. Sheet names do not tell apart two tickers that agree on their
    first 31 characters, nor two tickers that differ only in forbidden
    characters: both are written to the same sheet. *)
Theorem sanitize_sheet_name_collides (name rest1 rest2 : string) :
  31 <= String.length name ->
  sanitize_sheet_name (name ++ rest1) = sanitize_sheet_name (name ++ rest2) /\
  (forall a b : string,
      Text.map_chars sheet_char a = Text.map_chars sheet_char b ->
      sanitize_sheet_name a = sanitize_sheet_name b).
Proof.
  intros H. unfold sanitize_sheet_name. fold sheet_char.
  change (fun c => sheet_char c) with sheet_char. split.
  - rewrite !map_chars_append, !take_append;
      rewrite ?map_chars_length; auto.
  - intros a b E. now rewrite E.
Qed.

Lemma sanitize_sheet_name_collides_witness :
  31 <= String.length "ABCDEFGHIJKLMNOPQRSTUVWXYZ01234" /\
  sanitize_sheet_name "ABCDEFGHIJKLMNOPQRSTUVWXYZ01234/X" =
  sanitize_sheet_name "ABCDEFGHIJKLMNOPQRSTUVWXYZ01234?Y".
Proof.
  split; [simpl; lia|].
  apply (proj1 (sanitize_sheet_name_collides
                  "ABCDEFGHIJKLMNOPQRSTUVWXYZ01234" "/X" "?Y"
                  ltac:(simpl; lia))).
Defined.

(** ** Provider symbols *)

(** X3. The provider symbol always ends with the suffix and always starts
    with the ticker: it is the ticker, or the ticker followed by the
    suffix once. *)
Theorem to_yf_symbol_carries_suffix (s t : string) :
  Text.endswith (to_yf_symbol_for s t) s = true /\
  (to_yf_symbol_for s t = t \/ to_yf_symbol_for s t = t ++ s) /\
  String.length t <= String.length (to_yf_symbol_for s t)
    <= String.length t + String.length s.
Proof.
  unfold to_yf_symbol_for.
  destruct (Text.nonempty s) eqn:Hs; simpl.
  - destruct (Text.endswith t s) eqn:He; simpl.
    + split; [exact He|]. split; [now left | lia].
    + split; [apply endswith_append|]. split; [now right|].
      rewrite length_append. lia.
  - destruct s; [|discriminate]. split.
    + apply endswith_spec. exists t. now rewrite append_empty_r.
    + split; [now left | simpl; lia].
Qed.

(** ** The normalized frame *)

Section NormalizedFacts.

Lemma key_le_total (a b : cell) :
  Pd.key_le a b = false -> Pd.key_le b a = true.
Proof.
  destruct a as [|x|x], b as [|y|y]; simpl; try discriminate; try reflexivity.
  - intros H. apply Qle_bool_iff. apply Qlt_le_weak. apply Qnot_le_lt.
    intros Hle. apply Qle_bool_iff in Hle. congruence.
  - intros H. apply Z.leb_le. apply Z.leb_gt in H. lia.
Qed.

Lemma insert_row_ordered (r : unit * list cell) (l : list (unit * list cell)) :
  Sorted key_ordered l -> Sorted key_ordered (Pd.insert_row date_key r l).
Proof.
  induction l as [|x l IH]; simpl; intros Hs.
  - repeat constructor.
  - destruct (Pd.key_le (date_key (snd r)) (date_key (snd x))) eqn:E.
    + constructor; [exact Hs|]. constructor. exact E.
    + apply Sorted_inv in Hs as [Hl Hx].
      constructor; [now apply IH|].
      destruct l as [|y l]; simpl.
      * constructor. now apply key_le_total.
      * destruct (Pd.key_le (date_key (snd r)) (date_key (snd y))).
        -- constructor. now apply key_le_total.
        -- constructor. now inversion Hx.
Qed.

Lemma sort_rows_ordered (l : list (unit * list cell)) :
  Sorted key_ordered (Pd.sort_rows date_key l).
Proof.
  induction l as [|x l IH]; [constructor|].
  unfold Pd.sort_rows in *. simpl. now apply insert_row_ordered.
Qed.

Lemma key_le_date_le (a b : cell) :
  dated a -> dated b -> Pd.key_le a b = true -> date_le a b.
Proof.
  destruct a, b; simpl; try tauto; try discriminate.
  intros _ _ H. now apply Z.leb_le.
Qed.

Lemma date_le_trans (a b c : cell) :
  date_le a b -> date_le b c -> date_le a c.
Proof.
  destruct a, b, c; simpl; try tauto. lia.
Qed.

Lemma ordered_dates (l : list (unit * list cell)) :
  Forall (fun r => dated (date_key (snd r))) l ->
  Sorted key_ordered l ->
  StronglySorted
    (fun r1 r2 => date_le (date_key (snd r1)) (date_key (snd r2))) l.
Proof.
  induction l as [|x l IH]; intros Hd Hs; [constructor|].
  apply Forall_cons_iff in Hd as [Hx Hd].
  apply Sorted_inv in Hs as [Hs Hhd].
  specialize (IH Hd Hs). constructor; [exact IH|].
  destruct l as [|y l]; [constructor|].
  apply HdRel_inv in Hhd.
  apply Forall_cons_iff in Hd as [Hy Hd].
  assert (Hxy : date_le (date_key (snd x)) (date_key (snd y)))
    by now apply key_le_date_le.
  constructor; [exact Hxy|].
  apply StronglySorted_inv in IH as [_ Hall].
  rewrite Forall_forall in *. intros z Hz.
  exact (date_le_trans _ _ _ Hxy (Hall z Hz)).
Qed.

Lemma canonical_dated (df : Frame (option Z)) (r0 : option Z * list cell) :
  dated (date_key (snd (canonical df r0))).
Proof.
  unfold canonical, date_key. simpl.
  destruct (date_kept df); [|exact I]. now destruct (fst r0).
Qed.

End NormalizedFacts.

(** X4. The rows of a normalized frame are in ascending order of Date,
    rows without a date last: every row's date is at most the date of every
    later row. *)
Theorem normalize_ohlcv_sorted_by_date
  (df : Frame (option Z)) (out : Frame unit) :
  well_formed df ->
  normalize_ohlcv df = Ok out ->
  StronglySorted
    (fun r1 r2 => date_le (Pd.cell_at COLS (snd r1) "Date")
                          (Pd.cell_at COLS (snd r2) "Date"))
    (rows out).
Proof.
  intros Hwf Hout. rewrite (normalize_ohlcv_spec df out Hwf Hout).
  cbn [rows].
  change (fun r1 r2 : unit * list cell =>
            date_le (Pd.cell_at COLS (snd r1) "Date")
                    (Pd.cell_at COLS (snd r2) "Date"))
    with (fun r1 r2 : unit * list cell =>
            date_le (date_key (snd r1)) (date_key (snd r2))).
  apply ordered_dates; [|apply sort_rows_ordered].
  apply Forall_forall. intros r Hr.
  apply sort_rows_In, in_map_iff in Hr as [r0 [<- _]].
  apply canonical_dated.
Qed.

Lemma normalize_ohlcv_sorted_by_date_witness :
  well_formed Series.unsorted /\
  normalize_ohlcv Series.unsorted = Ok Series.unsorted_out /\
  StronglySorted
    (fun r1 r2 => date_le (Pd.cell_at COLS (snd r1) "Date")
                          (Pd.cell_at COLS (snd r2) "Date"))
    (rows Series.unsorted_out).
Proof.
  assert (Hwf : well_formed Series.unsorted).
  { split; simpl.
    - repeat constructor; simpl; intuition discriminate.
    - repeat constructor. }
  split; [exact Hwf|]. split; [reflexivity|].
  exact (normalize_ohlcv_sorted_by_date Series.unsorted
           Series.unsorted_out Hwf eq_refl).
Defined.

Lemma filter_none {A : Type} (p : A -> bool) (l : list A) :
  (forall x, In x l -> p x = false) -> filter p l = [].
Proof.
  induction l as [|x l IH]; intros H; [reflexivity|]. simpl.
  rewrite (H x (or_introl eq_refl)). apply IH.
  intros y Hy. apply H. now right.
Qed.

Lemma filter_all {A : Type} (p : A -> bool) (l : list A) :
  (forall x, In x l -> p x = true) -> filter p l = l.
Proof.
  induction l as [|x l IH]; intros H; [reflexivity|]. simpl.
  rewrite (H x (or_introl eq_refl)). f_equal. apply IH.
  intros y Hy. apply H. now right.
Qed.

(** X5. Normalization never adds a row: the frame has as many rows as the
    series has complete rows, so at most as many as the series; a series
    whose rows are all incomplete, or that has no row, gives a frame
    without rows. *)
Theorem normalize_ohlcv_row_count
  (df : Frame (option Z)) (out : Frame unit) :
  well_formed df ->
  normalize_ohlcv df = Ok out ->
  List.length (rows out) =
    List.length (filter (fun r => complete df (snd r)) (rows df)) /\
  List.length (rows out) <= List.length (rows df) /\
  ((forall r, In r (rows df) -> complete df (snd r) = false) ->
   rows out = []) /\
  ((forall r, In r (rows df) -> complete df (snd r) = true) ->
   List.length (rows out) = List.length (rows df)).
Proof.
  intros Hwf Hout. rewrite (normalize_ohlcv_spec df out Hwf Hout).
  cbn [rows].
  assert (Hlen : List.length
            (Pd.sort_rows date_key
               (map (canonical df)
                  (filter (fun r => complete df (snd r)) (rows df)))) =
          List.length (filter (fun r => complete df (snd r)) (rows df))).
  { rewrite (Permutation_length (sort_rows_perm _ _)). apply length_map. }
  split; [exact Hlen|]. split; [|split].
  - rewrite Hlen. apply filter_length_le.
  - intros Hall.
    now rewrite (filter_none (fun r => complete df (snd r)) _ Hall).
  - intros Hall. rewrite Hlen.
    now rewrite (filter_all (fun r => complete df (snd r)) _ Hall).
Qed.

Lemma normalize_ohlcv_row_count_witness :
  well_formed Examples.two_rows /\
  List.length (rows Examples.two_rows_out) = 1 /\
  List.length (rows Examples.two_rows_out) <=
    List.length (rows Examples.two_rows).
Proof.
  split; [exact well_formed_two_rows|].
  split; [reflexivity|].
  exact (proj1 (proj2 (normalize_ohlcv_row_count Examples.two_rows
                         Examples.two_rows_out well_formed_two_rows
                         eq_refl))).
Defined.

Lemma normalize_ohlcv_label (df : Frame (option Z)) :
  Pd.index_label
    (Pd.dropna (Pd.select (keep (with_adj_close df)) (with_adj_close df))) =
  Pd.index_label df.
Proof.
  unfold with_adj_close, Pd.index_label. simpl. now destruct (negb _ && _).
Qed.

Lemma normalize_ohlcv_cases (df : Frame (option Z)) :
  (In (Pd.index_label df) (keep (with_adj_close df)) /\
   normalize_ohlcv df = Raise (cannot_insert (Pd.index_label df))) \/
  (~ In (Pd.index_label df) (keep (with_adj_close df)) /\
   exists out, normalize_ohlcv df = Ok out).
Proof.
  unfold normalize_ohlcv, Pd.reset_index, cannot_insert.
  rewrite normalize_ohlcv_label.
  destruct (Pd.has_column (Pd.index_label df) _) eqn:Hname.
  - apply has_column_In in Hname. simpl in Hname. cbn [bind]. now left.
  - apply has_column_false in Hname. simpl in Hname. cbn [bind].
    right. split; [exact Hname|]. eexists. reflexivity.
Qed.

Lemma index_clash_kept (df : Frame (option Z)) :
  index_clash df <-> In (Pd.index_label df) (keep (with_adj_close df)).
Proof.
  unfold index_clash, keep. rewrite filter_In, with_adj_close_has.
  rewrite orb_true_iff, andb_true_iff, String.eqb_eq, !has_column_In.
  tauto.
Qed.

(** X6. Normalization of a well-formed series raises exactly when the
    index is named after a recognized field found among the kept columns:
    a field that is a column of the series, or Adj Close when the series
    has a Close column to copy it from.  The error is the ValueError with
    which [reset_index] refuses to insert a label that is already a
    column.  A series whose index has no name, or is named Date, is always
    normalized. *)
Theorem normalize_ohlcv_raises (df : Frame (option Z)) :
  well_formed df ->
  (index_clash df ->
   normalize_ohlcv df = Raise (cannot_insert (Pd.index_label df))) /\
  (~ index_clash df -> exists out, normalize_ohlcv df = Ok out) /\
  (index_name df = None \/ index_name df = Some "Date" ->
   exists out, normalize_ohlcv df = Ok out).
Proof.
  intros _. rewrite index_clash_kept.
  destruct (normalize_ohlcv_cases df) as [[Hin Hr]|[Hn [out Ho]]].
  - split; [intros _; exact Hr|]. split; [tauto|].
    apply keep_recognized in Hin. unfold Pd.index_label in Hin.
    intros [E|E]; rewrite E in Hin; simpl in Hin;
      exfalso; intuition discriminate.
  - split; [tauto|]. split; intros _; now exists out.
Qed.

Lemma normalize_ohlcv_raises_witness :
  well_formed Extra.index_named_adj_close /\
  index_clash Extra.index_named_adj_close /\
  normalize_ohlcv Extra.index_named_adj_close =
    Raise (ValueError "cannot insert Adj Close, already exists").
Proof.
  assert (Hwf : well_formed Extra.index_named_adj_close).
  { split; simpl.
    - repeat constructor; simpl; intuition discriminate.
    - repeat constructor. }
  assert (Hclash : index_clash Extra.index_named_adj_close).
  { split; simpl; auto 10. }
  split; [exact Hwf|]. split; [exact Hclash|].
  exact (proj1 (normalize_ohlcv_raises _ Hwf) Hclash).
Defined.

(** X7. When the index is named ["date"] in a letter case other than
    ["Date"], it is not renamed, and the Date column of the normalized
    frame is missing in every row; for any other index name the Date of an
    emitted row is the index label of the input row it comes from. *)
Theorem normalize_ohlcv_date_column
  (df : Frame (option Z)) (out : Frame unit) :
  well_formed df ->
  normalize_ohlcv df = Ok out ->
  ((Text.lower (Pd.index_label df) = "date" /\ Pd.index_label df <> "Date") ->
   forall r, In r (rows out) -> Pd.cell_at COLS (snd r) "Date" = NA) /\
  ((Text.lower (Pd.index_label df) <> "date" \/ Pd.index_label df = "Date") ->
   forall r, In r (rows out) ->
             exists r0, In r0 (rows df) /\
                        Pd.cell_at COLS (snd r) "Date" =
                        Pd.label_cell (fst r0)).
Proof.
  intros Hwf Hout.
  pose proof (normalize_ohlcv_rows df out Hwf Hout) as Hrows.
  split.
  - intros [Hlow Hne] r Hr. apply Hrows in Hr as [r0 [_ [_ ->]]].
    unfold canonical, date_kept. simpl.
    apply String.eqb_eq in Hlow. apply String.eqb_neq in Hne.
    now rewrite Hlow, Hne.
  - intros Hn r Hr. apply Hrows in Hr as [r0 [Hr0 [_ ->]]].
    exists r0. split; [exact Hr0|].
    unfold canonical, date_kept. simpl.
    destruct Hn as [Hn|Hn].
    + apply String.eqb_neq in Hn. now rewrite Hn.
    + apply String.eqb_eq in Hn. rewrite Hn. now rewrite orb_true_r.
Qed.

Lemma normalize_ohlcv_date_column_witness :
  well_formed Series.lower_date /\
  (exists out, normalize_ohlcv Series.lower_date = Ok out /\
               rows out <> [] /\
               forall r, In r (rows out) ->
                         Pd.cell_at COLS (snd r) "Date" = NA).
Proof.
  assert (Hwf : well_formed Series.lower_date).
  { split; simpl.
    - repeat constructor; simpl; intuition discriminate.
    - repeat constructor. }
  split; [exact Hwf|].
  eexists. split; [reflexivity|]. split; [discriminate|].
  apply (proj1 (normalize_ohlcv_date_column Series.lower_date _ Hwf
                  eq_refl)).
  split; [reflexivity | discriminate].
Defined.

(** ** Slices of the bulk response *)

Section SliceFacts.

Lemma pick_map {A B : Type} (g : A -> B) (mask : list bool) (l : list A) :
  Pd.pick mask (map g l) = map g (Pd.pick mask l).
Proof.
  revert l. induction mask as [|b mask IH]; intros [|x l]; simpl;
    try reflexivity; try (now destruct b).
  destruct b; simpl; now rewrite IH.
Qed.

Lemma pick_length {A B : Type} (mask : list bool) (l : list A) (l' : list B) :
  List.length l = List.length l' ->
  List.length (Pd.pick mask l) = List.length (Pd.pick mask l').
Proof.
  revert l l'. induction mask as [|b mask IH]; intros [|x l] [|y l'] H;
    simpl in *; try reflexivity; try discriminate; try (now destruct b).
  destruct b; simpl; rewrite (IH l l'); auto.
Qed.

Lemma swap_levels_level0 (sym : string) (m : MultiFrame) :
  Pd.in_level0 sym (swap_levels m) = Pd.in_level1 sym m.
Proof.
  unfold Pd.in_level0, Pd.in_level1, swap_levels. simpl.
  now rewrite existsb_map.
Qed.

Lemma swap_levels_level1 (sym : string) (m : MultiFrame) :
  Pd.in_level1 sym (swap_levels m) = Pd.in_level0 sym m.
Proof.
  unfold Pd.in_level0, Pd.in_level1, swap_levels. simpl.
  now rewrite existsb_map.
Qed.

Lemma swap_levels_empty (m : MultiFrame) :
  Pd.m_empty (swap_levels m) = Pd.m_empty m.
Proof.
  unfold Pd.m_empty, swap_levels. simpl. now destruct (m_columns m).
Qed.

Lemma swap_levels_xs (sym : string) (m : MultiFrame) :
  Pd.xs_level1 (swap_levels m) sym = Pd.getitem_group m sym.
Proof.
  unfold Pd.xs_level1, Pd.getitem_group, swap_levels. simpl.
  rewrite map_map. simpl. now rewrite pick_map, map_map.
Qed.

Lemma swap_levels_group (sym : string) (m : MultiFrame) :
  Pd.getitem_group (swap_levels m) sym = Pd.xs_level1 m sym.
Proof.
  unfold Pd.xs_level1, Pd.getitem_group, swap_levels. simpl.
  rewrite map_map. simpl. now rewrite pick_map, map_map.
Qed.

Lemma existsb_pick_nonempty {A : Type} (p : A -> bool) (l : list A) :
  existsb p l = true -> Pd.pick (map p l) l <> [].
Proof.
  rewrite pick_filter. induction l as [|x l IH]; simpl; [discriminate|].
  destruct (p x); [discriminate | exact IH].
Qed.

End SliceFacts.

(** X8. The slicer gives the same series whether the symbols are the outer
    or the inner level of the columns, provided the symbol is not also a
    label of the other level: slicing the response with its two levels
    exchanged gives the slice of the response itself. *)
Theorem slice_either_level_order (m : MultiFrame) (sym : string) :
  ~ In sym (map snd (m_columns m)) ->
  _slice_ticker_from_download (Some (Multi (swap_levels m))) sym =
  _slice_ticker_from_download (Some (Multi m)) sym.
Proof.
  intros Hn. simpl.
  assert (H1 : Pd.in_level1 sym m = false).
  { destruct (Pd.in_level1 sym m) eqn:E; [|reflexivity].
    apply in_level1_In in E. tauto. }
  rewrite swap_levels_level0, swap_levels_level1, H1, swap_levels_xs.
  rewrite swap_levels_empty.
  now destruct (Pd.m_empty m), (Pd.in_level0 sym m).
Qed.

Lemma slice_either_level_order_witness :
  ~ In "AAA" (map snd (m_columns Examples.by_symbol)) /\
  _slice_ticker_from_download
    (Some (Multi (swap_levels Examples.by_symbol))) "AAA" =
  _slice_ticker_from_download (Some (Multi Examples.by_symbol)) "AAA".
Proof.
  assert (H : ~ In "AAA" (map snd (m_columns Examples.by_symbol))).
  { simpl. intuition discriminate. }
  split; [exact H|].
  exact (slice_either_level_order Examples.by_symbol "AAA" H).
Defined.

(** X9. A slice is never empty: when the slicer returns a series, the
    series has at least one row and one column, and it has the index of
    the response, row by row.  The emptiness test that the orchestrator
    makes on a slice (line 100) can therefore only fail through [None]. *)
Theorem slice_is_never_empty (df : DataFrame) (sym : string)
  (f : Frame (option Z)) :
  _slice_ticker_from_download (Some df) sym = Some f ->
  Pd.empty f = false /\
  map fst (rows f) =
    match df with
    | Flat g => map fst (rows g)
    | Multi m => map fst (m_rows m)
    end.
Proof.
  destruct df as [g|m]; simpl.
  - destruct (Pd.empty g) eqn:E; [discriminate|].
    intros [= <-]. auto.
  - destruct (Pd.m_empty m) eqn:E; [discriminate|].
    unfold Pd.m_empty in E. apply orb_false_elim in E as [Er Ec].
    destruct (Pd.in_level0 sym m) eqn:E0.
    + intros [= <-]. unfold Pd.empty, Pd.getitem_group. simpl.
      split; [|now rewrite map_map].
      apply orb_false_intro.
      * destruct (m_rows m); [discriminate | reflexivity].
      * pose proof (existsb_pick_nonempty _ _ E0) as Hp.
        destruct (Pd.pick _ (m_columns m)); [congruence | reflexivity].
    + destruct (Pd.in_level1 sym m) eqn:E1; [|discriminate].
      intros [= <-]. unfold Pd.empty, Pd.xs_level1. simpl.
      split; [|now rewrite map_map].
      apply orb_false_intro.
      * destruct (m_rows m); [discriminate | reflexivity].
      * pose proof (existsb_pick_nonempty _ _ E1) as Hp.
        destruct (Pd.pick _ (m_columns m)); [congruence | reflexivity].
Qed.

Lemma slice_is_never_empty_witness :
  exists f,
    _slice_ticker_from_download (Some (Multi Examples.by_symbol)) "BBB" =
      Some f /\
    Pd.empty f = false.
Proof.
  eexists. split; [reflexivity|].
  exact (proj1 (slice_is_never_empty (Multi Examples.by_symbol) "BBB" _
                  eq_refl)).
Defined.

Lemma NoDup_group {A B : Type} (p : A -> bool) (l : list (A * B)) (a : A) :
  (forall x, p x = true -> x = a) ->
  NoDup l -> NoDup (map snd (filter (fun c => p (fst c)) l)).
Proof.
  intros Hp. induction l as [|[x y] l IH]; intros Hn; simpl;
    [constructor|].
  apply NoDup_cons_iff in Hn as [Hx Hn].
  destruct (p x) eqn:E; simpl; [|now apply IH].
  constructor; [|now apply IH].
  intros Hy. apply in_map_iff in Hy as [[x' y'] [Ey Hin]].
  simpl in Ey. subst y'. apply filter_In in Hin as [Hin Hp'].
  simpl in Hp'. apply Hp in E, Hp'. subst. tauto.
Qed.

Lemma NoDup_cross {A B : Type} (p : B -> bool) (l : list (A * B)) (b : B) :
  (forall y, p y = true -> y = b) ->
  NoDup l -> NoDup (map fst (filter (fun c => p (snd c)) l)).
Proof.
  intros Hp. induction l as [|[x y] l IH]; intros Hn; simpl;
    [constructor|].
  apply NoDup_cons_iff in Hn as [Hx Hn].
  destruct (p y) eqn:E; simpl; [|now apply IH].
  constructor; [|now apply IH].
  intros Hy. apply in_map_iff in Hy as [[x' y'] [Ey Hin]].
  simpl in Ey. subst x'. apply filter_In in Hin as [Hin Hp'].
  simpl in Hp'. apply Hp in E, Hp'. subst. tauto.
Qed.

(** X10. The slice of a well-formed response is a well-formed series: its
    column labels are distinct and every row has one cell per column, so
    the normalizer receives the frames it is specified on. *)
Theorem slice_is_well_formed (df : DataFrame) (sym : string)
  (f : Frame (option Z)) :
  well_formed_response df ->
  _slice_ticker_from_download (Some df) sym = Some f ->
  well_formed f.
Proof.
  destruct df as [g|m]; simpl.
  - intros Hwf. destruct (Pd.empty g); [discriminate|]. now intros [= <-].
  - intros [Hn Hal]. destruct (Pd.m_empty m); [discriminate|].
    assert (Hrows : forall mask : list bool,
              Forall (fun r : option Z * list cell =>
                        List.length (snd r) =
                        List.length (Pd.pick mask (m_columns m)))
                (map (fun r => (fst r, Pd.pick mask (snd r))) (m_rows m))).
    { intros mask. apply Forall_forall. intros r Hr.
      apply in_map_iff in Hr as [r0 [<- Hr0]]. simpl.
      apply pick_length. rewrite Forall_forall in Hal. now apply Hal. }
    destruct (Pd.in_level0 sym m).
    + intros [= <-]. unfold well_formed, Pd.getitem_group. simpl. split.
      * rewrite pick_filter.
        apply (NoDup_group (fun x => (x =? sym)%string) _ sym); [|exact Hn].
        intros x. apply String.eqb_eq.
      * rewrite length_map. apply Hrows.
    + destruct (Pd.in_level1 sym m); [|discriminate].
      intros [= <-]. unfold well_formed, Pd.xs_level1. simpl. split.
      * rewrite pick_filter.
        apply (NoDup_cross (fun x => (x =? sym)%string) _ sym); [|exact Hn].
        intros x. apply String.eqb_eq.
      * rewrite length_map. apply Hrows.
Qed.

Lemma slice_is_well_formed_witness :
  well_formed_response (Multi Examples.by_symbol) /\
  exists f,
    _slice_ticker_from_download (Some (Multi Examples.by_symbol)) "AAA" =
      Some f /\
    well_formed f.
Proof.
  assert (Hwf : well_formed_response (Multi Examples.by_symbol)).
  { split; simpl.
    - repeat constructor; simpl; intuition discriminate.
    - repeat constructor. }
  split; [exact Hwf|].
  eexists. split; [reflexivity|].
  exact (slice_is_well_formed (Multi Examples.by_symbol) "AAA" _ Hwf
           eq_refl).
Defined.

(** ** The ticker list *)

Section TickerFacts.

Lemma upper_char_twice (c : ascii) :
  Text.upper_char (Text.upper_char c) = Text.upper_char c.
Proof. destruct c as [[] [] [] [] [] [] [] []]; reflexivity. Qed.

Lemma upper_twice (s : string) : Text.upper (Text.upper s) = Text.upper s.
Proof. apply map_chars_twice, upper_char_twice. Qed.

Lemma lstrip_length (s : string) :
  String.length (Text.lstrip s) <= String.length s.
Proof.
  induction s as [|c s IH]; simpl; [lia|].
  destruct (Text.isspace c); simpl; lia.
Qed.

Lemma lstrip_fixed_head (c : ascii) (s : string) :
  Text.lstrip (String c s) = String c s -> Text.isspace c = false.
Proof.
  simpl. destruct (Text.isspace c); [|reflexivity].
  intros H. pose proof (lstrip_length s) as Hl. rewrite H in Hl.
  simpl in Hl. lia.
Qed.

Lemma lstrip_twice (s : string) :
  Text.lstrip (Text.lstrip s) = Text.lstrip s.
Proof.
  induction s as [|c s IH]; simpl; [reflexivity|].
  destruct (Text.isspace c) eqn:E; [exact IH|]. simpl. now rewrite E.
Qed.

Lemma rstrip_twice (s : string) :
  Text.rstrip (Text.rstrip s) = Text.rstrip s.
Proof.
  induction s as [|c s IH]; simpl; [reflexivity|].
  destruct (Text.rstrip s) as [|a r] eqn:E.
  - destruct (Text.isspace c) eqn:Ec; simpl; [reflexivity|].
    now rewrite Ec.
  - simpl. simpl in IH. rewrite IH. reflexivity.
Qed.

Lemma lstrip_rstrip (s : string) :
  Text.lstrip s = s -> Text.lstrip (Text.rstrip s) = Text.rstrip s.
Proof.
  destruct s as [|c s]; [reflexivity|].
  intros H. apply lstrip_fixed_head in H. simpl.
  destruct (Text.rstrip s); rewrite ?H; simpl; rewrite ?H; reflexivity.
Qed.

Lemma strip_twice (s : string) : Text.strip (Text.strip s) = Text.strip s.
Proof.
  unfold Text.strip.
  rewrite (lstrip_rstrip (Text.lstrip s) (lstrip_twice s)).
  apply rstrip_twice.
Qed.

Lemma map_chars_empty (f : ascii -> ascii) (s : string) :
  Text.map_chars f s = "" -> s = "".
Proof. destruct s; [reflexivity | discriminate]. Qed.

(** What a ticker of a parsed list looks like. *)
Lemma ticker_shape (items : list pyval) (s : string) :
  is_ticker_of items s ->
  s <> "" /\ Text.strip s = s /\ Text.upper s = s.
Proof.
  intros [t [_ [Hne ->]]]. split; [|split].
  - intros H. apply map_chars_empty in H. tauto.
  - rewrite strip_upper. now rewrite strip_twice.
  - apply upper_twice.
Qed.

Variable literal_eval : string -> option pyval.
Variable json_loads : string -> option pyval.

Lemma get_egx_tickers_ok (txt : string) (tickers : list string) :
  get_egx_tickers literal_eval json_loads txt = Ok tickers ->
  exists lst items,
    parse_ticker_list literal_eval json_loads (Text.strip txt) = Ok lst /\
    Py.truthy lst = true /\
    Py.iter lst = Ok items /\
    tickers = clean_tickers items.
Proof.
  unfold get_egx_tickers.
  destruct (parse_ticker_list _ _ _) as [lst|e]; [|discriminate].
  cbn [bind]. destruct (Py.truthy lst) eqn:Ht; [|discriminate].
  cbn [negb]. destruct (Py.iter lst) as [items|e] eqn:Ei; [|discriminate].
  cbn [bind]. intros [= <-]. exists lst, items.
  repeat split; (reflexivity || assumption).
Qed.

End TickerFacts.

(** X11. Whatever the text and whichever strategy parsed it, a returned
    ticker list is strictly ascending (so without duplicates) and each of
    its tickers is non-empty, has no whitespace at either end and is in
    upper case. *)
Theorem get_egx_tickers_canonical
  (literal_eval json_loads : string -> option pyval)
  (txt : string) (tickers : list string) :
  get_egx_tickers literal_eval json_loads txt = Ok tickers ->
  StronglySorted str_lt tickers /\
  NoDup tickers /\
  (forall t, In t tickers ->
             t <> "" /\ Text.strip t = t /\ Text.upper t = t).
Proof.
  intros H.
  destruct (get_egx_tickers_ok _ _ _ _ H) as [lst [items [_ [_ [_ ->]]]]].
  destruct (clean_tickers_spec items) as [Hs Hin].
  split; [exact Hs|]. split.
  - unfold clean_tickers, Py.set_of.
    apply (Permutation_NoDup (Permutation_sym (sorted_perm _))).
    apply NoDup_nodup.
  - intros t Ht. apply Hin in Ht. exact (ticker_shape _ _ Ht).
Qed.

Lemma get_egx_tickers_canonical_witness :
  get_egx_tickers ref_literal_eval ref_json_loads
    "tickers = ['bb', ' aa ', 'BB'];" = Ok ["AA"; "BB"] /\
  NoDup ["AA"; "BB"].
Proof.
  split; [reflexivity|].
  exact (proj1 (proj2
           (get_egx_tickers_canonical ref_literal_eval ref_json_loads
              "tickers = ['bb', ' aa ', 'BB'];" ["AA"; "BB"] eq_refl))).
Defined.

(** X12. Cleaning is stable: a returned ticker list, written back as a
    list of strings and parsed again, comes back unchanged. *)
Theorem get_egx_tickers_stable
  (literal_eval json_loads : string -> option pyval)
  (txt txt' : string) (tickers : list string) :
  get_egx_tickers literal_eval json_loads txt = Ok tickers ->
  tickers <> [] ->
  literal_eval (Text.strip txt') = Some (PyList (map PyStr tickers)) ->
  get_egx_tickers literal_eval json_loads txt' = Ok tickers.
Proof.
  intros H Hne Hl.
  destruct (get_egx_tickers_canonical _ _ _ _ H) as [Hs [_ Hshape]].
  rewrite (get_egx_tickers_strict _ _ _ _ Hl).
  assert (Ht : Py.truthy (PyList (map PyStr tickers)) = true)
    by (destruct tickers; [congruence | reflexivity]).
  rewrite Ht. f_equal. apply ascending_unique; [apply clean_tickers_spec | exact Hs|].
  intros s. rewrite (proj2 (clean_tickers_spec _)). unfold is_ticker_of.
  split.
  - intros [v [Hv [_ ->]]]. apply in_map_iff in Hv as [u [<- Hu]]. simpl.
    destruct (Hshape u Hu) as [_ [-> ->]]. exact Hu.
  - intros Hin. exists (PyStr s). simpl.
    destruct (Hshape s Hin) as [Hn [-> ->]].
    split; [now apply in_map|]. auto.
Qed.

Lemma get_egx_tickers_stable_witness :
  get_egx_tickers ref_literal_eval ref_json_loads
    "tickers = ['bb', ' aa ', 'BB'];" = Ok ["AA"; "BB"] /\
  get_egx_tickers ref_literal_eval ref_json_loads "['AA', 'BB']" =
    Ok ["AA"; "BB"].
Proof.
  split; [reflexivity|].
  apply (get_egx_tickers_stable ref_literal_eval ref_json_loads
           "tickers = ['bb', ' aa ', 'BB'];" "['AA', 'BB']" ["AA"; "BB"]
           eq_refl); [discriminate | reflexivity].
Defined.

(** ** The bracketed span of the fallback *)

Section SpanFacts.

Variable c : ascii.

Lemma from_first_spec (s s' : string) :
  Re.from_first c s = Some s' <->
  exists pre r, s = pre ++ String c r /\ Py.contains c pre = false /\
                s' = String c r.
Proof.
  split.
  - revert s'. induction s as [|a s IH]; simpl; intros s'; [discriminate|].
    destruct (Ascii.eqb a c) eqn:E.
    + apply Ascii.eqb_eq in E. subst a. intros [= <-].
      exists "", s. auto.
    + intros H. destruct (IH _ H) as [pre [r [-> [Hp ->]]]].
      exists (String a pre), r. simpl. rewrite E. auto.
  - intros [pre [r [-> [Hp ->]]]].
    induction pre as [|a pre IH]; simpl.
    + now rewrite Ascii.eqb_refl.
    + simpl in Hp. apply orb_false_elim in Hp as [Ha Hp].
      rewrite Ha. now apply IH.
Qed.

Lemma upto_last_none (s : string) :
  Re.upto_last c s = None <-> Py.contains c s = false.
Proof.
  induction s as [|a s IH]; simpl; [tauto|].
  destruct (Re.upto_last c s) as [p|].
  - split; [discriminate|]. intros H.
    apply orb_false_elim in H as [_ H]. apply IH in H. discriminate.
  - destruct (Ascii.eqb a c); simpl; [split; discriminate|].
    split; intros _; [now apply IH | reflexivity].
Qed.

Lemma upto_last_spec (s p : string) :
  Re.upto_last c s = Some p <->
  exists mid post, s = mid ++ String c post /\ Py.contains c post = false /\
                   p = mid ++ String c "".
Proof.
  split.
  - revert p. induction s as [|a s IH]; simpl; intros p; [discriminate|].
    destruct (Re.upto_last c s) as [p'|] eqn:E.
    + intros [= <-]. destruct (IH _ eq_refl) as [mid [post [-> [Hp ->]]]].
      exists (String a mid), post. auto.
    + destruct (Ascii.eqb a c) eqn:Ea; [|discriminate].
      apply Ascii.eqb_eq in Ea. subst a. intros [= <-].
      exists "", s. split; [reflexivity|]. split; [|reflexivity].
      now apply upto_last_none.
  - intros [mid [post [-> [Hp ->]]]].
    induction mid as [|a mid IH]; simpl.
    + apply upto_last_none in Hp. rewrite Hp. now rewrite Ascii.eqb_refl.
    + now rewrite IH.
Qed.

End SpanFacts.

(** X14. The fallback matches from the first opening bracket of the text
    to the last closing bracket after it, whatever lies between: it finds
    a span exactly when the text is [pre ++ "[" ++ mid ++ "]" ++ post]
    with no opening bracket in [pre] and no closing bracket in [post], and
    the span is then ["[" ++ mid ++ "]"].  Two lists in one text are thus
    taken as a single span. *)
Theorem search_brackets_greedy (txt span : string) :
  Re.search_brackets txt = Some span <->
  exists pre mid post,
    txt = pre ++ "[" ++ mid ++ "]" ++ post /\
    Py.contains "["%char pre = false /\
    Py.contains "]"%char post = false /\
    span = "[" ++ mid ++ "]".
Proof.
  unfold Re.search_brackets. split.
  - destruct (Re.from_first "["%char txt) as [s'|] eqn:Ef; [|discriminate].
    apply from_first_spec in Ef as [pre [r [-> [Hp ->]]]].
    destruct (Re.upto_last "]"%char r) as [p|] eqn:Eu; [|discriminate].
    apply upto_last_spec in Eu as [mid [post [-> [Hq ->]]]].
    intros [= <-]. exists pre, mid, post. auto.
  - intros [pre [mid [post [-> [Hp [Hq ->]]]]]].
    assert (Ef : Re.from_first "["%char
                   (pre ++ "[" ++ mid ++ "]" ++ post) =
                 Some ("[" ++ mid ++ "]" ++ post)).
    { apply from_first_spec. exists pre, (mid ++ "]" ++ post). auto. }
    rewrite Ef. simpl.
    assert (Eu : Re.upto_last "]"%char (mid ++ String "]" post) =
                 Some (mid ++ "]")).
    { apply upto_last_spec. exists mid, post. auto. }
    now rewrite Eu.
Qed.

(** ** The run as a whole *)

Section RunFacts.

Variable data : option DataFrame.

Lemma process_sheet (acc acc' : Accumulated) (orig yf_sym : string) :
  process data acc (orig, yf_sym) = Ok acc' ->
  (skip_symbol data (orig, yf_sym) = true /\ writes acc' = writes acc) \/
  (skip_symbol data (orig, yf_sym) = false /\
   exists sheet, writes acc' = (writes acc ++ [sheet])%list /\
                 sheet_for data (orig, yf_sym) sheet).
Proof.
  unfold process, skip_symbol, outcome, sheet_for. cbn [fst snd].
  destruct (_slice_ticker_from_download data yf_sym) as [df_t|].
  - destruct (Pd.empty df_t).
    + intros [= <-]. now left.
    + destruct (normalize_ohlcv df_t) as [df_norm|e] eqn:En; [|discriminate].
      cbn [bind]. rewrite (empty_normalized _ _ En).
      destruct (rows df_norm) as [|r rs] eqn:Er; simpl.
      * intros [= <-]. now left.
      * intros [= <-]. right. split; [reflexivity|].
        eexists. split; [reflexivity|]. simpl. split; [reflexivity|].
        exists df_t. rewrite Er. repeat split; [exact En | discriminate].
  - intros [= <-]. now left.
Qed.

Lemma for_each_sheets (pairs : list (string * string))
  (acc acc' : Accumulated) :
  for_each (process data) pairs acc = Ok acc' ->
  exists new_sheets,
    writes acc' = (writes acc ++ new_sheets)%list /\
    Forall2 (sheet_for data)
      (filter (fun p => negb (skip_symbol data p)) pairs) new_sheets.
Proof.
  revert acc. induction pairs as [|[orig sym] pairs IH]; intros acc;
    cbn [for_each].
  - intros [= <-]. exists []. simpl. rewrite app_nil_r. auto.
  - destruct (process data acc (orig, sym)) as [acc1|e] eqn:E1;
      [|simpl; discriminate].
    cbn [bind]. intros Hrest.
    destruct (IH _ Hrest) as [rest [Hs Hf]].
    destruct (process_sheet _ _ _ _ E1) as [[Hk H1]|[Hk [sheet [H1 Hsh]]]];
      cbn [filter]; rewrite Hk; cbn [negb].
    + exists rest. rewrite Hs, H1. auto.
    + exists (sheet :: rest). rewrite Hs, H1, <- app_assoc.
      split; [reflexivity|]. now constructor.
Qed.

End RunFacts.

Lemma filter_pairs (p : string * string -> bool) (l : list string) :
  filter p (map (fun orig => (orig, to_yf_symbol orig)) l) =
  map (fun orig => (orig, to_yf_symbol orig))
      (filter (fun t => p (t, to_yf_symbol t)) l).
Proof.
  induction l as [|t l IH]; simpl; [reflexivity|].
  destruct (p (t, to_yf_symbol t)); simpl; now rewrite IH.
Qed.

Lemma Forall2_map_l {A B C : Type} (R : B -> C -> Prop) (g : A -> B)
  (l : list A) (l' : list C) :
  Forall2 R (map g l) l' -> Forall2 (fun a c => R (g a) c) l l'.
Proof.
  revert l'. induction l as [|a l IH]; intros l' H; inversion H; subst;
    constructor; auto.
Qed.

Lemma filter_partition_length {A : Type} (p : A -> bool) (l : list A) :
  List.length (filter (fun x => negb (p x)) l) + List.length (filter p l) =
  List.length l.
Proof.
  induction l as [|x l IH]; simpl; [reflexivity|].
  destruct (p x); simpl; lia.
Qed.

Lemma sheet_names_In (names seen : list string) (n : string) :
  In n (sheet_names seen names) <-> In n names /\ ~ In n seen.
Proof.
  revert seen. induction names as [|x names IH]; intros seen; cbn [sheet_names].
  - simpl. tauto.
  - destruct (existsb (String.eqb x) seen) eqn:E.
    + rewrite IH. apply existsb_exists in E as [y [Hy Exy]].
      apply String.eqb_eq in Exy. subst y. simpl. split.
      * tauto.
      * intros [[<-|H] Hn]; tauto.
    + assert (Hx : ~ In x seen).
      { intros H. rewrite <- not_true_iff_false in E. apply E.
        apply existsb_exists. exists x. split; [exact H|].
        apply String.eqb_refl. }
      simpl. rewrite IH. simpl. split.
      * intros [<-|[H Hn]]; [tauto|]. split; [tauto|]. tauto.
      * intros [[<-|H] Hn]; [tauto|].
        destruct (string_dec x n) as [->|Hne]; [tauto|]. right. tauto.
Qed.

Lemma sheet_names_NoDup (names seen : list string) :
  NoDup (sheet_names seen names).
Proof.
  revert seen. induction names as [|x names IH]; intros seen; cbn [sheet_names].
  - constructor.
  - destruct (existsb (String.eqb x) seen); [apply IH|].
    constructor; [|apply IH]. rewrite sheet_names_In. simpl. tauto.
Qed.

Lemma sheet_names_length (names seen : list string) :
  List.length (sheet_names seen names) <= List.length names.
Proof.
  revert seen. induction names as [|x names IH]; intros seen; cbn [sheet_names].
  - reflexivity.
  - destruct (existsb (String.eqb x) seen); simpl.
    + specialize (IH seen). lia.
    + specialize (IH (x :: seen)). lia.
Qed.

Lemma sheet_names_distinct (names seen : list string) :
  NoDup names -> (forall n, In n names -> ~ In n seen) ->
  sheet_names seen names = names.
Proof.
  revert seen. induction names as [|x names IH]; intros seen Hnd Hseen;
    cbn [sheet_names]; [reflexivity|].
  inversion Hnd as [|? ? Hx Hnd']; subst.
  destruct (existsb (String.eqb x) seen) eqn:E.
  - apply existsb_exists in E as [y [Hy Exy]].
    apply String.eqb_eq in Exy. subst y.
    exfalso. apply (Hseen x); simpl; auto.
  - f_equal. apply IH; [exact Hnd'|].
    intros n Hn [<-|H]; [tauto|]. apply (Hseen n); simpl; auto.
Qed.

Lemma sheet_names_shared (names seen : list string) :
  ~ NoDup names -> List.length (sheet_names seen names) < List.length names.
Proof.
  revert seen. induction names as [|x names IH]; intros seen Hnd;
    cbn [sheet_names].
  - exfalso. apply Hnd. constructor.
  - destruct (existsb (String.eqb x) seen) eqn:E; simpl.
    + pose proof (sheet_names_length names seen). lia.
    + destruct (in_dec string_dec x names) as [Hx|Hx].
      * assert (Hlt : List.length (sheet_names (x :: seen) names)
                      < List.length names); [|lia].
        pose proof (sheet_names_NoDup names (x :: seen)) as Hnd'.
        pose proof (sheet_names_length names (x :: seen)) as Hle.
        destruct (Nat.eq_dec (List.length (sheet_names (x :: seen) names))
                    (List.length names)) as [Heq|Hne]; [|lia].
        exfalso.
        assert (Hincl : incl (sheet_names (x :: seen) names) names).
        { intros n Hn. apply sheet_names_In in Hn. tauto. }
        assert (Hall : incl names (sheet_names (x :: seen) names)).
        { apply NoDup_length_incl; [exact Hnd' | lia | exact Hincl]. }
        apply Hall in Hx. apply sheet_names_In in Hx. simpl in Hx. tauto.
      * assert (Hnd' : ~ NoDup names).
        { intros H. apply Hnd. now constructor. }
        specialize (IH (x :: seen) Hnd'). lia.
Qed.

(** The sheet names of a part of the tickers are among those of all. *)
Lemma written_name (keep_it : string -> bool) (tickers : list string)
  (n : string) :
  In n (map sanitize_sheet_name (filter keep_it tickers)) ->
  In n (map sanitize_sheet_name tickers).
Proof.
  rewrite !in_map_iff. intros [t [Hn Ht]]. exists t.
  split; [exact Hn|]. apply filter_In in Ht. tauto.
Qed.

Lemma written_names_distinct (keep_it : string -> bool)
  (tickers : list string) :
  NoDup (map sanitize_sheet_name tickers) ->
  NoDup (map sanitize_sheet_name (filter keep_it tickers)).
Proof.
  induction tickers as [|t ts IH]; cbn [map filter]; [constructor|].
  rewrite NoDup_cons_iff. intros [Ht Hts].
  destruct (keep_it t); cbn [map]; [|exact (IH Hts)].
  apply NoDup_cons; [|exact (IH Hts)].
  intros Hin. exact (Ht (written_name _ _ _ Hin)).
Qed.

(** X16. A run that returns has called [to_excel] once for each ticker
    that is not skipped, in the order of the tickers, under the sanitized
    ticker and with the normalized slice of the ticker's symbol, which has
    at least one row; every ticker is either written or put on the skip
    list.  The workbook is keyed by sheet name: it has the sheet SUMMARY
    and the sanitized names of the written tickers, no name twice, so at
    most one sheet per written ticker besides the summary.  Each written
    ticker has a sheet of its own exactly when the sanitized names of the
    written tickers differ from each other and from SUMMARY, as they do
    when those of all tickers do. *)
Theorem workbook_holds_the_successes
  (literal_eval json_loads : string -> option pyval)
  (response_text : string) (yf_download : list string -> option DataFrame)
  (acc : Accumulated) :
  download_and_write_excel literal_eval json_loads response_text yf_download
    = Ok acc ->
  exists tickers,
    get_egx_tickers literal_eval json_loads response_text = Ok tickers /\
    let data := yf_download (map to_yf_symbol tickers) in
    let written := filter (fun t => negb (no_usable_data data t)) tickers in
    Forall2
      (fun t w =>
         fst w = sanitize_sheet_name t /\
         exists df_t,
           _slice_ticker_from_download data (to_yf_symbol t) = Some df_t /\
           normalize_ohlcv df_t = Ok (snd w) /\
           rows (snd w) <> [])
      written (writes acc) /\
    List.length (writes acc) + List.length (skipped acc) =
      List.length tickers /\
    NoDup (workbook_sheets acc) /\
    (forall n, In n (workbook_sheets acc) <->
               n = "SUMMARY" \/ In n (map sanitize_sheet_name written)) /\
    List.length (workbook_sheets acc) <= List.length written + 1 /\
    (List.length (workbook_sheets acc) = List.length written + 1 <->
     NoDup (map sanitize_sheet_name written) /\
     ~ In "SUMMARY" (map sanitize_sheet_name written)) /\
    (NoDup (map sanitize_sheet_name tickers) ->
     ~ In "SUMMARY" (map sanitize_sheet_name tickers) ->
     workbook_sheets acc =
       (map sanitize_sheet_name written ++ ["SUMMARY"])%list).
Proof.
  intros Hrun.
  destruct (run_inv _ _ _ _ _ Hrun) as [tickers [Hg [_ Hloop]]].
  exists tickers. split; [exact Hg|]. intros data written.
  destruct (for_each_sheets _ _ _ _ Hloop) as [new [Hs Hf]].
  destruct (for_each_process _ _ _ _ Hloop) as [_ [_ [_ Hk]]].
  cbn [writes skipped app] in Hs, Hk. fold data in Hf, Hk.
  rewrite filter_pairs in Hf. apply Forall2_map_l in Hf.
  assert (Hf' : Forall2
      (fun t w =>
         fst w = sanitize_sheet_name t /\
         exists df_t,
           _slice_ticker_from_download data (to_yf_symbol t) = Some df_t /\
           normalize_ohlcv df_t = Ok (snd w) /\
           rows (snd w) <> [])
      written new).
  { exact Hf. }
  assert (Hnames : map fst new = map sanitize_sheet_name written).
  { clear - Hf'. induction Hf' as [|t w ts ws [Hw _] _ IH]; [reflexivity|].
    simpl. now rewrite Hw, IH. }
  assert (Hlen : List.length new = List.length written)
    by (symmetry; exact (Forall2_length Hf')).
  unfold workbook_sheets. rewrite Hs, Hnames, Hk, Hlen.
  set (names := map sanitize_sheet_name written).
  assert (Hln : List.length (names ++ ["SUMMARY"]) = List.length written + 1).
  { rewrite length_app. unfold names. rewrite length_map. reflexivity. }
  assert (Hnd : NoDup (names ++ ["SUMMARY"]) <->
                NoDup names /\ ~ In "SUMMARY" names).
  { split.
    - intros H. split; [exact (NoDup_app_remove_r _ _ H)|].
      intros Hin. apply NoDup_remove_2 in H. rewrite app_nil_r in H. tauto.
    - intros [H1 H2]. apply NoDup_app; [exact H1 | repeat constructor; simpl; tauto|].
      intros x Hx [<-|[]]. tauto. }
  split; [exact Hf'|]. split.
  { unfold written. rewrite filter_map_pairs.
    apply (filter_partition_length (no_usable_data data)). }
  split; [apply sheet_names_NoDup|]. split.
  { intros n. rewrite sheet_names_In, in_app_iff. simpl.
    split; [intros [[H|[H|[]]] _]; auto | intros [->|H]; auto]. }
  split.
  { rewrite <- Hln. apply sheet_names_length. }
  split.
  { rewrite <- Hnd, <- Hln. split.
    - intros Heq.
      destruct (ListDec.NoDup_dec string_dec (names ++ ["SUMMARY"]))
        as [H|H]; [exact H|].
      apply (sheet_names_shared _ []) in H. lia.
    - intros H. rewrite sheet_names_distinct; [reflexivity | exact H|].
      intros n _ []. }
  intros Hall Hsum. apply sheet_names_distinct; [|intros n _ []].
  apply Hnd. split.
  - apply written_names_distinct. exact Hall.
  - intros Hin. apply Hsum. exact (written_name _ _ _ Hin).
Qed.

Lemma workbook_holds_the_successes_witness :
  exists acc,
    download_and_write_excel ref_literal_eval ref_json_loads
      "['AAA','BBB', 'CCC']" Examples.download = Ok acc /\
    map fst (writes acc) = ["AAA"] /\
    workbook_sheets acc = ["AAA"; "SUMMARY"] /\
    List.length (writes acc) + List.length (skipped acc) = 3.
Proof.
  eexists.
  match goal with
  | |- ?run = Ok ?acc /\ _ =>
      assert (Hrun : run = Ok acc) by (vm_compute; reflexivity)
  end.
  split; [exact Hrun|]. split; [reflexivity|]. split; [reflexivity|].
  destruct (workbook_holds_the_successes ref_literal_eval ref_json_loads
              "['AAA','BBB', 'CCC']" Examples.download _ Hrun)
    as [tickers [Hg [_ [Hlen _]]]].
  vm_compute in Hg. injection Hg as <-. exact Hlen.
Defined.

(** ** Lists of blank entries *)

Lemma clean_tickers_nil (items : list pyval) :
  clean_tickers items = [] <-> all_blank items.
Proof.
  pose proof (proj2 (clean_tickers_spec items)) as Hin. split.
  - intros E t Ht. destruct (Text.strip (Py.str t)) eqn:Es; [reflexivity|].
    exfalso.
    assert (H : In (Text.upper (Text.strip (Py.str t))) (clean_tickers items)).
    { apply Hin. exists t. rewrite Es.
      split; [exact Ht|]. split; [discriminate | reflexivity]. }
    rewrite E in H. exact H.
  - intros Hb. destruct (clean_tickers items) as [|s l]; [reflexivity|].
    exfalso. destruct (proj1 (Hin s) (or_introl eq_refl)) as [t [Ht [Hne _]]].
    apply Hne, Hb, Ht.
Qed.

Lemma iter_truthy (lst : pyval) (items : list pyval) :
  Py.truthy lst = true -> Py.iter lst = Ok items -> items <> [].
Proof.
  destruct lst as [| | | |s|l|l|l]; simpl; try discriminate.
  - destruct s; [discriminate|]. intros _ [= <-]. discriminate.
  - destruct l; [discriminate|]. intros _ [= <-]. discriminate.
  - destruct l; [discriminate|]. intros _ [= <-]. discriminate.
  - destruct l; [discriminate|]. intros _ [= <-]. discriminate.
Qed.

(** X17. A list that is not empty but holds only blank entries gets past
    the parser: the parser returns the empty ticker list exactly when
    every element of the parsed list is blank, and the run then stops with
    the RuntimeError "No tickers to download after mapping." of line 81,
    whatever the provider would answer. *)
Theorem blank_list_stops_the_run
  (literal_eval json_loads : string -> option pyval)
  (txt : string) (tickers : list string) :
  get_egx_tickers literal_eval json_loads txt = Ok tickers ->
  exists lst items,
    parse_ticker_list literal_eval json_loads (Text.strip txt) = Ok lst /\
    Py.iter lst = Ok items /\
    items <> [] /\
    (tickers = [] <-> all_blank items) /\
    (tickers = [] ->
     forall yf_download,
       download_and_write_excel literal_eval json_loads txt yf_download =
       Raise no_tickers).
Proof.
  intros H.
  destruct (get_egx_tickers_ok _ _ _ _ H) as [lst [items [Hp [Ht [Hi ->]]]]].
  exists lst, items. split; [exact Hp|]. split; [exact Hi|].
  split; [exact (iter_truthy _ _ Ht Hi)|].
  split; [apply clean_tickers_nil|].
  intros E yf_download. unfold download_and_write_excel.
  rewrite H, E. reflexivity.
Qed.

Lemma blank_list_stops_the_run_witness :
  get_egx_tickers ref_literal_eval ref_json_loads "[' ', '']" = Ok [] /\
  download_and_write_excel ref_literal_eval ref_json_loads "[' ', '']"
    Examples.download = Raise no_tickers.
Proof.
  assert (Hg : get_egx_tickers ref_literal_eval ref_json_loads "[' ', '']" =
               Ok []) by (vm_compute; reflexivity).
  split; [exact Hg|].
  destruct (blank_list_stops_the_run _ _ _ _ Hg)
    as [lst [items [_ [_ [_ [_ Hrun]]]]]].
  exact (Hrun eq_refl Examples.download).
Defined.

(** ** Unrecognized columns *)

Section ExtraColumn.

Variable df : Frame (option Z).
Variable c : string.
Variable value : list cell -> cell.
Hypothesis Hwf : well_formed df.
Hypothesis Hc : ~ In c OHLCV.
Hypothesis Hnew : ~ In c (columns df).

Lemma extra_column_well_formed : well_formed (Pd.assign_new c value df).
Proof.
  destruct Hwf as [Hn Hal]. split.
  - simpl. apply NoDup_app; [exact Hn | repeat constructor; simpl; tauto|].
    intros x Hx [<-|[]]. tauto.
  - now apply aligned_assign_new.
Qed.

Lemma extra_column_has (x : string) :
  In x OHLCV ->
  Pd.has_column x (Pd.assign_new c value df) = Pd.has_column x df.
Proof.
  intros Hx. unfold Pd.has_column. simpl. rewrite existsb_app. simpl.
  assert (E : (x =? c)%string = false).
  { apply String.eqb_neq. intros ->. tauto. }
  now rewrite E, !orb_false_r.
Qed.

Lemma extra_column_field (cells : list cell) (x : string) :
  In x OHLCV ->
  List.length cells = List.length (columns df) ->
  field (Pd.assign_new c value df) (cells ++ [value cells]) x =
  field df cells x.
Proof.
  intros Hx Hlen. unfold field. simpl. rewrite cell_at_snoc by exact Hlen.
  destruct (existsb (String.eqb x) (columns df)) eqn:E; [reflexivity|].
  assert (E' : (c =? x)%string = false).
  { apply String.eqb_neq. intros ->. tauto. }
  rewrite E'. symmetry. apply cell_at_absent.
  now apply (has_column_false x df).
Qed.

Lemma extra_column_keep :
  keep (with_adj_close (Pd.assign_new c value df)) =
  keep (with_adj_close df).
Proof.
  unfold keep. apply filter_ext_in. intros x Hx.
  rewrite !with_adj_close_has, !extra_column_has; auto.
  unfold OHLCV. simpl. auto 10.
Qed.

Lemma extra_column_complete (cells : list cell) :
  List.length cells = List.length (columns df) ->
  complete (Pd.assign_new c value df) (cells ++ [value cells]) =
  complete df cells.
Proof.
  intros Hlen. unfold complete, OHLCV. cbn [forallb].
  rewrite !extra_column_has, !extra_column_field;
    (exact Hlen || (unfold OHLCV; simpl; auto 10)).
Qed.

Lemma extra_column_canonical (r : option Z * list cell) :
  List.length (snd r) = List.length (columns df) ->
  canonical (Pd.assign_new c value df)
    (fst r, (snd r ++ [value (snd r)])%list) =
  canonical df r.
Proof.
  intros Hlen. unfold canonical, adjusted. cbn [fst snd].
  change (date_kept (Pd.assign_new c value df)) with (date_kept df).
  rewrite !extra_column_has, !extra_column_field;
    (exact Hlen || (unfold OHLCV; simpl; auto 10)).
Qed.

End ExtraColumn.

(** X18. Normalization reads the recognized fields only: a further column
    of a well-formed series, under any label that is not a recognized
    field, changes neither the frame that is returned nor the error that
    is raised. *)
Theorem normalize_ohlcv_ignores_unrecognized
  (df : Frame (option Z)) (c : string) (value : list cell -> cell) :
  well_formed df ->
  ~ In c OHLCV ->
  ~ In c (columns df) ->
  normalize_ohlcv (Pd.assign_new c value df) = normalize_ohlcv df.
Proof.
  intros Hwf Hc Hnew.
  pose proof (extra_column_well_formed df c value Hwf Hnew) as Hwf'.
  pose proof (extra_column_keep df c value Hc) as Hkeep.
  destruct (normalize_ohlcv_cases (Pd.assign_new c value df))
    as [[Hin' Hr']|[Hn' [out' Ho']]];
    destruct (normalize_ohlcv_cases df) as [[Hin Hr]|[Hn [out Ho]]];
    rewrite Hkeep in *;
    change (Pd.index_label (Pd.assign_new c value df))
      with (Pd.index_label df) in *;
    try tauto.
  - now rewrite Hr', Hr.
  - rewrite Ho', Ho. f_equal.
    rewrite (normalize_ohlcv_spec _ _ Hwf' Ho'),
            (normalize_ohlcv_spec _ _ Hwf Ho).
    f_equal. f_equal. cbn [Pd.assign_new rows].
    rewrite filter_map_swap, map_map. cbn [snd].
    destruct Hwf as [_ Hal]. rewrite Forall_forall in Hal.
    rewrite (filter_ext_in _ (fun r => complete df (snd r))).
    + apply map_ext_in. intros r Hr. apply filter_In in Hr as [Hr _].
      apply (extra_column_canonical df c value Hc Hnew r (Hal r Hr)).
    + intros r Hr.
      apply (extra_column_complete df c value Hc Hnew (snd r) (Hal r Hr)).
Qed.

Lemma normalize_ohlcv_ignores_unrecognized_witness :
  normalize_ohlcv
    (Pd.assign_new "Dividends" Extra.dividends Examples.two_rows) =
  Ok Examples.two_rows_out.
Proof.
  assert (H1 : ~ In "Dividends" OHLCV)
    by (simpl; intuition discriminate).
  assert (H2 : ~ In "Dividends" (columns Examples.two_rows))
    by (simpl; intuition discriminate).
  exact (eq_trans
           (normalize_ohlcv_ignores_unrecognized Examples.two_rows
              "Dividends" Extra.dividends well_formed_two_rows H1 H2)
           eq_refl).
Defined.
